(** * Model persistence, versioning and cached inference

    A shallow embedding of [models/model_persistence.py]
    ([ModelPersistenceManager], [ModelInferencePipeline]) and of the response
    shaping done by [perform_inference] in [main.py], together with the
    properties of the registry and of the inference cache.

    Modelling conventions.
    - Python dictionaries keep insertion order, and [max], [sorted] and the
      registry scan of [load_model] depend on it: a dictionary is an
      association list [dict V] with the update discipline of a Python dict.
      The two caches of the pipeline are only ever used as maps and are
      [gmap]s.
    - A [pathlib.Path] is the list of its components.  [base / name] appends
      one component: model names and versions are taken to hold no path
      separator.
    - Durable storage is a finite map from paths to typed documents plus a
      set of directories.  The JSON encoding of the registry and metadata
      documents is taken to be lossless on the values stored in them.
    - Every mutating storage call may fail; which ones do is given by the
      [io_fails] oracle of the environment.  A failed call changes nothing.
    - Exceptions are values of [exn]; a raised exception keeps every mutation
      made before it, as in Python.  Logging is not modelled, so the
      [try: ... except Exception: logger.error(...); raise] wrappers are the
      identity.
    - [datetime.now()] reads a clock given by the environment; each reading
      may differ from the one before.
    - A model is opaque: what the code probes ([hasattr], [isinstance]) is a
      flag, what it calls is a function that returns a value or raises. *)

From Stdlib Require Import ZArith String Ascii List Bool Lia DecimalString
  DecimalNat DecimalFacts.
From stdpp Require Import gmap strings list sorting.

Open Scope string_scope.
Set Warnings "-register-all".

(** ** Python values *)

(** A Python number.  Floats are kept as their IEEE-754 binary64 bit pattern;
    no arithmetic is ever performed on them by the code under study. *)
Inductive scalar :=
| PyInt (z : Z)
| PyFloat (bits : Z).

(** A numpy array: [Item] is a zero-dimensional array. *)
Inductive ndarray :=
| Item (x : scalar)
| Axis (l : list ndarray).

Inductive pyval :=
| PyNone
| Scalar (x : scalar)
| PyStr (s : string)
| PyList (l : list pyval)
| PyTuple (l : list pyval)
| PyDict (items : list (string * pyval))
| NpScalar (x : scalar)
| NdArray (a : ndarray)
| Tensor (a : ndarray) (cuda : bool)
| DataFrame (values : ndarray).

(** JSON-representable values, for the opaque [parameters] mapping. *)
Inductive json :=
| JNull
| JBool (b : bool)
| JNum (x : scalar)
| JStr (s : string)
| JList (l : list json)
| JObject (items : list (string * json)).

(** ** Insertion-ordered dictionaries *)

Definition dict (V : Type) := list (string * V).

Section Dict.
Context {V : Type}.

(** [d.get(k)] *)
Fixpoint dict_get (k : string) (d : dict V) : option V :=
  match d with
  | [] => None
  | (k', v) :: d' => if decide (k' = k) then Some v else dict_get k d'
  end.

(** [k in d] *)
Definition dict_mem (k : string) (d : dict V) : bool :=
  match dict_get k d with Some _ => true | None => false end.

(** [d[k] = v]: an existing key keeps its position, a new key goes last. *)
Fixpoint dict_set (k : string) (v : V) (d : dict V) : dict V :=
  match d with
  | [] => [(k, v)]
  | (k', v') :: d' =>
      if decide (k' = k) then (k', v) :: d' else (k', v') :: dict_set k v d'
  end.

(** [del d[k]] for a key that is present. *)
Fixpoint dict_del (k : string) (d : dict V) : dict V :=
  match d with
  | [] => []
  | (k', v') :: d' =>
      if decide (k' = k) then d' else (k', v') :: dict_del k d'
  end.

Definition dict_keys (d : dict V) : list string := map fst d.

(** Keys of a Python dict are pairwise distinct. *)
Definition dict_wf (d : dict V) : Prop := NoDup (dict_keys d).
End Dict.

(** ** Paths *)

Definition path := list string.

(** [p / name] *)
Definition path_join (p : path) (name : string) : path := (p ++ [name])%list.

(** [p.name] *)
Definition path_name (p : path) : string := List.last p "".

(** [p.parent] *)
Definition path_parent (p : path) : path := removelast p.

(** [s.rfind(".")], scanning from position [pos]. *)
Fixpoint rfind_dot (s : string) (pos : nat) (found : option nat) : option nat :=
  match s with
  | EmptyString => found
  | String c s' =>
      rfind_dot s' (S pos) (if Ascii.eqb c "."%char then Some pos else found)
  end.

(** [p.suffix]: the last dot of the name and what follows it, unless that dot
    starts or ends the name. *)
Definition path_suffix (p : path) : string :=
  let name := path_name p in
  match rfind_dot name 0 None with
  | Some i =>
      if (0 <? i)%nat && (i <? String.length name - 1)%nat
      then String.substring i (String.length name - i) name
      else ""
  | None => ""
  end.

(** [s[1:]] *)
Definition str_tail (s : string) : string :=
  match s with
  | EmptyString => EmptyString
  | String _ s' => s'
  end.

(** [s.replace(old, new)] for a non-empty [old]: [skip] counts the characters
    of the occurrence being replaced that are still to be dropped. *)
Fixpoint replace_go (old new : string) (skip : nat) (s : string) : string :=
  match s with
  | EmptyString => EmptyString
  | String c s' =>
      match skip with
      | S k => replace_go old new k s'
      | O =>
          if String.prefix old s
          then new +:+ replace_go old new (String.length old - 1) s'
          else String c (replace_go old new 0 s')
      end
  end.

(** With an empty [old], Python inserts [new] before every character and at
    the end. *)
Fixpoint interleave (new s : string) : string :=
  match s with
  | EmptyString => new
  | String c s' => new +:+ String c (interleave new s')
  end.

Definition str_replace (old new s : string) : string :=
  match old with
  | EmptyString => interleave new s
  | _ => replace_go old new 0 s
  end.

(** [s.endswith(suffix)] *)
Definition str_endswith (s suffix : string) : bool :=
  String.prefix (String.rev suffix) (String.rev s).

(** ** Data model *)

(** Mutating calls on durable storage. *)
Inductive fsop :=
| OpWrite (p : path)
| OpUnlink (p : path)
| OpMkdir (p : path)
| OpRmdir (p : path)
| OpCopy (src dst : path).

(** Python exceptions.  [OSError] is the failure of a storage call decided by
    the oracle; [ModelError] stands for whatever a model raises from its own
    code. *)
Inductive exn :=
| ValueError (msg : string)
| FileNotFoundError (msg : string) (p : path)
| FileExistsError (p : path)
| IsADirectoryError (p : path)
| NotADirectoryError (p : path)
| OSError (op : fsop)
| JSONDecodeError (p : path)
| UnpicklingError (p : path)
| KeyError (k : string)
| AttributeError (attr : string)
| TypeError (msg : string)
| StopIteration
| ModelError (msg : string).

Inductive result (A : Type) :=
| Ok (a : A)
| Raise (e : exn).
Arguments Ok {A} a.
Arguments Raise {A} e.

(** The capabilities of an opaque model object that the code probes or calls. *)
Record model := {
  has_state_dict : bool;           (* hasattr(model, 'state_dict') *)
  is_BaseEstimator : bool;         (* isinstance(model, BaseEstimator) *)
  has_save : bool;                 (* hasattr(model, 'save') *)
  (* [None]: no 'parameters' attribute; [Some None]: no parameter at all;
     [Some (Some b)]: next(model.parameters()).is_cuda is [b] *)
  parameters_is_cuda : option (option bool);
  has_eval : bool;                 (* model.eval() is available *)
  call : option (pyval -> result pyval);           (* model(input) *)
  predict_attr : option (pyval -> result pyval);   (* model.predict *)
  predict_proba : option (pyval -> result pyval);  (* model.predict_proba *)
}.

(** One registry entry: the dictionary stored under a model identifier.  Only
    the ['active'] key is ever read with a default. *)
Record entry := {
  entry_version : string;
  entry_training_date : string;
  entry_performance_metrics : dict scalar;
  entry_file_path : path;
  entry_metadata_path : path;
  entry_active : option bool;
}.

(** [self.registry]: model name -> model identifier -> entry. *)
Definition registry_t := dict (dict entry).

Record ModelMetadata := {
  model_id : string;
  model_name : string;
  model_type : string;
  version : string;
  training_date : string;
  performance_metrics : dict scalar;
  parameters : dict json;
  data_hash : string;
  file_path : path;
  file_size : Z;
  gpu_compatible : bool;
  framework_version : string;
  python_version : string;
  dependencies : dict string;
}.

(** Serialisation formats of an artifact. *)
Inductive format := Torch | Joblib | Pickle.

(** A document on durable storage. *)
Inductive file :=
| Artifact (fmt : format) (m : model)
| MetadataDoc (md : ModelMetadata)
| RegistryDoc (r : registry_t).

(** ** Clock *)

Record datetime := {
  year : nat; month : nat; day : nat;
  hour : nat; minute : nat; second : nat; microsecond : nat;
}.

Definition decimal (n : nat) : string := NilEmpty.string_of_uint (Nat.to_uint n).

Fixpoint zeros (n : nat) : string :=
  match n with
  | O => ""
  | S k => String "0" (zeros k)
  end.

(** Decimal rendering of [n], zero-padded to [width] characters. *)
Definition pad (width n : nat) : string :=
  let d := decimal n in zeros (width - String.length d) +:+ d.

(** [strftime("%Y%m%d_%H%M%S")].  The year is written with four digits, as
    every platform writes the years from 1000 on; for an earlier year the
    padding of [%Y] depends on the C library. *)
Definition strftime_compact (t : datetime) : string :=
  pad 4 (year t) +:+ pad 2 (month t) +:+ pad 2 (day t) +:+ "_" +:+
  pad 2 (hour t) +:+ pad 2 (minute t) +:+ pad 2 (second t).

(** [isoformat()]: the microseconds are printed only when they are not 0. *)
Definition isoformat (t : datetime) : string :=
  pad 4 (year t) +:+ "-" +:+ pad 2 (month t) +:+ "-" +:+ pad 2 (day t) +:+ "T" +:+
  pad 2 (hour t) +:+ ":" +:+ pad 2 (minute t) +:+ ":" +:+ pad 2 (second t) +:+
  (if (microsecond t =? 0)%nat then "" else "." +:+ pad 6 (microsecond t)).

(** ** Environment and state *)

Record environment := {
  base_path : path;
  backup_path : path;
  clock : nat -> datetime;           (* successive readings of datetime.now() *)
  io_fails : fsop -> bool;           (* the storage calls that fail *)
  framework_versions : dict string;  (* _get_framework_versions() *)
  md5_hexdigest : string -> string;
  py_str : pyval -> string;          (* str(data) *)
  tobytes_str : ndarray -> string;   (* str(data.tobytes()) *)
  st_size : file -> Z;               (* size in bytes of a written document *)
  cuda_is_available : bool;          (* torch.cuda.is_available() *)
  as_float32 : ndarray -> ndarray;   (* conversion done by torch.tensor(dtype=float32) *)
}.

Record world := {
  registry : registry_t;                       (* the manager's self.registry *)
  files : gmap path file;                      (* durable storage: documents *)
  dirs : gset path;                            (* durable storage: directories *)
  ticks : nat;                                 (* clock readings taken so far *)
  loaded_models : gmap string model;           (* the pipeline's model cache *)
  model_metadata : gmap string ModelMetadata;  (* the pipeline's metadata cache *)
}.

Definition set_registry (r : registry_t) (w : world) : world :=
  {| registry := r; files := files w; dirs := dirs w; ticks := ticks w;
     loaded_models := loaded_models w; model_metadata := model_metadata w |}.

Definition set_files (f : gmap path file) (w : world) : world :=
  {| registry := registry w; files := f; dirs := dirs w; ticks := ticks w;
     loaded_models := loaded_models w; model_metadata := model_metadata w |}.

Definition set_dirs (d : gset path) (w : world) : world :=
  {| registry := registry w; files := files w; dirs := d; ticks := ticks w;
     loaded_models := loaded_models w; model_metadata := model_metadata w |}.

Definition set_ticks (n : nat) (w : world) : world :=
  {| registry := registry w; files := files w; dirs := dirs w; ticks := n;
     loaded_models := loaded_models w; model_metadata := model_metadata w |}.

Definition set_caches (lm : gmap string model) (mm : gmap string ModelMetadata)
    (w : world) : world :=
  {| registry := registry w; files := files w; dirs := dirs w; ticks := ticks w;
     loaded_models := lm; model_metadata := mm |}.

(** ** The monad of the embedding: state and exceptions *)

Definition M (A : Type) : Type := world -> result A * world.

Definition ret {A} (a : A) : M A := fun w => (Ok a, w).

Definition bind {A B} (m : M A) (k : A -> M B) : M B :=
  fun w =>
    match m w with
    | (Ok a, w') => k a w'
    | (Raise e, w') => (Raise e, w')
    end.

Definition raise {A} (e : exn) : M A := fun w => (Raise e, w).

(** [try: m except Exception as e: h e] *)
Definition try_except {A} (m : M A) (h : exn -> M A) : M A :=
  fun w =>
    match m w with
    | (Ok a, w') => (Ok a, w')
    | (Raise e, w') => h e w'
    end.

(** A computation that does not use the state. *)
Definition lift {A} (r : result A) : M A := fun w => (r, w).

Definition get : M world := fun w => (Ok w, w).
Definition modify (f : world -> world) : M unit := fun w => (Ok tt, f w).

Declare Scope py_scope.
Delimit Scope py_scope with py.
Notation "x <- m ;; k" := (bind m (fun x => k))
  (at level 20, m at level 99, k at level 200, only parsing) : py_scope.
Notation "' pat <- m ;; k" := (bind m (fun x => match x with pat => k end))
  (at level 20, pat pattern, m at level 99, k at level 200,
   only parsing) : py_scope.
Notation "m ;; k" := (bind m (fun _ => k))
  (at level 100, k at level 200, only parsing, right associativity) : py_scope.
Open Scope py_scope.

(** ** Durable storage and the persistence manager *)

Section Manager.
Variable env : environment.

(** [datetime.datetime.now()] *)
Definition now : M datetime :=
  fun w => (Ok (clock env (ticks w)), set_ticks (S (ticks w)) w).

Definition is_file (w : world) (p : path) : bool :=
  match files w !! p with Some _ => true | None => false end.

Definition is_dir (w : world) (p : path) : bool := bool_decide (p ∈ dirs w).

(** [p.exists()] *)
Definition path_exists (p : path) : M bool :=
  w <- get ;; ret (is_file w p || is_dir w p).

(** A mutating storage call fails when the oracle says so. *)
Definition guard_io (op : fsop) : M unit :=
  if io_fails env op then raise (OSError op) else ret tt.

(** [open(p, 'r')] and decoding of the document *)
Definition read_file (p : path) : M file :=
  w <- get ;;
  match files w !! p with
  | Some f => ret f
  | None =>
      if is_dir w p then raise (IsADirectoryError p)
      else raise (FileNotFoundError "No such file or directory" p)
  end.

(** [open(p, 'w')] and writing of the whole document *)
Definition write_file (p : path) (f : file) : M unit :=
  guard_io (OpWrite p) ;;
  w <- get ;;
  if is_dir w p then raise (IsADirectoryError p)
  else modify (fun w => set_files (<[p := f]> (files w)) w).

(** [p.unlink()] *)
Definition unlink (p : path) : M unit :=
  guard_io (OpUnlink p) ;;
  w <- get ;;
  if is_file w p then modify (fun w => set_files (delete p (files w)) w)
  else if is_dir w p then raise (IsADirectoryError p)
  else raise (FileNotFoundError "No such file or directory" p).

(** [p.mkdir(exist_ok=True)] *)
Definition mkdir (p : path) : M unit :=
  guard_io (OpMkdir p) ;;
  w <- get ;;
  if is_file w p then raise (FileExistsError p)
  else modify (fun w => set_dirs ({[ p ]} ∪ dirs w) w).

(** [p.rmdir()] of an existing, empty directory *)
Definition rmdir (p : path) : M unit :=
  guard_io (OpRmdir p) ;;
  modify (fun w => set_dirs (dirs w ∖ {[ p ]}) w).

Definition is_child (d p : path) : bool :=
  bool_decide (p <> [] /\ path_parent p = d).

Definition child_files (w : world) (d : path) : list path :=
  List.filter (is_child d) (map fst (map_to_list (files w))).

Definition child_dirs (w : world) (d : path) : list path :=
  List.filter (is_child d) (elements (dirs w)).

(** [list(d.iterdir())]; the order of a directory listing is the one of the
    storage map. *)
Definition iterdir (d : path) : M (list path) :=
  w <- get ;;
  if is_dir w d then ret (child_files w d ++ child_dirs w d)%list
  else if is_file w d then raise (NotADirectoryError d)
  else raise (FileNotFoundError "No such file or directory" d).

(** [shutil.copy2(src, dst)]; a destination that is a directory receives
    the file under its own name. *)
Definition copy2 (src dst : path) : M unit :=
  guard_io (OpCopy src dst) ;;
  f <- read_file src ;;
  w <- get ;;
  let target := if is_dir w dst then path_join dst (path_name src) else dst in
  modify (fun w => set_files (<[target := f]> (files w)) w).

(** [p.stat().st_size] *)
Definition stat_size (p : path) : M Z :=
  f <- read_file p ;; ret (st_size env f).

Definition registry_file : path :=
  path_join (base_path env) "model_registry.json".

(** [_load_registry]: a missing or undecodable document is an empty
    registry, and so is here a document of another kind than the one
    [_save_registry] writes. *)
Definition _load_registry (w : world) : registry_t :=
  match files w !! registry_file with
  | Some (RegistryDoc r) => r
  | _ => []
  end.

(** [ModelPersistenceManager.__init__]; [mkdir(parents=True, exist_ok=True)]
    also creates every missing ancestor, which the oracle-guarded [mkdir]
    stands for. *)
Definition init_manager : M unit :=
  mkdir (base_path env) ;;
  mkdir (backup_path env) ;;
  modify (fun w => set_registry (_load_registry w) w).

Definition _save_registry : M unit :=
  w <- get ;; write_file registry_file (RegistryDoc (registry w)).

Definition _generate_model_id (name ver : string) : M string :=
  t <- now ;; ret (name +:+ "_v" +:+ ver +:+ "_" +:+ strftime_compact t).

(** [hasattr(data, 'values')] holds for a data frame, and also for a
    dictionary and a tensor, whose [values] is a method without [tobytes]. *)
Definition _calculate_data_hash (data : pyval) : result string :=
  match data with
  | DataFrame values => Ok (md5_hexdigest env (tobytes_str env values))
  | PyDict _ | Tensor _ _ => Raise (AttributeError "tobytes")
  | NdArray a => Ok (md5_hexdigest env (tobytes_str env a))
  | _ => Ok (md5_hexdigest env (py_str env data))
  end.

(** [self._calculate_data_hash(training_data) if training_data is not None
    else ""] *)
Definition training_data_hash (training_data : pyval) : result string :=
  match training_data with
  | PyNone => Ok ""
  | _ => _calculate_data_hash training_data
  end.

Definition _detect_model_type (m : model) : string :=
  if has_state_dict m then "pytorch"
  else if is_BaseEstimator m then "sklearn"
  else if has_save m then "tensorflow"
  else "custom".

(** [framework_versions.get(key, "")] *)
Definition get_version (key : string) : string :=
  default "" (dict_get key (framework_versions env)).

(** [if name not in registry: registry[name] = {}] followed by
    [registry[name][id] = info] *)
Definition registry_add (name id : string) (info : entry) (reg : registry_t)
    : registry_t :=
  dict_set name (dict_set id info (default [] (dict_get name reg))) reg.

Definition save_model (m : model) (name ver : string)
    (metrics : dict scalar) (training_data : pyval)
    (params : option (dict json)) (type_hint : option string) : M string :=
  id <- _generate_model_id name ver ;;
  let mtype := default (_detect_model_type m) type_hint in
  let model_dir := path_join (base_path env) id in
  mkdir model_dir ;;
  '(fpath, gpu) <-
    (if decide (mtype = "pytorch") then
       let fpath := path_join model_dir (id +:+ ".pth") in
       write_file fpath (Artifact Torch m) ;;
       gpu <- match parameters_is_cuda m with
              | None => ret false
              | Some None => raise StopIteration
              | Some (Some b) => ret b
              end ;;
       ret (fpath, gpu)
     else if decide (mtype = "sklearn") then
       let fpath := path_join model_dir (id +:+ ".pkl") in
       write_file fpath (Artifact Joblib m) ;;
       ret (fpath, false)
     else
       let fpath := path_join model_dir (id +:+ ".pkl") in
       write_file fpath (Artifact Pickle m) ;;
       ret (fpath, false)) ;;
  size <- stat_size fpath ;;
  hash <- lift (training_data_hash training_data) ;;
  t <- now ;;
  let metadata :=
    {| model_id := id; model_name := name; model_type := mtype;
       version := ver; training_date := isoformat t;
       performance_metrics := metrics;
       parameters := default [] params;
       data_hash := hash; file_path := fpath; file_size := size;
       gpu_compatible := gpu;
       framework_version := get_version mtype;
       python_version := get_version "python";
       dependencies := framework_versions env |} in
  let metadata_path := path_join model_dir (id +:+ "_metadata.json") in
  write_file metadata_path (MetadataDoc metadata) ;;
  modify (fun w =>
    set_registry
      (registry_add name id
         {| entry_version := ver;
            entry_training_date := training_date metadata;
            entry_performance_metrics := metrics;
            entry_file_path := fpath;
            entry_metadata_path := metadata_path;
            entry_active := Some true |}
         (registry w)) w) ;;
  _save_registry ;;
  ret id.

(** The scan [for name, models in self.registry.items(): if model_id in
    models: ... break] shared by load, delete, backup and info. *)
Fixpoint find_model (id : string) (reg : registry_t) : option (string * entry) :=
  match reg with
  | [] => None
  | (name, models) :: reg' =>
      match dict_get id models with
      | Some info => Some (name, info)
      | None => find_model id reg'
      end
  end.

Definition not_found {A} (id : string) : M A :=
  raise (ValueError ("Model " +:+ id +:+ " not found in registry")).

(** [json.load] of a metadata document, rebuilt as a [ModelMetadata] *)
Definition read_metadata (p : path) : M ModelMetadata :=
  f <- read_file p ;;
  match f with
  | MetadataDoc md => ret md
  | _ => raise (JSONDecodeError p)
  end.

Definition format_of (mtype : string) : format :=
  if decide (mtype = "pytorch") then Torch
  else if decide (mtype = "sklearn") then Joblib
  else Pickle.

Definition format_eqb (a b : format) : bool :=
  match a, b with
  | Torch, Torch | Joblib, Joblib | Pickle, Pickle => true
  | _, _ => false
  end.

(** [torch.load], [joblib.load] or [pickle.load], chosen by the model type;
    an artifact is read back by the loader of the format it was written
    in. *)
Definition read_artifact (mtype : string) (p : path) : M model :=
  f <- read_file p ;;
  match f with
  | Artifact fmt m =>
      if format_eqb fmt (format_of mtype) then ret m
      else raise (UnpicklingError p)
  | _ => raise (UnpicklingError p)
  end.

Definition load_model (id : string) : M (model * ModelMetadata) :=
  w <- get ;;
  match find_model id (registry w) with
  | None => not_found id
  | Some (_, model_info) =>
      let metadata_path := entry_metadata_path model_info in
      ex <- path_exists metadata_path ;;
      if negb ex
      then raise (FileNotFoundError "Metadata file not found" metadata_path)
      else
        metadata <- read_metadata metadata_path ;;
        let model_path := entry_file_path model_info in
        ex <- path_exists model_path ;;
        if negb ex
        then raise (FileNotFoundError "Model file not found" model_path)
        else
          m <- read_artifact (model_type metadata) model_path ;;
          ret (m, metadata)
  end.

(** [v.get('active', True)] *)
Definition is_active (v : entry) : bool := default true (entry_active v).

(** [{k: v for k, v in models.items() if v.get('active', True)}] *)
Definition active_models (models : dict entry) : dict entry :=
  List.filter (fun kv => is_active (snd kv)) models.

(** [max(..., key=training_date)]: the running maximum is replaced only by
    a strictly greater key, so the first of several maxima wins. *)
Fixpoint max_by_date (best : string * entry) (l : dict entry) : string * entry :=
  match l with
  | [] => best
  | kv :: l' =>
      max_by_date
        (if String.ltb (entry_training_date (snd best))
                       (entry_training_date (snd kv))
         then kv else best) l'
  end.

Definition latest_model_id (active : dict entry) : option string :=
  match active with
  | [] => None
  | kv :: l => Some (fst (max_by_date kv l))
  end.

Definition load_latest_model (name : string) : M (model * ModelMetadata) :=
  w <- get ;;
  match dict_get name (registry w) with
  | None => not_found name
  | Some models =>
      match latest_model_id (active_models models) with
      | None => raise (ValueError ("No active models found for " +:+ name))
      | Some id => load_model id
      end
  end.

(** [if model_name:] is false for [None] and for the empty string. *)
Definition list_models (name : option string) (w : world)
    : dict (list entry) :=
  match name with
  | Some (String _ _ as n) =>
      match dict_get n (registry w) with
      | None => [(n, [])]
      | Some models => [(n, map snd models)]
      end
  | _ => map (fun nm => (fst nm, map snd (snd nm))) (registry w)
  end.

Definition backup_model (id : string) : M path :=
  w <- get ;;
  match find_model id (registry w) with
  | None => not_found id
  | Some (_, model_info) =>
      t <- now ;;
      let backup_dir :=
        path_join (backup_path env) (id +:+ "_" +:+ strftime_compact t) in
      mkdir backup_dir ;;
      let model_path := entry_file_path model_info in
      let metadata_path := entry_metadata_path model_info in
      ex <- path_exists model_path ;;
      (if ex then copy2 model_path (path_join backup_dir (path_name model_path))
       else ret tt) ;;
      ex <- path_exists metadata_path ;;
      (if ex
       then copy2 metadata_path (path_join backup_dir (path_name metadata_path))
       else ret tt) ;;
      ret backup_dir
  end.

(** [del registry[name][id]], then [del registry[name]] when nothing is
    left under the name. *)
Definition registry_remove (name id : string) (reg : registry_t) : registry_t :=
  match dict_del id (default [] (dict_get name reg)) with
  | [] => dict_del name reg
  | models => dict_set name models reg
  end.

Definition delete_model (id : string) (create_backup : bool) : M bool :=
  w <- get ;;
  match find_model id (registry w) with
  | None => not_found id
  | Some (name, model_info) =>
      (if create_backup then backup_model id ;; ret tt else ret tt) ;;
      let model_path := entry_file_path model_info in
      let metadata_path := entry_metadata_path model_info in
      ex <- path_exists model_path ;;
      (if ex then unlink model_path else ret tt) ;;
      ex <- path_exists metadata_path ;;
      (if ex then unlink metadata_path else ret tt) ;;
      let model_dir := path_parent model_path in
      ex <- path_exists model_dir ;;
      (if ex then
         children <- iterdir model_dir ;;
         match children with
         | [] => rmdir model_dir
         | _ => ret tt
         end
       else ret tt) ;;
      modify (fun w => set_registry (registry_remove name id (registry w)) w) ;;
      _save_registry ;;
      ret true
  end.

(** [list(backup_dir.glob("*_metadata.json"))] *)
Definition glob_metadata (d : path) : M (list path) :=
  w <- get ;;
  ret (if is_dir w d
       then List.filter (fun p => str_endswith (path_name p) "_metadata.json")
              (child_files w d ++ child_dirs w d)%list
       else []).

(** The loop of [restore_model] over the listing of the backup directory. *)
Fixpoint copy_renamed (original new : string) (model_dir : path)
    (listing : list path) : M unit :=
  match listing with
  | [] => ret tt
  | p :: rest =>
      w <- get ;;
      (if is_file w p
       then copy2 p (path_join model_dir (str_replace original new (path_name p)))
       else ret tt) ;;
      copy_renamed original new model_dir rest
  end.

Definition restore_model (backup : path) : M string :=
  ex <- path_exists backup ;;
  if negb ex then raise (FileNotFoundError "Backup directory not found" backup)
  else
    metadata_files <- glob_metadata backup ;;
    match metadata_files with
    | [] => raise (FileNotFoundError "No metadata file found in backup" backup)
    | metadata_file :: _ =>
        metadata <- read_metadata metadata_file ;;
        let original_model_id := model_id metadata in
        new_model_id <-
          _generate_model_id (model_name metadata)
            (version metadata +:+ "_restored") ;;
        let model_dir := path_join (base_path env) new_model_id in
        mkdir model_dir ;;
        listing <- iterdir backup ;;
        copy_renamed original_model_id new_model_id model_dir listing ;;
        let new_file_path :=
          path_join model_dir
            (new_model_id +:+ "." +:+
             str_tail (path_suffix (file_path metadata))) in
        let metadata' :=
          {| model_id := new_model_id;
             model_name := model_name metadata;
             model_type := model_type metadata;
             version := version metadata;
             training_date := training_date metadata;
             performance_metrics := performance_metrics metadata;
             parameters := parameters metadata;
             data_hash := data_hash metadata;
             file_path := new_file_path;
             file_size := file_size metadata;
             gpu_compatible := gpu_compatible metadata;
             framework_version := framework_version metadata;
             python_version := python_version metadata;
             dependencies := dependencies metadata |} in
        let new_metadata_path :=
          path_join model_dir (new_model_id +:+ "_metadata.json") in
        write_file new_metadata_path (MetadataDoc metadata') ;;
        modify (fun w =>
          set_registry
            (registry_add (model_name metadata) new_model_id
               {| entry_version := version metadata +:+ "_restored";
                  entry_training_date := training_date metadata;
                  entry_performance_metrics := performance_metrics metadata;
                  entry_file_path := new_file_path;
                  entry_metadata_path := new_metadata_path;
                  entry_active := Some true |}
               (registry w)) w) ;;
        _save_registry ;;
        ret new_model_id
    end.

(** Insertion into a list sorted by decreasing training date, before the
    first element whose date is not greater: equal dates keep the order in
    which they were met, as with [sorted(..., reverse=True)]. *)
Fixpoint insert_desc (x : string * entry) (l : dict entry) : dict entry :=
  match l with
  | [] => [x]
  | y :: l' =>
      if String.ltb (entry_training_date (snd x)) (entry_training_date (snd y))
      then y :: insert_desc x l'
      else x :: l
  end.

(** [sorted(active_models.items(), key=training_date, reverse=True)] *)
Definition sorted_models (active : dict entry) : dict entry :=
  foldr insert_desc [] active.

(** [l[k:]] for a Python integer [k] *)
Definition slice_from {A} (k : Z) (l : list A) : list A :=
  if (0 <=? k)%Z then skipn (Z.to_nat k) l
  else skipn (Z.to_nat (Z.max 0 (Z.of_nat (length l) + k))) l.

Definition models_to_delete (models : dict entry) (keep_versions : Z)
    : dict entry :=
  slice_from keep_versions (sorted_models (active_models models)).

(** The loop of [cleanup_old_models]: a failed deletion is logged and
    skipped. *)
Fixpoint cleanup_loop (ids deleted_ids : list string) : M (list string) :=
  match ids with
  | [] => ret deleted_ids
  | id :: rest =>
      deleted_ids' <-
        try_except
          (delete_model id true ;; ret (deleted_ids ++ [id])%list)
          (fun _ => ret deleted_ids) ;;
      cleanup_loop rest deleted_ids'
  end.

Definition cleanup_old_models (name : string) (keep_versions : Z)
    : M (list string) :=
  w <- get ;;
  match dict_get name (registry w) with
  | None => ret []
  | Some models =>
      if (Z.of_nat (length (active_models models)) <=? keep_versions)%Z
      then ret []
      else cleanup_loop (map fst (models_to_delete models keep_versions)) []
  end.
End Manager.

(** ** The inference pipeline *)

(** [hasattr(v, 'tolist')] *)
Definition has_tolist (v : pyval) : bool :=
  match v with
  | NpScalar _ | NdArray _ | Tensor _ _ => true
  | _ => false
  end.

(** [a.tolist()]: a zero-dimensional array gives a bare number. *)
Fixpoint ndarray_tolist (a : ndarray) : pyval :=
  match a with
  | Item x => Scalar x
  | Axis l => PyList (map ndarray_tolist l)
  end.

Definition tolist (v : pyval) : pyval :=
  match v with
  | NpScalar x => Scalar x
  | NdArray a | Tensor a _ => ndarray_tolist a
  | _ => v
  end.

(** The dictionary returned by [predict]; ['probabilities'] may be absent. *)
Record PredictionResult := {
  prediction : pyval;
  result_model_id : string;
  result_model_name : string;
  result_model_version : string;
  timestamp : string;
  probabilities : option pyval;
}.

Section Pipeline.
Variable env : environment.

(** [ModelInferencePipeline.__init__] *)
Definition init_pipeline : M unit := modify (set_caches ∅ ∅).

Definition load_model_for_inference (name : string) (id : option string)
    : M string :=
  '(id, m, metadata) <-
    match id with
    | None =>
        '(m, metadata) <- load_latest_model name ;;
        ret (model_id metadata, m, metadata)
    | Some id =>
        '(m, metadata) <- load_model id ;;
        ret (id, m, metadata)
    end ;;
  modify (fun w => set_caches (<[id := m]> (loaded_models w)) (model_metadata w) w) ;;
  modify (fun w => set_caches (loaded_models w) (<[id := metadata]> (model_metadata w)) w) ;;
  ret id.

Definition call_attr (attr : string) (f : option (pyval -> result pyval))
    (x : pyval) : M pyval :=
  match f with
  | Some g => lift (g x)
  | None => raise (AttributeError attr)
  end.

(** The dispatch of [predict] on the cached metadata's model type; the
    second component is the local variable [probabilities], [PyNone] when
    it is [None] or was never assigned. *)
Definition run_model (m : model) (metadata : ModelMetadata) (input : pyval)
    : M (pyval * pyval) :=
  if decide (model_type metadata = "pytorch") then
    (if has_eval m then ret tt else raise (AttributeError "eval")) ;;
    let input_tensor :=
      match input with
      | NdArray a =>
          Tensor (as_float32 env a)
            (gpu_compatible metadata && cuda_is_available env)
      | _ => input
      end in
    out <- match call m with
           | Some g => lift (g input_tensor)
           | None => raise (TypeError "object is not callable")
           end ;;
    ret (match out with Tensor a _ => NdArray a | _ => out end, PyNone)
  else if decide (model_type metadata = "sklearn") then
    out <- call_attr "predict" (predict_attr m) input ;;
    probs <- match predict_proba m with
             | Some g => lift (g input)
             | None => ret PyNone
             end ;;
    ret (out, probs)
  else
    match predict_attr m with
    | Some g => out <- lift (g input) ;; ret (out, PyNone)
    | None =>
        raise (ValueError ("Model type " +:+ model_type metadata +:+
                           " does not support prediction"))
    end.

Definition predict (id : string) (input : pyval) : M PredictionResult :=
  w <- get ;;
  match loaded_models w !! id with
  | None =>
      raise (ValueError ("Model " +:+ id +:+
                         " not loaded. Call load_model_for_inference first."))
  | Some m =>
      match model_metadata w !! id with
      | None => raise (KeyError id)
      | Some metadata =>
          '(out, probs) <- run_model m metadata input ;;
          let pred := if has_tolist out then tolist out else out in
          t <- now env ;;
          probs' <-
            (if decide (model_type metadata = "sklearn") then
               match probs with
               | PyNone => ret None
               | _ => if has_tolist probs then ret (Some (tolist probs))
                      else raise (AttributeError "tolist")
               end
             else ret None) ;;
          ret {| prediction := pred;
                 result_model_id := id;
                 result_model_name := model_name metadata;
                 result_model_version := version metadata;
                 timestamp := isoformat t;
                 probabilities := probs' |}
      end
  end.

Fixpoint batch_predict (id : string) (inputs : list pyval)
    : M (list PredictionResult) :=
  match inputs with
  | [] => ret []
  | x :: rest =>
      r <- predict id x ;;
      rs <- batch_predict id rest ;;
      ret (r :: rs)
  end.

Definition unload_model (id : string) : M unit :=
  w <- get ;;
  match loaded_models w !! id with
  | None => ret tt
  | Some _ =>
      modify (fun w => set_caches (delete id (loaded_models w)) (model_metadata w) w) ;;
      w <- get ;;
      match model_metadata w !! id with
      | None => raise (KeyError id)
      | Some _ =>
          modify (fun w =>
            set_caches (loaded_models w) (delete id (model_metadata w)) w)
      end
  end.

(** The identifiers in the cache; the list has them in the order of the map,
    not in the order in which they were loaded. *)
Definition get_loaded_models (w : world) : list string :=
  map fst (map_to_list (loaded_models w)).

Definition clear_cache : M unit :=
  modify (fun w => set_caches ∅ (model_metadata w) w) ;;
  modify (fun w => set_caches (loaded_models w) ∅ w).
End Pipeline.

(** ** Response shaping of [perform_inference] *)

(** [a.size] *)
Fixpoint nd_size (a : ndarray) : nat :=
  match a with
  | Item _ => 1
  | Axis l => list_sum (map nd_size l)
  end.

(** [a.item()] of an array with a single element *)
Fixpoint nd_item (a : ndarray) : option scalar :=
  match a with
  | Item x => Some x
  | Axis l =>
      (fix first (l : list ndarray) : option scalar :=
         match l with
         | [] => None
         | b :: l' =>
             match nd_item b with
             | Some x => Some x
             | None => first l'
             end
         end) l
  end.

(** The value bound to [prediction_result]: the first component of a pair,
    the whole output otherwise. *)
Definition prediction_result (prediction_output : pyval) : pyval :=
  match prediction_output with
  | PyTuple [p; _] => p
  | _ => prediction_output
  end.

(** The value bound to [final_prediction_list]. *)
Definition final_prediction_list (prediction_output : pyval) : result pyval :=
  match prediction_result prediction_output with
  | NdArray a =>
      if (nd_size a =? 1)%nat
      then match nd_item a with
           | Some x => Ok (PyList [Scalar x])
           | None => Raise (ValueError "can only convert an array of size 1")
           end
      else Ok (ndarray_tolist a)
  | PyList l => Ok (PyList l)
  | v => Ok (PyList [v])
  end.

(** The dictionary returned by [predict], as the Python value that
    [perform_inference] receives. *)
Definition result_as_dict (r : PredictionResult) : pyval :=
  PyDict
    ([("prediction", prediction r);
      ("model_id", PyStr (result_model_id r));
      ("model_name", PyStr (result_model_name r));
      ("model_version", PyStr (result_model_version r));
      ("timestamp", PyStr (timestamp r))] ++
     match probabilities r with
     | Some p => [("probabilities", p)]
     | None => []
     end)%list.

(** ** Notions used by the statements *)

(** The operations of the inference cache, for runs of arbitrary length. *)
Inductive pipeline_op :=
| DoLoad (name : string) (id : option string)
| DoPredict (id : string) (input : pyval)
| DoUnload (id : string)
| DoClear.

(** One operation; its result or exception is dropped, its effect kept. *)
Definition run_op (env : environment) (o : pipeline_op) (w : world) : world :=
  match o with
  | DoLoad name id => snd (load_model_for_inference name id w)
  | DoPredict id input => snd (predict env id input w)
  | DoUnload id => snd (unload_model id w)
  | DoClear => snd (clear_cache w)
  end.

Definition run_ops (env : environment) (ops : list pipeline_op) (w : world)
    : world :=
  foldl (fun w o => run_op env o w) w ops.

(** The two caches are keyed by the same identifiers. *)
Definition co_indexed (w : world) : Prop :=
  dom (loaded_models w) = dom (model_metadata w).

(** Successive [predict] calls on one identifier, whatever each returns. *)
Fixpoint predict_each (env : environment) (id : string) (inputs : list pyval)
    (w : world) : list (result PredictionResult) * world :=
  match inputs with
  | [] => ([], w)
  | x :: rest =>
      let '(r, w1) := predict env id x w in
      let '(rs, w2) := predict_each env id rest w1 in
      (r :: rs, w2)
  end.

(** The same state with other contents of durable storage and another
    registry. *)
Definition with_storage (reg : registry_t) (fs : gmap path file)
    (ds : gset path) (w : world) : world :=
  set_registry reg (set_files fs (set_dirs ds w)).

(** [isinstance(v, list)] *)
Definition is_list (v : pyval) : bool :=
  match v with
  | PyList _ => true
  | _ => false
  end.

(** The attempts made by the loop of [cleanup_old_models]: for each
    candidate, in order, the state before, the outcome of [delete_model] and
    the state after. *)
Fixpoint deletions (env : environment) (ids : list string) (w : world)
    : list (string * world * result bool * world) :=
  match ids with
  | [] => []
  | id :: rest =>
      let '(r, w') := delete_model env id true w in
      (id, w, r, w') :: deletions env rest w'
  end.

Definition succeeded (a : string * world * result bool * world) : bool :=
  match a with
  | (_, _, Ok _, _) => true
  | (_, _, Raise _, _) => false
  end.

Definition attempt_id (a : string * world * result bool * world) : string :=
  fst (fst (fst a)).

(** Names are distinct, the identifiers under a name are distinct, and an
    identifier is registered under one name only. *)
Definition registry_wf (reg : registry_t) : Prop :=
  dict_wf reg /\
  (forall n ms, In (n, ms) reg -> dict_wf ms) /\
  (forall n1 ms1 n2 ms2 id,
     In (n1, ms1) reg -> In (n2, ms2) reg ->
     dict_mem id ms1 = true -> dict_mem id ms2 = true -> n1 = n2).

(** A checker for [registry_wf]. *)
Definition registry_wfb (reg : registry_t) : bool :=
  bool_decide (NoDup (dict_keys reg)) &&
  forallb (fun nm => bool_decide (NoDup (dict_keys (snd nm)))) reg &&
  forallb (fun a =>
    forallb (fun b =>
      forallb (fun id =>
        negb (dict_mem id (snd b)) || bool_decide (fst a = fst b))
        (dict_keys (snd a))) reg) reg.

(** A failed registry write is harmless when the registry in memory was put
    back to what it was, or agrees with the durable document. *)
Definition write_failure_handled (env : environment) (before after : world)
    : Prop :=
  registry after = registry before \/
  _load_registry env after = registry after.

(** Induction on arrays, with the hypothesis available for every sub-array. *)
Fixpoint ndarray_nested_ind (P : ndarray -> Prop)
    (HItem : forall x, P (Item x))
    (HAxis : forall l, Forall P l -> P (Axis l)) (a : ndarray) : P a :=
  match a with
  | Item x => HItem x
  | Axis l =>
      HAxis l
        ((fix go (l : list ndarray) : Forall P l :=
            match l with
            | [] => List.Forall_nil P
            | b :: l' =>
                List.Forall_cons P b l' (ndarray_nested_ind P HItem HAxis b) (go l')
            end) l)
  end.

(** [x] may stand before [y] in a list sorted by decreasing training date. *)
Definition not_older (x y : string * entry) : Prop :=
  String.leb (entry_training_date (snd y)) (entry_training_date (snd x)) = true.

(** The two caches of the pipeline. *)
Definition caches (w : world) := (loaded_models w, model_metadata w).

(** [m] leaves the projection [proj] of the state as it is, whether it
    returns or raises. *)
Definition preserves {A B} (proj : world -> B) (m : M A) : Prop :=
  forall w, proj (snd (m w)) = proj w.

(** [m] never ends with the exception [e]. *)
Definition never_raises {A} (e : exn) (m : M A) : Prop :=
  forall w, fst (m w) <> Raise e.

(** [m] ends with an exception from every state. *)
Definition always_raises {A} (m : M A) : Prop :=
  forall w, exists e, fst (m w) = Raise e.

(** ** Information about one model *)

(** The dictionary returned by [get_model_info]; ['metadata'] is the metadata
    document as [json.load] gives it, or the empty dictionary, here [None],
    when there is no such document. *)
Record ModelInfo := {
  info_model_id : string;
  info_model_name : string;
  info_registry_info : entry;
  info_metadata : option file;
}.

(** [json.load] of a document, without rebuilding a [ModelMetadata]: every
    JSON document is accepted, an artifact is not JSON. *)
Definition read_json (p : path) : M file :=
  f <- read_file p ;;
  match f with
  | Artifact _ _ => raise (JSONDecodeError p)
  | _ => ret f
  end.

Definition get_model_info (id : string) : M ModelInfo :=
  w <- get ;;
  match find_model id (registry w) with
  | None => not_found id
  | Some (name, model_info) =>
      let metadata_path := entry_metadata_path model_info in
      ex <- path_exists metadata_path ;;
      metadata <-
        (if ex then doc <- read_json metadata_path ;; ret (Some doc)
         else ret None) ;;
      ret {| info_model_id := id;
             info_model_name := name;
             info_registry_info := model_info;
             info_metadata := metadata |}
  end.

(** ** Module-level convenience functions *)

(** [ModelPersistenceManager(base_path)]: the backup path keeps its
    default. *)
Definition manager_at (env : environment) (base : path) : environment :=
  {| base_path := base;
     backup_path := ["models"; "backups"];
     clock := clock env;
     io_fails := io_fails env;
     framework_versions := framework_versions env;
     md5_hexdigest := md5_hexdigest env;
     py_str := py_str env;
     tobytes_str := tobytes_str env;
     st_size := st_size env;
     cuda_is_available := cuda_is_available env;
     as_float32 := as_float32 env |}.

(** A manager made for one call: its registry is read from storage when it
    is made and is gone when the call returns, so that the registry of a
    manager that existed before is as it was. *)
Definition with_manager {A} (env : environment) (m : M A) : M A :=
  fun w =>
    let '(r, w') := bind (init_manager env) (fun _ => m) w in
    (r, set_registry (registry w) w').

Module Convenience.
Definition save_model (env : environment) (m : model) (name ver : string)
    (metrics : dict scalar) (base : path) (training_data : pyval)
    (params : option (dict json)) (type_hint : option string) : M string :=
  with_manager (manager_at env base)
    (save_model (manager_at env base) m name ver metrics training_data
       params type_hint).

(** [if model_id:] is false for [None] and for the empty string. *)
Definition load_model (env : environment) (name : string)
    (id : option string) (base : path) : M (model * ModelMetadata) :=
  with_manager (manager_at env base)
    (match id with
     | Some (String _ _ as i) => load_model i
     | _ => load_latest_model name
     end).
End Convenience.

(** ** The inference endpoint of [main.py] *)

(** [MODEL_FEATURE_CONFIGS] of [models/model_feature_configs.py] *)
Definition MODEL_FEATURE_CONFIGS : dict (list string) :=
  let state_features :=
    ["eeg_alpha"; "eeg_beta"; "eeg_gamma"; "eeg_theta"; "eeg_delta";
     "heart_rate"; "gsr"; "skin_temp"; "activity_level"; "sleep_quality";
     "hour_of_day"; "day_of_week"] in
  let user_features :=
    ["user_id"; "age"; "gender"; "heart_rate"; "gsr"; "skin_temp";
     "eeg_alpha"; "eeg_beta"; "eeg_gamma"; "time_of_day"; "activity_type"] in
  [("emotional_state_classifier", state_features);
   ("stress_level_classifier", state_features);
   ("mood_score_regressor", state_features);
   ("user_normal_range_predictor", user_features);
   ("user_anomaly_detector", user_features);
   ("personalized_baseline_predictor", user_features);
   ("multi-task_user_baseline_neural_network", user_features)].

(** Character classes of the two patterns; feature names are ASCII. *)
Definition is_upper (c : ascii) : bool :=
  (65 <=? nat_of_ascii c)%nat && (nat_of_ascii c <=? 90)%nat.

Definition is_lower (c : ascii) : bool :=
  (97 <=? nat_of_ascii c)%nat && (nat_of_ascii c <=? 122)%nat.

Definition is_digit (c : ascii) : bool :=
  (48 <=? nat_of_ascii c)%nat && (nat_of_ascii c <=? 57)%nat.

Definition to_lower (c : ascii) : ascii :=
  if is_upper c then ascii_of_nat (nat_of_ascii c + 32) else c.

(** [s.lower()] of a string of ASCII characters: the letters [A] to [Z] are
    the only ones it changes.  The capitals beyond ASCII, which Python
    lowers too, are left as they are. *)
Fixpoint str_lower (s : string) : string :=
  match s with
  | EmptyString => EmptyString
  | String c s' => String (to_lower c) (str_lower s')
  end.

(** [re.sub('(.)([A-Z][a-z]+)', r'\1_\2', s)]: matches are looked for from
    left to right and do not overlap; [in_run] tells that the scan is inside
    the greedy [[a-z]+] of the match found last.  The dot matches every
    character but the newline. *)
Fixpoint sub_capitalised (in_run : bool) (s : string) : string :=
  match s with
  | EmptyString => EmptyString
  | String c0 rest =>
      if in_run && is_lower c0 then String c0 (sub_capitalised true rest)
      else
        match rest with
        | String c1 (String c2 rest2) =>
            if negb (Ascii.eqb c0 "010"%char) && is_upper c1 && is_lower c2
            then String c0 (String "_" (String c1 (String c2
                   (sub_capitalised true rest2))))
            else String c0 (sub_capitalised false rest)
        | _ => String c0 (sub_capitalised false rest)
        end
  end.

(** [re.sub('([a-z0-9])([A-Z])', r'\1_\2', s)] *)
Fixpoint sub_hump (s : string) : string :=
  match s with
  | EmptyString => EmptyString
  | String c0 rest =>
      match rest with
      | String c1 rest1 =>
          if (is_lower c0 || is_digit c0) && is_upper c1
          then String c0 (String "_" (String c1 (sub_hump rest1)))
          else String c0 (sub_hump rest)
      | EmptyString => String c0 EmptyString
      end
  end.

Definition camel_to_snake_case (name : string) : string :=
  str_lower (sub_hump (sub_capitalised false name)).

(** What a request handler ends with: a response, or the [HTTPException] it
    raises. *)
Inductive http_result (A : Type) :=
| Respond (a : A)
| HTTPException (status_code : nat) (detail : string).
Arguments Respond {A} a.
Arguments HTTPException {A} status_code detail.

(** What the endpoint takes from the Python runtime and from numpy. *)
Record runtime := {
  float_of_str : string -> option scalar;  (* float(s); [None]: ValueError *)
  np_row : list json -> ndarray;     (* np.array(values).reshape(1, -1) *)
  str_of_json : json -> string;      (* str(val) *)
  str_of_exn : exn -> string;        (* str(e) *)
  float_of : pyval -> result pyval;  (* float(x) *)
  utc : datetime -> datetime;        (* the clock reading, in UTC *)
}.

(** [repr] of a list of strings that hold no quote, backslash or control
    character, as the configured feature names do. *)
Fixpoint join_repr (l : list string) : string :=
  match l with
  | [] => ""
  | [s] => "'" +:+ s +:+ "'"
  | s :: l' => "'" +:+ s +:+ "', " +:+ join_repr l'
  end.

Definition repr_list (l : list string) : string := "[" +:+ join_repr l +:+ "]".

(** [type(val).__name__] *)
Definition type_name (val : json) : string :=
  match val with
  | JNull => "NoneType"
  | JBool _ => "bool"
  | JNum (PyInt _) => "int"
  | JNum (PyFloat _) => "float"
  | JStr _ => "str"
  | JList _ => "list"
  | JObject _ => "dict"
  end.

(** [{camel_to_snake_case(k): v for k, v in raw_features_dict.items()}] *)
Definition processed_features (raw : dict json) : dict json :=
  foldl (fun d kv => dict_set (camel_to_snake_case (fst kv)) (snd kv) d) [] raw.

Section Endpoint.
Variable env : environment.
Variable rt : runtime.

(** The value appended for one feature: a number, and a truth value since
    [bool] is a subclass of [int], as it is; a string through [float]. *)
Definition feature_value (model_name feature : string) (val : json)
    : http_result json :=
  match val with
  | JNum _ | JBool _ => Respond val
  | JStr s =>
      match float_of_str rt s with
      | Some x => Respond (JNum x)
      | None =>
          HTTPException 400
            ("Feature '" +:+ feature +:+ "' has non-numerical string value '" +:+
             s +:+ "'. All expected features must be numerical for model '" +:+
             model_name +:+ "'.")
      end
  | _ =>
      HTTPException 400
        ("Unsupported type for feature '" +:+ feature +:+ "' with value '" +:+
         str_of_json rt val +:+ "' (type: " +:+ type_name val +:+
         "). Expected features for model '" +:+ model_name +:+
         "' must be numerical (int/float/numerical string).")
  end.

(** The loop of [_prepare_input_vector] over the expected feature names;
    [expected] is the whole list, for the message. *)
Fixpoint input_vector_values (model_name : string) (expected : list string)
    (processed : dict json) (todo : list string) : http_result (list json) :=
  match todo with
  | [] => Respond []
  | feature :: rest =>
      match dict_get feature processed with
      | None =>
          HTTPException 400
            ("Missing required feature '" +:+ feature +:+ "' for model '" +:+
             model_name +:+ "'. Expected features for this model: " +:+
             repr_list expected)
      | Some val =>
          match feature_value model_name feature val with
          | HTTPException status detail => HTTPException status detail
          | Respond v =>
              match input_vector_values model_name expected processed rest with
              | HTTPException status detail => HTTPException status detail
              | Respond values => Respond (v :: values)
              end
          end
      end
  end.

Definition _prepare_input_vector (model_name : string) (raw : dict json)
    : http_result ndarray :=
  match dict_get model_name MODEL_FEATURE_CONFIGS with
  | None | Some [] =>
      HTTPException 500
        ("Server configuration error: No feature configuration found for model '" +:+
         model_name +:+ "'. Please check models/model_feature_configs.py.")
  | Some expected =>
      match input_vector_values model_name expected
              (processed_features raw) expected with
      | HTTPException status detail => HTTPException status detail
      | Respond values => Respond (np_row rt values)
      end
  end.

(** [a.ndim] *)
Fixpoint nd_ndim (a : ndarray) : nat :=
  match a with
  | Item _ => 0
  | Axis [] => 1
  | Axis (b :: _) => S (nd_ndim b)
  end.

(** The value bound to [probabilities_result]. *)
Definition probabilities_result (prediction_output : pyval) : result pyval :=
  match prediction_output with
  | PyTuple [_; raw_probabilities] =>
      match raw_probabilities with
      | NdArray a =>
          if (nd_ndim a =? 1)%nat then Ok (PyList [ndarray_tolist a])
          else Ok (ndarray_tolist a)
      | PyList [] => Ok raw_probabilities
      | PyList (first :: _) =>
          if is_list first then Ok raw_probabilities
          else Ok (PyList [raw_probabilities])
      | _ =>
          match float_of rt raw_probabilities with
          | Ok x => Ok (PyList [PyList [x]])
          | Raise e => Raise e
          end
      end
  | _ => Ok PyNone
  end.

(** The response body; its ["error"] field is always [None]. *)
Record response := {
  modelId : string;
  modelName : string;
  response_prediction : pyval;
  response_probabilities : pyval;
  response_timestamp : string;
}.

(** The [except] clauses of [perform_inference], in their order: a
    [JSONDecodeError] is a [ValueError]; [FileNotFoundError] alone among the
    storage errors has a clause of its own. *)
Definition http_of_exn {A} (model_name : string) (e : exn) : http_result A :=
  match e with
  | ValueError msg => HTTPException 400 ("Invalid input: " +:+ msg)
  | JSONDecodeError _ => HTTPException 400 ("Invalid input: " +:+ str_of_exn rt e)
  | FileNotFoundError _ _ =>
      HTTPException 404
        ("Model file for '" +:+ model_name +:+
         "' not found or could not be loaded.")
  | _ =>
      HTTPException 500
        ("Internal ML service error during inference for model " +:+
         model_name +:+ ": " +:+ str_of_exn rt e)
  end.

Definition perform_inference (request_body : dict json) (model_name : string)
    (w : world) : http_result response * world :=
  match _prepare_input_vector model_name request_body with
  | HTTPException status detail => (HTTPException status detail, w)
  | Respond input_data_array =>
      match
        (model_id <- load_model_for_inference model_name None ;;
         out <- predict env model_id (NdArray input_data_array) ;;
         let prediction_output := result_as_dict out in
         probabilities_result <- lift (probabilities_result prediction_output) ;;
         final_prediction_list <- lift (final_prediction_list prediction_output) ;;
         t <- now env ;;
         ret {| modelId := model_id;
                modelName := model_name;
                response_prediction := final_prediction_list;
                response_probabilities := probabilities_result;
                response_timestamp := isoformat (utc rt t) +:+ "+00:00" |}) w
      with
      | (Ok r, w') => (Respond r, w')
      | (Raise e, w') => (http_of_exn model_name e, w')
      end
  end.
End Endpoint.

(** A name without capital letters. *)
Fixpoint lowercase_only (s : string) : bool :=
  match s with
  | EmptyString => true
  | String c s' => negb (is_upper c) && lowercase_only s'
  end.

(** A string of ASCII characters. *)
Fixpoint ascii_only (s : string) : bool :=
  match s with
  | EmptyString => true
  | String c s' => (nat_of_ascii c <? 128)%nat && ascii_only s'
  end.

(** The fields of a [datetime] are in the ranges Python gives them. *)
Definition valid_datetime (t : datetime) : Prop :=
  1 <= year t < 10 ^ 4 /\ 1 <= month t <= 12 /\ 1 <= day t <= 31 /\
  hour t < 24 /\ minute t < 60 /\ second t < 60 /\ microsecond t < 10 ^ 6.

(** Lexicographic combination of two comparisons. *)
Definition lex (c d : comparison) : comparison :=
  match c with
  | Eq => d
  | _ => c
  end.

(** The order of two datetimes in time, down to the second. *)
Definition compare_seconds (t1 t2 : datetime) : comparison :=
  lex (Nat.compare (year t1) (year t2))
    (lex (Nat.compare (month t1) (month t2))
       (lex (Nat.compare (day t1) (day t2))
          (lex (Nat.compare (hour t1) (hour t2))
             (lex (Nat.compare (minute t1) (minute t2)) (Nat.compare (second t1) (second t2)))))).

(** The order of two datetimes in time. *)
Definition compare_datetime (t1 t2 : datetime) : comparison :=
  lex (compare_seconds t1 t2) (Nat.compare (microsecond t1) (microsecond t2)).

(** The decimal digits of [n], most significant first, on [width] places. *)
Definition digit (k : nat) (d : Decimal.uint) : Decimal.uint :=
  match k with
  | 0 => Decimal.D0 d | 1 => Decimal.D1 d | 2 => Decimal.D2 d
  | 3 => Decimal.D3 d | 4 => Decimal.D4 d | 5 => Decimal.D5 d
  | 6 => Decimal.D6 d | 7 => Decimal.D7 d | 8 => Decimal.D8 d
  | _ => Decimal.D9 d
  end.

Fixpoint fixed_width (width n : nat) : Decimal.uint :=
  match width with
  | O => Decimal.Nil
  | S w => digit (n / 10 ^ w) (fixed_width w (n mod 10 ^ w))
  end.

(** The metadata that [restore_model] writes: the one of the backup with a
    new identifier and a new artifact path. *)
Definition restored_metadata (md : ModelMetadata) (new_id : string)
    (new_file_path : path) : ModelMetadata :=
  {| model_id := new_id;
     model_name := model_name md;
     model_type := model_type md;
     version := version md;
     training_date := training_date md;
     performance_metrics := performance_metrics md;
     parameters := parameters md;
     data_hash := data_hash md;
     file_path := new_file_path;
     file_size := file_size md;
     gpu_compatible := gpu_compatible md;
     framework_version := framework_version md;
     python_version := python_version md;
     dependencies := dependencies md |}.

(** The entry of a model that is stored the way [save_model] and
    [restore_model] store it: artifact and metadata document in the
    directory of the identifier, named after the identifier. *)
Definition stored_as (env : environment) (id ext : string) (info : entry)
    : Prop :=
  entry_file_path info =
    path_join (path_join (base_path env) id) (id +:+ ext) /\
  entry_metadata_path info =
    path_join (path_join (base_path env) id) (id +:+ "_metadata.json") /\
  (ext = ".pkl" \/ ext = ".pth").

(** The suffix of the artifact that [save_model] writes for a model type. *)
Definition saved_suffix (mtype : string) : string :=
  if decide (mtype = "pytorch") then ".pth" else ".pkl".

(** ** Concrete states used by examples *)

Module Example.
(** 1 March 2024, 12:00 and [n] seconds. *)
Definition at_second (n : nat) : datetime :=
  {| year := 2024; month := 3; day := 1;
     hour := 12; minute := 0; second := n; microsecond := 0 |}.

Definition make_env (clock : nat -> datetime) (io_fails : fsop -> bool)
    : environment :=
  {| base_path := ["models"];
     backup_path := ["models"; "backups"];
     clock := clock;
     io_fails := io_fails;
     framework_versions := [("sklearn", "1.4.2"); ("python", "3.11.8")];
     md5_hexdigest := fun s => s;
     py_str := fun _ => "data";
     tobytes_str := fun _ => "bytes";
     st_size := fun _ => 1024%Z;
     cuda_is_available := false;
     as_float32 := fun a => a |}.

(** Every clock reading falls in the same second; no storage call fails. *)
Definition env : environment := make_env (fun _ => at_second 5) (fun _ => false).

(** One second passes between two clock readings. *)
Definition ticking_env : environment := make_env at_second (fun _ => false).

(** The registry document cannot be written. *)
Definition failing_env : environment :=
  make_env (fun _ => at_second 5)
    (fun op =>
       match op with
       | OpWrite p => bool_decide (p = ["models"; "model_registry.json"])
       | _ => false
       end).

(** The artifact of the second version of [m] cannot be removed. *)
Definition flaky_env : environment :=
  make_env at_second
    (fun op =>
       match op with
       | OpUnlink p =>
           bool_decide
             (p = ["models"; "m_v2_20240301_120002"; "m_v2_20240301_120002.pkl"])
       | _ => false
       end).

(** A scikit-learn classifier that answers with an array of one label. *)
Definition classifier : model :=
  {| has_state_dict := false; is_BaseEstimator := true; has_save := false;
     parameters_is_cuda := None; has_eval := false; call := None;
     predict_attr := Some (fun _ => Ok (NdArray (Axis [Item (PyInt 2)])));
     predict_proba := None |}.

(** A custom model whose [predict] answers with a bare number. *)
Definition scorer : model :=
  {| has_state_dict := false; is_BaseEstimator := false; has_save := false;
     parameters_is_cuda := None; has_eval := false; call := None;
     predict_attr := Some (fun _ => Ok (Scalar (PyInt 7)));
     predict_proba := None |}.

Definition empty_world : world :=
  {| registry := []; files := ∅; dirs := ∅; ticks := 0;
     loaded_models := ∅; model_metadata := ∅ |}.

Definition after {A} (m : M A) (w : world) : world := snd (m w).

(** A freshly initialised manager and pipeline. *)
Definition fresh (e : environment) : world :=
  after init_pipeline (after (init_manager e) empty_world).

(** The classifier saved once. *)
Definition save_classifier : M string :=
  save_model env classifier "m" "1" [("accuracy", PyFloat 1)] PyNone None None.

Definition saved : world := after save_classifier (fresh env).

(** The saved classifier prepared for inference. *)
Definition prepared : world :=
  after (load_model_for_inference "m" None) saved.

(** Two inputs for the classifier. *)
Definition inputs : list pyval := [NdArray (Axis [Item (PyInt 1)]); PyNone].

(** The scorer saved and prepared for inference. *)
Definition scorer_loaded : world :=
  after (load_model_for_inference "score" None)
    (after (save_model env scorer "score" "1" [] PyNone None None) (fresh env)).

(** The classifier saved, deleted with a backup and restored from it. *)
Definition restored : world :=
  after (restore_model env
           ["models"; "backups"; "m_v1_20240301_120005_20240301_120005"])
    (after (delete_model env "m_v1_20240301_120005" true) saved).

Fixpoint save_versions (n : nat) : M unit :=
  match n with
  | O => ret tt
  | S k =>
      save_versions k ;;
      save_model ticking_env classifier "m" (decimal (S k)) [] PyNone None None ;;
      ret tt
  end.

(** Seven versions of the classifier, saved two seconds apart. *)
Definition seven_versions : world :=
  after (save_versions 7) (fresh ticking_env).


(** The result of asking the prepared scorer for a prediction. *)
Definition score : PredictionResult :=
  {| prediction := Scalar (PyInt 7);
     result_model_id := "score_v1_20240301_120005";
     result_model_name := "score";
     result_model_version := "1";
     timestamp := "2024-03-01T12:00:05";
     probabilities := None |}.

(** The entry of the saved classifier, and the entries of [m]. *)
Definition saved_entry : entry :=
  {| entry_version := "1";
     entry_training_date := "2024-03-01T12:00:05";
     entry_performance_metrics := [("accuracy", PyFloat 1)];
     entry_file_path :=
       ["models"; "m_v1_20240301_120005"; "m_v1_20240301_120005.pkl"];
     entry_metadata_path :=
       ["models"; "m_v1_20240301_120005"; "m_v1_20240301_120005_metadata.json"];
     entry_active := Some true |}.

Definition saved_models : dict entry :=
  [("m_v1_20240301_120005", saved_entry)].

(** The metadata document written for the saved classifier. *)
Definition saved_metadata : ModelMetadata :=
  {| model_id := "m_v1_20240301_120005"; model_name := "m";
     model_type := "sklearn"; version := "1";
     training_date := "2024-03-01T12:00:05";
     performance_metrics := [("accuracy", PyFloat 1)];
     parameters := []; data_hash := "";
     file_path := ["models"; "m_v1_20240301_120005"; "m_v1_20240301_120005.pkl"];
     file_size := 1024; gpu_compatible := false;
     framework_version := "1.4.2"; python_version := "3.11.8";
     dependencies := [("sklearn", "1.4.2"); ("python", "3.11.8")] |}.

Definition deactivate (e : entry) : entry :=
  {| entry_version := entry_version e;
     entry_training_date := entry_training_date e;
     entry_performance_metrics := entry_performance_metrics e;
     entry_file_path := entry_file_path e;
     entry_metadata_path := entry_metadata_path e;
     entry_active := Some false |}.

(** The saved classifier with its only entry marked inactive. *)
Definition all_inactive : world :=
  set_registry [("m", [("m_v1_20240301_120005", deactivate saved_entry)])] saved.

(** The saved classifier after its files were removed behind the back of the
    manager. *)
Definition files_lost : world := set_files ∅ saved.

(** The entries of [m] once the seven versions are saved. *)
Definition seven_models : dict entry :=
  default [] (dict_get "m" (registry seven_versions)).

End Example.

Module StandaloneExample.

End StandaloneExample.

Module EndpointExample.
(** A runtime whose [float] accepts no string and whose arrays hold the
    numbers as they were given. *)
Definition rt : runtime :=
  {| float_of_str := fun _ => None;
     np_row := fun values =>
       Axis [Axis (map (fun v => Item (match v with
                                       | JNum x => x
                                       | JBool true => PyInt 1
                                       | _ => PyInt 0
                                       end)) values)];
     str_of_json := fun _ => "?";
     str_of_exn := fun _ => "?";
     float_of := fun v => Ok v;
     utc := fun t => t |}.

(** The classifier saved under a configured model name. *)
Definition serving : world :=
  Example.after
    (save_model Example.env Example.classifier "stress_level_classifier" "1"
       [] PyNone None None)
    (Example.fresh Example.env).

(** A request body as the Java client sends it, and one that lacks the
    heart rate. *)
Definition body : dict json :=
  [("eegAlpha", JNum (PyInt 1)); ("eegBeta", JNum (PyInt 2));
   ("eegGamma", JNum (PyInt 3)); ("eegTheta", JNum (PyInt 4));
   ("eegDelta", JNum (PyInt 5)); ("heartRate", JNum (PyInt 60));
   ("gsr", JNum (PyInt 7)); ("skinTemp", JNum (PyInt 33));
   ("activityLevel", JBool true); ("sleepQuality", JNum (PyInt 10));
   ("hourOfDay", JNum (PyInt 11)); ("dayOfWeek", JNum (PyInt 12))].

(** The input vector made from [body]. *)
Definition vector : ndarray :=
  Axis [Axis (map (fun z => Item (PyInt z))
                [1; 2; 3; 4; 5; 60; 7; 33; 1; 10; 11; 12]%Z)].

Definition incomplete_body : dict json :=
  List.filter (fun kv => negb (String.eqb (fst kv) "heartRate")) body.

(** The metadata document of the classifier that is served, and what
    [predict] answers for [vector]. *)
Definition metadata : ModelMetadata :=
  {| model_id := "stress_level_classifier_v1_20240301_120005";
     model_name := "stress_level_classifier";
     model_type := "sklearn"; version := "1";
     training_date := "2024-03-01T12:00:05";
     performance_metrics := [];
     parameters := []; data_hash := "";
     file_path :=
       ["models"; "stress_level_classifier_v1_20240301_120005";
        "stress_level_classifier_v1_20240301_120005.pkl"];
     file_size := 1024; gpu_compatible := false;
     framework_version := "1.4.2"; python_version := "3.11.8";
     dependencies := [("sklearn", "1.4.2"); ("python", "3.11.8")] |}.

Definition prediction : PredictionResult :=
  {| prediction := PyList [Scalar (PyInt 2)];
     result_model_id := "stress_level_classifier_v1_20240301_120005";
     result_model_name := "stress_level_classifier";
     result_model_version := "1";
     timestamp := "2024-03-01T12:00:05";
     probabilities := None |}.

(** The response to [body]. *)
Definition answer : response :=
  {| modelId := "stress_level_classifier_v1_20240301_120005";
     modelName := "stress_level_classifier";
     response_prediction := PyList [result_as_dict prediction];
     response_probabilities := PyNone;
     response_timestamp := "2024-03-01T12:00:05+00:00" |}.
End EndpointExample.

Module ScorerEndpointExample.
(** The scorer, whose prediction is a bare number, saved under a configured
    model name. *)
Definition serving : world :=
  Example.after
    (save_model Example.env Example.scorer "stress_level_classifier" "1"
       [] PyNone None None)
    (Example.fresh Example.env).

(** What [predict] answers for the served scorer, and the response to
    [EndpointExample.body]. *)
Definition prediction : PredictionResult :=
  {| prediction := Scalar (PyInt 7);
     result_model_id := "stress_level_classifier_v1_20240301_120005";
     result_model_name := "stress_level_classifier";
     result_model_version := "1";
     timestamp := "2024-03-01T12:00:05";
     probabilities := None |}.

Definition answer : response :=
  {| modelId := "stress_level_classifier_v1_20240301_120005";
     modelName := "stress_level_classifier";
     response_prediction := PyList [result_as_dict prediction];
     response_probabilities := PyNone;
     response_timestamp := "2024-03-01T12:00:05+00:00" |}.
End ScorerEndpointExample.

Module BackupExample.
(** The saved classifier deleted with a backup, and the backup made. *)
Definition deleted : world :=
  Example.after (delete_model Example.env "m_v1_20240301_120005" true)
    Example.saved.

Definition backup : path :=
  ["models"; "backups"; "m_v1_20240301_120005_20240301_120005"].
End BackupExample.

(** * Properties *)

(** ** Reasoning about the monad *)

Ltac munfold :=
  unfold bind, get, ret, raise, modify, lift, try_except in *.

(** Splits on every [match] met while a computation is unfolded. *)
Ltac mcases := repeat (case_match; simplify_eq/=).

Lemma bind_ok {A B} (m : M A) (k : A -> M B) w a w1 :
  m w = (Ok a, w1) -> bind m k w = k a w1.
Proof. unfold bind. by intros ->. Qed.

Lemma bind_raise {A B} (m : M A) (k : A -> M B) w e w1 :
  m w = (Raise e, w1) -> bind m k w = (Raise e, w1).
Proof. unfold bind. by intros ->. Qed.

Lemma bind_get {A} (k : world -> M A) w : bind get k w = k w w.
Proof. done. Qed.

Lemma run_eq {A} (m : M A) (w : world) (r : result A) :
  fst (m w) = r -> m w = (r, snd (m w)).
Proof. intros <-. by destruct (m w). Qed.

(** ** Dictionaries with distinct keys *)

Section DictFacts.
Context {V : Type}.
Implicit Types (d : dict V) (k : string) (v : V).

Lemma dict_get_set_eq k v d :
  dict_get k (dict_set k v d) = Some v.
Proof.
  induction d as [|[k' v'] d IH]; simpl.
  - by rewrite decide_True.
  - destruct (decide (k' = k)) as [->|Hne]; simpl.
    + by rewrite decide_True.
    + by rewrite decide_False.
Qed.

Lemma dict_get_In k v d : dict_get k d = Some v -> In (k, v) d.
Proof.
  induction d as [|[k' v'] d IH]; simpl; [done|].
  destruct (decide (k' = k)) as [->|Hne]; [intros [= ->]; by left|].
  intros H. right. by apply IH.
Qed.

Lemma dict_get_None k d : dict_get k d = None -> ~ In k (dict_keys d).
Proof.
  induction d as [|[k' v'] d IH]; simpl; [tauto|].
  destruct (decide (k' = k)) as [->|Hne]; [done|].
  intros H [Heq|Hin]; [done|]. by apply IH.
Qed.

Lemma In_dict_keys k v d : In (k, v) d -> In k (dict_keys d).
Proof. intros H. by apply (in_map fst) in H. Qed.

Lemma dict_get_of_In k v d :
  dict_wf d -> In (k, v) d -> dict_get k d = Some v.
Proof.
  unfold dict_wf. induction d as [|[k' v'] d IH]; simpl; [done|].
  intros [Hnotin Hnodup]%NoDup_cons [[= -> ->]|Hin].
  - by rewrite decide_True.
  - rewrite decide_False; [by apply IH|].
    intros ->. apply Hnotin. apply list_elem_of_In.
    by apply In_dict_keys in Hin.
Qed.

Lemma In_dict_del k k' v d :
  dict_wf d -> In (k', v) (dict_del k d) -> k' <> k /\ In (k', v) d.
Proof.
  unfold dict_wf. induction d as [|[k0 v0] d IH]; simpl; [done|].
  intros [Hnotin Hnodup]%NoDup_cons.
  destruct (decide (k0 = k)) as [->|Hne].
  - intros Hin. split; [|by right].
    intros ->. apply Hnotin. apply list_elem_of_In.
    by apply In_dict_keys in Hin.
  - intros [[= -> ->]|Hin]; [split; [done|by left]|].
    destruct (IH Hnodup Hin). split; [done|by right].
Qed.

Lemma In_dict_set k k' v v' d :
  dict_wf d -> In (k', v') (dict_set k v d) ->
  (k' = k /\ v' = v) \/ (k' <> k /\ In (k', v') d).
Proof.
  unfold dict_wf. induction d as [|[k0 v0] d IH]; simpl.
  - intros _ [[= -> ->]|[]]. by left.
  - intros [Hnotin Hnodup]%NoDup_cons.
    destruct (decide (k0 = k)) as [->|Hne].
    + intros [[= -> ->]|Hin]; [by left|]. right. split; [|by right].
      intros ->. apply Hnotin. apply list_elem_of_In.
      by apply In_dict_keys in Hin.
    + intros [[= -> ->]|Hin]; [right; split; [done|by left]|].
      destruct (IH Hnodup Hin) as [?|[? ?]]; [by left|].
      right. split; [done|by right].
Qed.

Lemma dict_keys_del_incl k d x :
  In x (dict_keys (dict_del k d)) -> In x (dict_keys d).
Proof.
  induction d as [|[k0 v0] d IH]; simpl; [done|].
  destruct (decide (k0 = k)); simpl; [by right|].
  intros [?|?]; [by left|right; by apply IH].
Qed.

Lemma dict_del_wf k d : dict_wf d -> dict_wf (dict_del k d).
Proof.
  unfold dict_wf. induction d as [|[k0 v0] d IH]; simpl; [done|].
  intros [Hnotin Hnodup]%NoDup_cons.
  destruct (decide (k0 = k)); [done|]. simpl.
  apply NoDup_cons. split; [|by apply IH].
  intros Hin%list_elem_of_In%dict_keys_del_incl. apply Hnotin.
  by apply list_elem_of_In.
Qed.

Lemma dict_keys_set_incl k v d x :
  In x (dict_keys (dict_set k v d)) -> x = k \/ In x (dict_keys d).
Proof.
  induction d as [|[k0 v0] d IH]; simpl; [intros [?|[]]; by left|].
  destruct (decide (k0 = k)) as [->|Hne]; simpl.
  - intros [?|?]; [by left|right; by right].
  - intros [?|Hin]; [right; by left|].
    destruct (IH Hin); [by left|right; by right].
Qed.

Lemma dict_set_wf k v d : dict_wf d -> dict_wf (dict_set k v d).
Proof.
  unfold dict_wf. induction d as [|[k0 v0] d IH]; simpl.
  - intros _. apply NoDup_cons. split; [|constructor]. by intros ?%elem_of_nil.
  - intros [Hnotin Hnodup]%NoDup_cons.
    destruct (decide (k0 = k)) as [->|Hne]; simpl.
    + by apply NoDup_cons.
    + apply NoDup_cons. split; [|by apply IH].
      intros [?|Hin]%list_elem_of_In%dict_keys_set_incl; [done|].
      apply Hnotin. by apply list_elem_of_In.
Qed.

Lemma dict_get_del_eq k d : dict_wf d -> dict_get k (dict_del k d) = None.
Proof.
  intros Hwf. destruct (dict_get k (dict_del k d)) as [v|] eqn:E; [|done].
  apply dict_get_In, In_dict_del in E as [Hne _]; done.
Qed.

Lemma dict_get_del_ne k k' d :
  k <> k' -> dict_get k' (dict_del k d) = dict_get k' d.
Proof.
  intros Hne. induction d as [|[k0 v0] d IH]; simpl; [done|].
  destruct (decide (k0 = k)) as [->|Hne0]; simpl.
  - by rewrite decide_False.
  - by rewrite IH.
Qed.

Lemma dict_mem_In k d : dict_mem k d = true <-> In k (dict_keys d).
Proof.
  unfold dict_mem. split.
  - destruct (dict_get k d) as [v|] eqn:E; [|done].
    intros _. by apply dict_get_In, In_dict_keys in E.
  - intros Hin. destruct (dict_get k d) eqn:E; [done|].
    by apply dict_get_None in E.
Qed.
End DictFacts.

(** ** Registries with distinct names and identifiers *)

Lemma find_model_Some id reg n info :
  find_model id reg = Some (n, info) ->
  exists ms, In (n, ms) reg /\ dict_get id ms = Some info.
Proof.
  induction reg as [|[n0 ms0] reg IH]; simpl; [done|].
  destruct (dict_get id ms0) as [i0|] eqn:E.
  - intros [= -> ->]. exists ms0. split; [by left|done].
  - intros H. destruct (IH H) as (ms & Hin & Hget). exists ms. split; [by right|done].
Qed.

Lemma find_model_None id reg :
  (forall n ms, In (n, ms) reg -> dict_get id ms = None) ->
  find_model id reg = None.
Proof.
  induction reg as [|[n0 ms0] reg IH]; simpl; [done|].
  intros H. rewrite (H n0 ms0) by (by left).
  apply IH. intros n ms Hin. apply (H n ms). by right.
Qed.

Lemma find_model_unique id reg n info name models :
  registry_wf reg ->
  find_model id reg = Some (n, info) ->
  dict_get name reg = Some models -> dict_mem id models = true ->
  n = name /\ dict_get id models = Some info.
Proof.
  intros (Hnames & Hinner & Huniq) Hfind Hget Hmem.
  apply find_model_Some in Hfind as (ms & Hin & Hinfo).
  apply dict_get_In in Hget.
  assert (n = name) as ->.
  { apply (Huniq n ms name models id); try done.
    unfold dict_mem. by rewrite Hinfo. }
  split; [done|].
  apply (dict_get_of_In _ _ _ Hnames) in Hin, Hget. by simplify_eq.
Qed.

Lemma find_model_is_Some id reg n ms info :
  In (n, ms) reg -> dict_get id ms = Some info ->
  exists n' info', find_model id reg = Some (n', info').
Proof.
  induction reg as [|[n0 ms0] reg IH]; simpl; [done|].
  intros [[= -> ->]|Hin] Hget.
  - rewrite Hget. eauto.
  - destruct (dict_get id ms0); eauto.
Qed.

(** In a well-formed registry the scan finds an entry where the two-level
    lookup does. *)
Lemma find_model_of_get id reg name models info :
  registry_wf reg ->
  dict_get name reg = Some models -> dict_get id models = Some info ->
  find_model id reg = Some (name, info).
Proof.
  intros Hwf Hget Hinfo.
  destruct (find_model_is_Some id reg name models info)
    as (n' & info' & Hfind); [by apply dict_get_In|done|].
  destruct (find_model_unique _ _ _ _ _ _ Hwf Hfind Hget) as [-> Hinfo'].
  { unfold dict_mem. by rewrite Hinfo. }
  by simplify_eq.
Qed.

Lemma dict_mem_del_incl {V} (k k' : string) (d : dict V) :
  dict_mem k' (dict_del k d) = true -> dict_mem k' d = true.
Proof. rewrite !dict_mem_In. apply dict_keys_del_incl. Qed.

Lemma In_registry_remove reg name id models n ms :
  registry_wf reg -> dict_get name reg = Some models ->
  In (n, ms) (registry_remove name id reg) ->
  (n <> name /\ In (n, ms) reg) \/ (n = name /\ ms = dict_del id models).
Proof.
  intros (Hnames & _ & _) Hget. unfold registry_remove. rewrite Hget. simpl.
  destruct (dict_del id models) as [|kv l] eqn:E.
  - intros Hin. left. by apply In_dict_del in Hin.
  - intros Hin. apply In_dict_set in Hin as [[-> ->]|[? ?]]; auto.
Qed.

Lemma registry_remove_absent reg name id :
  registry_wf reg -> dict_get name reg = None ->
  forall n ms, In (n, ms) (registry_remove name id reg) -> In (n, ms) reg.
Proof.
  intros (Hnames & _ & _) Hget n ms. unfold registry_remove. rewrite Hget. simpl.
  intros Hin. by apply In_dict_del in Hin as [_ ?].
Qed.

Lemma registry_remove_wf reg name id :
  registry_wf reg -> registry_wf (registry_remove name id reg).
Proof.
  intros Hwf. pose proof Hwf as (Hnames & Hinner & Huniq).
  assert (Hold : forall n ms,
    In (n, ms) (registry_remove name id reg) ->
    exists ms0, In (n, ms0) reg /\ dict_wf ms /\
                forall k, dict_mem k ms = true -> dict_mem k ms0 = true).
  { intros n ms Hin. destruct (dict_get name reg) as [models|] eqn:Hget.
    - destruct (In_registry_remove _ _ _ _ _ _ Hwf Hget Hin)
        as [[_ Hin']|[Hn Hms]].
      + exists ms. eauto.
      + subst n ms. apply dict_get_In in Hget. exists models. split; [done|].
        split; [apply dict_del_wf; eauto|]. intros k. apply dict_mem_del_incl.
    - pose proof (registry_remove_absent _ _ _ Hwf Hget _ _ Hin) as Hin'.
      exists ms. eauto. }
  split; [|split].
  - unfold registry_remove.
    destruct (dict_del id _); [by apply dict_del_wf|by apply dict_set_wf].
  - intros n ms Hin. by destruct (Hold n ms Hin) as (? & _ & ? & _).
  - intros n1 ms1 n2 ms2 k Hin1 Hin2 Hk1 Hk2.
    destruct (Hold n1 ms1 Hin1) as (ms1' & Hin1' & _ & Hsub1).
    destruct (Hold n2 ms2 Hin2) as (ms2' & Hin2' & _ & Hsub2).
    apply (Huniq n1 ms1' n2 ms2' k); auto.
Qed.

Lemma find_model_registry_remove reg name id info :
  registry_wf reg -> find_model id reg = Some (name, info) ->
  find_model id (registry_remove name id reg) = None.
Proof.
  intros Hwf Hfind. pose proof Hwf as (Hnames & Hinner & Huniq).
  pose proof Hfind as (models & Hin & Hinfo)%find_model_Some.
  pose proof (dict_get_of_In _ _ _ Hnames Hin) as Hget.
  apply find_model_None. intros n ms Hrem.
  destruct (In_registry_remove _ _ _ _ _ _ Hwf Hget Hrem)
    as [[Hne Hin']|[Hn Hms]]; [|subst n ms].
  - destruct (dict_get id ms) as [i|] eqn:E; [|done].
    exfalso. apply Hne. apply (Huniq n ms name models id); try done.
    + unfold dict_mem. by rewrite E.
    + unfold dict_mem. by rewrite Hinfo.
  - apply dict_get_del_eq. eauto.
Qed.


Lemma registry_wf_nil : registry_wf [].
Proof.
  split; [constructor|]. split; [by intros ? ? []|by intros ? ? ? ? ? []].
Qed.

(** Saving under an identifier that no other name holds keeps the registry
    well formed. *)
Lemma registry_add_wf name id info reg :
  registry_wf reg ->
  (forall n ms, In (n, ms) reg -> dict_mem id ms = true -> n = name) ->
  registry_wf (registry_add name id info reg).
Proof.
  intros (Hnames & Hinner & Huniq) Hfresh. unfold registry_add.
  set (models := default [] (dict_get name reg)).
  assert (dict_wf models) as Hmodels.
  { unfold models. destruct (dict_get name reg) as [ms|] eqn:E; simpl.
    - eapply Hinner. by apply dict_get_In.
    - constructor. }
  assert (forall k, dict_mem k (dict_set id info models) = true ->
                    forall n ms, In (n, ms) reg -> dict_mem k ms = true ->
                                 n = name) as Hnew.
  { intros k Hk n ms Hin Hmem.
    apply dict_mem_In, dict_keys_set_incl in Hk as [->|Hk]; [eauto|].
    unfold models in Hk. destruct (dict_get name reg) as [ms0|] eqn:E; [|done].
    apply dict_get_In in E. apply dict_mem_In in Hk. eauto. }
  split; [by apply dict_set_wf|]. split.
  - intros n ms [[-> ->]|[_ Hin]]%In_dict_set; [|eauto|done].
    by apply dict_set_wf.
  - intros n1 ms1 n2 ms2 k
      [[-> ->]|[Hne1 Hin1]]%In_dict_set [[-> ->]|[Hne2 Hin2]]%In_dict_set
      Hk1 Hk2; try done.
    + symmetry. eauto.
    + eauto.
    + eauto.
Qed.

Lemma registry_wfb_sound reg : registry_wfb reg = true -> registry_wf reg.
Proof.
  unfold registry_wfb. intros [[Hnames Hinner]%andb_prop Huniq]%andb_prop.
  split; [by apply bool_decide_eq_true in Hnames|]. split.
  - intros n ms Hin. rewrite forallb_forall in Hinner.
    by apply Hinner, bool_decide_eq_true in Hin.
  - intros n1 ms1 n2 ms2 id Hin1 Hin2 Hmem1 Hmem2.
    rewrite forallb_forall in Huniq. apply Huniq in Hin1.
    rewrite forallb_forall in Hin1. apply Hin1 in Hin2.
    rewrite forallb_forall in Hin2. apply dict_mem_In in Hmem1.
    apply Hin2 in Hmem1. simpl in Hmem1. rewrite Hmem2 in Hmem1.
    by apply bool_decide_eq_true in Hmem1.
Qed.

(** ** Reading never changes the state *)

Lemma load_model_world id w r w' : load_model id w = (r, w') -> w' = w.
Proof.
  unfold load_model, path_exists, read_metadata, read_artifact, read_file,
    not_found.
  munfold. intros H. mcases; done.
Qed.

Lemma load_latest_model_world name w r w' :
  load_latest_model name w = (r, w') -> w' = w.
Proof.
  unfold load_latest_model, not_found. munfold.
  intros H. mcases; eauto using load_model_world.
Qed.

(** ** The inference cache *)

Lemma run_model_world env m md x w r w' :
  run_model env m md x w = (r, w') -> w' = w.
Proof.
  unfold run_model, call_attr. munfold. intros H. mcases; done.
Qed.

Lemma load_model_for_inference_caches name oid w r w' :
  load_model_for_inference name oid w = (r, w') ->
  (w' = w /\ exists e, r = Raise e) \/
  (exists id m md,
     r = Ok id /\
     w' = set_caches (<[id := m]> (loaded_models w))
            (<[id := md]> (model_metadata w)) w).
Proof.
  unfold load_model_for_inference. munfold. intros H.
  destruct oid as [id|].
  - destruct (load_model id w) as [[[m md]|e] w1] eqn:E;
      apply load_model_world in E as ->; simplify_eq/=; eauto 10.
  - destruct (load_latest_model name w) as [[[m md]|e] w1] eqn:E;
      apply load_latest_model_world in E as ->; simplify_eq/=; eauto 10.
Qed.

Lemma predict_world env id x w r w' :
  predict env id x w = (r, w') ->
  w' = w \/ w' = set_ticks (S (ticks w)) w.
Proof.
  unfold predict, now. munfold. intros H.
  destruct (loaded_models w !! id); [|simplify_eq; auto].
  destruct (model_metadata w !! id); [|simplify_eq; auto].
  destruct (run_model env m m0 x w) as [[[out probs]|e] w1] eqn:E;
    apply run_model_world in E as ->; [|simplify_eq; auto].
  mcases; auto.
Qed.

Lemma unload_model_co_indexed id w :
  co_indexed w -> co_indexed (snd (unload_model id w)).
Proof.
  unfold co_indexed, unload_model. munfold. intros Hco.
  destruct (loaded_models w !! id) as [m|] eqn:Hm; [|done]. simpl.
  destruct (model_metadata w !! id) as [md|] eqn:Hmd; simpl.
  - by rewrite !dom_delete_L, Hco.
  - exfalso. apply (not_elem_of_dom (model_metadata w) id) in Hmd.
    apply Hmd. rewrite <- Hco. apply elem_of_dom. eauto.
Qed.

Lemma run_op_co_indexed env o w : co_indexed w -> co_indexed (run_op env o w).
Proof.
  intros Hco. destruct o as [name oid|id x|id|]; simpl.
  - destruct (load_model_for_inference name oid w) as [r w'] eqn:E.
    apply load_model_for_inference_caches in E
      as [[-> _]|(id & m & md & _ & ->)]; [done|].
    unfold co_indexed in *. simpl. by rewrite !dom_insert_L, Hco.
  - destruct (predict env id x w) as [r w'] eqn:E.
    by apply predict_world in E as [->| ->].
  - by apply unload_model_co_indexed.
  - unfold co_indexed. simpl. by rewrite !dom_empty_L.
Qed.

(** C9.  The two mappings of the inference cache are always co-indexed:
    starting from the empty cache set up by the constructor of the pipeline,
    after any sequence of [load_model_for_inference], [predict],
    [unload_model] and [clear_cache] operations the identifiers keying the
    model cache are those keying the metadata cache. *)
Theorem caches_co_indexed env (ops : list pipeline_op) (w : world) :
  co_indexed (run_ops env ops (snd (init_pipeline w))).
Proof.
  assert (Hinit : co_indexed (snd (init_pipeline w))) by done.
  revert Hinit. generalize (snd (init_pipeline w)). clear w.
  induction ops as [|o ops IH]; intros w Hco; [done|].
  simpl. apply IH. by apply run_op_co_indexed.
Qed.

(** ** [predict] and the cache *)

Lemma predict_with_storage env id x reg fs ds w :
  predict env id x (with_storage reg fs ds w) =
  (fst (predict env id x w), with_storage reg fs ds (snd (predict env id x w))).
Proof.
  unfold predict, now. munfold. simpl.
  destruct (loaded_models w !! id) as [m|]; [|done].
  destruct (model_metadata w !! id) as [md|]; [|done].
  assert (Hrun : forall w1, run_model env m md x w1 =
                            (fst (run_model env m md x w), w1)).
  { intros w1. unfold run_model, call_attr. munfold.
    mcases; try done; congruence. }
  rewrite (Hrun (with_storage reg fs ds w)), (Hrun w).
  destruct (fst (run_model env m md x w)) as [[out probs]|e]; [|done].
  simpl. mcases; done.
Qed.

Lemma predict_each_with_storage env id inputs reg fs ds w :
  predict_each env id inputs (with_storage reg fs ds w) =
  (fst (predict_each env id inputs w),
   with_storage reg fs ds (snd (predict_each env id inputs w))).
Proof.
  revert w. induction inputs as [|x rest IH]; intros w; [done|].
  simpl. rewrite predict_with_storage.
  destruct (predict env id x w) as [r w1]. simpl. rewrite IH.
  by destruct (predict_each env id rest w1).
Qed.

Lemma predict_each_world env id inputs w :
  let w' := snd (predict_each env id inputs w) in
  registry w' = registry w /\ files w' = files w /\ dirs w' = dirs w /\
  loaded_models w' = loaded_models w /\ model_metadata w' = model_metadata w.
Proof.
  revert w. induction inputs as [|x rest IH]; intros w; [done|].
  simpl. destruct (predict env id x w) as [r w1] eqn:E.
  specialize (IH w1). destruct (predict_each env id rest w1) as [rs w2].
  simpl in *. apply predict_world in E as [->| ->]; done.
Qed.

(** C8.  [predict] on an identifier that is not in the cache fails with the
    "not loaded" [ValueError] and changes nothing: no load is attempted.
    After [load_model_for_inference] has returned an identifier, the model
    and metadata are in the cache, and any number of [predict] calls on it
    leave the registry, durable storage and the cache as they are and give
    the same results whatever durable storage and the registry hold: the
    persistence manager is not consulted again. *)
Theorem predict_uses_cache_only env (id : string) (w : world) :
  (forall input,
     loaded_models w !! id = None ->
     predict env id input w =
     (Raise (ValueError ("Model " +:+ id +:+
                         " not loaded. Call load_model_for_inference first.")),
      w)) /\
  (forall name oid w1,
     load_model_for_inference name oid w = (Ok id, w1) ->
     is_Some (loaded_models w1 !! id) /\ is_Some (model_metadata w1 !! id) /\
     forall inputs,
       let w2 := snd (predict_each env id inputs w1) in
       (registry w2 = registry w1 /\ files w2 = files w1 /\ dirs w2 = dirs w1 /\
        loaded_models w2 = loaded_models w1 /\
        model_metadata w2 = model_metadata w1) /\
       forall reg fs ds,
         fst (predict_each env id inputs (with_storage reg fs ds w1)) =
         fst (predict_each env id inputs w1)).
Proof.
  split.
  - intros input Hnone. unfold predict. munfold. by rewrite Hnone.
  - intros name oid w1 Hload.
    apply load_model_for_inference_caches in Hload
      as [[-> [e ?]]|(id' & m & md & ? & ->)]; simplify_eq/=.
    split; [by rewrite lookup_insert_eq|].
    split; [by rewrite lookup_insert_eq|].
    intros inputs. split; [exact (predict_each_world env _ inputs _)|].
    intros reg fs ds. by rewrite predict_each_with_storage.
Qed.

Lemma predict_uses_cache_only_witness :
  predict Example.env "m_v1_20240301_120005" PyNone Example.saved =
    (Raise (ValueError
       "Model m_v1_20240301_120005 not loaded. Call load_model_for_inference first."),
     Example.saved) /\
  fst (predict_each Example.env "m_v1_20240301_120005" Example.inputs
         (with_storage [] ∅ ∅ Example.prepared)) =
  fst (predict_each Example.env "m_v1_20240301_120005" Example.inputs
         Example.prepared).
Proof.
  pose proof (predict_uses_cache_only Example.env "m_v1_20240301_120005"
                Example.saved) as [Hnot_loaded Hprepared].
  split.
  - apply Hnot_loaded. vm_compute. reflexivity.
  - refine (proj2 (proj2 (proj2 (Hprepared "m" None Example.prepared _))
                     Example.inputs) [] ∅ ∅).
    refine (run_eq (load_model_for_inference "m" None) Example.saved _ _).
    vm_compute. reflexivity.
Defined.

(** ** The prediction field *)

Lemma Forall_nd_item (l : list ndarray) :
  Forall (fun a => nd_size a <> 0 -> is_Some (nd_item a)) l ->
  list_sum (map nd_size l) <> 0 -> is_Some (nd_item (Axis l)).
Proof.
  induction 1 as [|a l Ha _ IH]; simpl; [done|].
  intros Hsum. destruct (decide (nd_size a = 0)) as [Hz|Hnz].
  - rewrite Hz in Hsum. destruct (nd_item a); [eauto|]. by apply IH.
  - destruct (Ha Hnz) as [x ->]. eauto.
Qed.

Lemma nd_item_is_Some (a : ndarray) : nd_size a <> 0 -> is_Some (nd_item a).
Proof.
  induction a as [x|l IH] using ndarray_nested_ind; [by eauto|].
  by apply Forall_nd_item.
Qed.

Lemma final_prediction_list_is_list (v : pyval) :
  exists out, final_prediction_list v = Ok out /\ is_list out = true.
Proof.
  unfold final_prediction_list.
  destruct (prediction_result v) as [| | | | | | |a| |]; simpl; eauto.
  destruct (nd_size a =? 1)%nat eqn:Hsize.
  - apply Nat.eqb_eq in Hsize.
    destruct (nd_item_is_Some a) as [x ->]; [lia|]. eauto.
  - destruct a as [x|l]; simpl in *; [done|eauto].
Qed.


(** ** Errors of [load_model] *)

Lemma load_model_not_found (id : string) (w : world) :
  find_model id (registry w) = None ->
  load_model id w =
  (Raise (ValueError ("Model " +:+ id +:+ " not found in registry")), w).
Proof.
  intros Hnone. unfold load_model, not_found. munfold. by rewrite Hnone.
Qed.

(** C7.  [load_model] fails with the "not found" [ValueError] when the
    identifier is in no entry of the registry, and with [FileNotFoundError]
    when the entry is there but its metadata path does not exist, or the
    metadata document is there and the artifact path does not exist; a
    successful load means that the registry entry, the metadata document and
    the artifact were all there. *)
Theorem load_model_errors (id : string) (w : world) :
  (find_model id (registry w) = None ->
   load_model id w =
   (Raise (ValueError ("Model " +:+ id +:+ " not found in registry")), w)) /\
  (forall name info,
     find_model id (registry w) = Some (name, info) ->
     (is_file w (entry_metadata_path info) || is_dir w (entry_metadata_path info)
        = false ->
      load_model id w =
      (Raise (FileNotFoundError "Metadata file not found"
                (entry_metadata_path info)), w)) /\
     (forall md,
        files w !! entry_metadata_path info = Some (MetadataDoc md) ->
        is_file w (entry_file_path info) || is_dir w (entry_file_path info)
          = false ->
        load_model id w =
        (Raise (FileNotFoundError "Model file not found"
                  (entry_file_path info)), w))) /\
  (forall m md w',
     load_model id w = (Ok (m, md), w') ->
     exists name info fmt,
       find_model id (registry w) = Some (name, info) /\
       files w !! entry_metadata_path info = Some (MetadataDoc md) /\
       files w !! entry_file_path info = Some (Artifact fmt m)).
Proof.
  split; [|split].
  - apply load_model_not_found.
  - intros name info Hfind. split.
    + intros Hex. unfold load_model, path_exists. munfold.
      by rewrite Hfind, Hex.
    + intros md Hmd Hex.
      assert (is_file w (entry_metadata_path info) = true) as Hfile
        by (unfold is_file; by rewrite Hmd).
      unfold load_model, path_exists, read_metadata, read_file. munfold.
      rewrite Hfind, Hfile. simpl. rewrite Hmd. simpl. by rewrite Hex.
  - intros m md w' H.
    unfold load_model, path_exists, read_metadata, read_artifact, read_file,
      not_found in H.
    munfold. mcases. eauto 10.
Qed.

Lemma load_model_errors_witness :
  load_model "unknown" Example.saved =
    (Raise (ValueError "Model unknown not found in registry"), Example.saved) /\
  load_model "m_v1_20240301_120005" Example.files_lost =
    (Raise (FileNotFoundError "Metadata file not found"
              ["models"; "m_v1_20240301_120005";
               "m_v1_20240301_120005_metadata.json"]), Example.files_lost) /\
  (exists name info fmt,
     find_model "m_v1_20240301_120005" (registry Example.saved)
       = Some (name, info) /\
     files Example.saved !! entry_metadata_path info
       = Some (MetadataDoc Example.saved_metadata) /\
     files Example.saved !! entry_file_path info
       = Some (Artifact fmt Example.classifier)).
Proof.
  split; [|split].
  - apply (load_model_errors "unknown" Example.saved). vm_compute. reflexivity.
  - apply (proj1 (proj2 (load_model_errors "m_v1_20240301_120005"
                           Example.files_lost)) "m" Example.saved_entry).
    + vm_compute. reflexivity.
    + vm_compute. reflexivity.
  - apply (proj2 (proj2 (load_model_errors "m_v1_20240301_120005"
                           Example.saved))
             Example.classifier Example.saved_metadata
             (snd (load_model "m_v1_20240301_120005" Example.saved))).
    refine (run_eq (load_model "m_v1_20240301_120005") Example.saved _ _).
    vm_compute. reflexivity.
Defined.

(** ** Order on training dates *)

Lemma ltb_leb (a b : string) : String.ltb a b = true -> String.leb a b = true.
Proof. unfold String.ltb, String.leb. by destruct (String.compare a b). Qed.

Lemma ltb_false_leb (a b : string) :
  String.ltb a b = false -> String.leb b a = true.
Proof.
  unfold String.ltb, String.leb. rewrite (String.compare_antisym a b).
  by destruct (String.compare b a).
Qed.

Lemma leb_refl (a : string) : String.leb a a = true.
Proof.
  destruct (String.leb_total a a) as [H|H]; exact H.
Qed.

Lemma leb_trans (a b c : string) :
  String.leb a b = true -> String.leb b c = true -> String.leb a c = true.
Proof.
  intros Hab Hbc. apply Is_true_true.
  apply (PreOrder_Transitive (R := String.le) a b c); by apply Is_true_true.
Qed.

(** ** The latest active entry *)

Lemma max_by_date_spec (l : dict entry) (best : string * entry) :
  In (max_by_date best l) (best :: l) /\
  Forall (not_older (max_by_date best l)) (best :: l).
Proof.
  revert best. induction l as [|kv l IH]; intros best; simpl.
  - split; [by left|]. repeat constructor. apply leb_refl.
  - destruct (String.ltb _ _) eqn:Hlt.
    + destruct (IH kv) as [Hin Hall]. split; [simpl in Hin; tauto|].
      apply Forall_cons in Hall as [Hkv Hl].
      repeat (apply Forall_cons; split); try done.
      unfold not_older in *. eapply leb_trans; [|exact Hkv]. by apply ltb_leb.
    + destruct (IH best) as [Hin Hall]. split; [simpl in Hin; tauto|].
      apply Forall_cons in Hall as [Hbest Hl].
      repeat (apply Forall_cons; split); try done.
      unfold not_older in *. eapply leb_trans; [|exact Hbest].
      by apply ltb_false_leb.
Qed.

Lemma latest_model_id_spec (active : dict entry) :
  active <> [] ->
  exists id info,
    latest_model_id active = Some id /\ In (id, info) active /\
    Forall (not_older (id, info)) active.
Proof.
  destruct active as [|kv l]; [done|]. intros _.
  destruct (max_by_date_spec l kv) as [Hin Hall].
  destruct (max_by_date kv l) as [id info] eqn:E.
  exists id, info. simpl. rewrite E. done.
Qed.

Lemma active_models_In (models : dict entry) id info :
  In (id, info) (active_models models) <->
  In (id, info) models /\ is_active info = true.
Proof. unfold active_models. by rewrite filter_In. Qed.

(** C2.  [load_latest_model] fails with a "not found" [ValueError] when no
    entry of the name is active, even though the name still has entries, and
    otherwise resolves to an active entry whose training date is the greatest
    among the active ones in lexicographic order, which it then loads (in a
    registry with distinct names and identifiers, [load_model] finds that
    very entry); with active entries dated January 2024, March 2024 and
    December 2023 it resolves to the March one. *)
Theorem load_latest_model_spec (name : string) (w : world) :
  (dict_get name (registry w) = None ->
   load_latest_model name w =
   (Raise (ValueError ("Model " +:+ name +:+ " not found in registry")), w)) /\
  (forall models,
     dict_get name (registry w) = Some models ->
     ((forall id info, In (id, info) models -> is_active info = false) ->
      load_latest_model name w =
      (Raise (ValueError ("No active models found for " +:+ name)), w)) /\
     ((exists id info, In (id, info) models /\ is_active info = true) ->
      exists id info,
        In (id, info) models /\ is_active info = true /\
        (forall id' info',
           In (id', info') models -> is_active info' = true ->
           String.leb (entry_training_date info') (entry_training_date info)
             = true) /\
        load_latest_model name w = load_model id w /\
        (registry_wf (registry w) ->
         find_model id (registry w) = Some (name, info)))) /\
  (forall a b c ea eb ec,
     entry_training_date ea = "2024-01-01T00:00:00Z" ->
     entry_training_date eb = "2024-03-01T00:00:00Z" ->
     entry_training_date ec = "2023-12-01T00:00:00Z" ->
     is_active ea = true -> is_active eb = true -> is_active ec = true ->
     latest_model_id (active_models [(a, ea); (b, eb); (c, ec)]) = Some b).
Proof.
  split; [|split].
  - intros Hnone. unfold load_latest_model, not_found. munfold. by rewrite Hnone.
  - intros models Hget. split.
    + intros Hinactive.
      assert (active_models models = []) as Hnil.
      { destruct (active_models models) as [|[id info] l] eqn:E; [done|].
        assert (In (id, info) (active_models models)) as Hin
          by (rewrite E; by left).
        apply active_models_In in Hin as [Hin Hact].
        rewrite (Hinactive _ _ Hin) in Hact. done. }
      unfold load_latest_model. munfold. by rewrite Hget, Hnil.
    + intros (id0 & info0 & Hin0 & Hact0).
      destruct (latest_model_id_spec (active_models models))
        as (id & info & Hlatest & Hin & Hall).
      { intros Hnil.
        assert (In (id0, info0) (active_models models)) as Hin
          by by apply active_models_In.
        by rewrite Hnil in Hin. }
      apply active_models_In in Hin as [Hin Hact].
      exists id, info. repeat split; try done.
      * intros id' info' Hin' Hact'.
        rewrite List.Forall_forall in Hall.
        apply (Hall (id', info')). by apply active_models_In.
      * unfold load_latest_model. munfold. by rewrite Hget, Hlatest.
      * intros Hwf. apply (find_model_of_get _ _ _ models); try done.
        apply dict_get_of_In; [|done].
        destruct Hwf as (_ & Hinner & _). eapply Hinner.
        by apply dict_get_In.
  - intros a b c ea eb ec Ha Hb Hc Aa Ab Ac.
    unfold active_models. simpl. rewrite Aa, Ab, Ac.
    assert (String.ltb "2024-01-01T00:00:00Z" "2024-03-01T00:00:00Z" = true)
      as Hjan_mar by reflexivity.
    assert (String.ltb "2024-03-01T00:00:00Z" "2023-12-01T00:00:00Z" = false)
      as Hmar_dec by reflexivity.
    unfold latest_model_id, max_by_date. simpl snd.
    rewrite Ha, Hb, Hc, Hjan_mar. simpl snd. by rewrite Hb, Hmar_dec.
Qed.

Lemma load_latest_model_spec_witness :
  dict_get "m" (registry Example.saved) = Some Example.saved_models /\
  (exists id info,
     In (id, info) Example.saved_models /\ is_active info = true /\
     (forall id' info',
        In (id', info') Example.saved_models -> is_active info' = true ->
        String.leb (entry_training_date info') (entry_training_date info)
          = true) /\
     load_latest_model "m" Example.saved = load_model id Example.saved /\
     (registry_wf (registry Example.saved) ->
      find_model id (registry Example.saved) = Some ("m", info))) /\
  registry_wf (registry Example.saved) /\
  load_latest_model "m" Example.all_inactive =
    (Raise (ValueError "No active models found for m"), Example.all_inactive).
Proof.
  assert (dict_get "m" (registry Example.saved) = Some Example.saved_models)
    as Hget by (vm_compute; reflexivity).
  split; [exact Hget|]. split; [|split].
  - destruct (load_latest_model_spec "m" Example.saved) as (_ & Hmodels & _).
    apply (Hmodels Example.saved_models Hget).
    eexists _, _. split; [left; reflexivity|reflexivity].
  - apply registry_wfb_sound. vm_compute. reflexivity.
  - destruct (load_latest_model_spec "m" Example.all_inactive)
      as (_ & Hmodels & _).
    apply (Hmodels [("m_v1_20240301_120005",
                     Example.deactivate Example.saved_entry)]).
    + reflexivity.
    + intros id info [Heq|[]]. by inversion Heq.
Defined.

(** ** Sorting by decreasing training date *)

Lemma insert_desc_Permutation x l : insert_desc x l ≡ₚ x :: l.
Proof.
  induction l as [|y l IH]; simpl; [done|].
  destruct (String.ltb _ _); [|done].
  rewrite IH. apply Permutation_swap.
Qed.

Lemma sorted_models_Permutation l : sorted_models l ≡ₚ l.
Proof.
  unfold sorted_models. induction l as [|x l IH]; simpl; [done|].
  by rewrite insert_desc_Permutation, IH.
Qed.

Lemma insert_desc_sorted x l :
  StronglySorted not_older l -> StronglySorted not_older (insert_desc x l).
Proof.
  induction 1 as [|y l Hsorted IH Hall]; simpl.
  - repeat constructor.
  - destruct (String.ltb _ _) eqn:Hlt.
    + constructor; [done|].
      rewrite insert_desc_Permutation.
      constructor; [|done]. unfold not_older. by apply ltb_leb.
    + apply ltb_false_leb in Hlt.
      constructor; [by constructor|].
      constructor; [done|].
      eapply Forall_impl; [exact Hall|].
      intros z Hyz. unfold not_older in *. by eapply leb_trans.
Qed.

Lemma sorted_models_sorted l : StronglySorted not_older (sorted_models l).
Proof.
  unfold sorted_models. induction l as [|x l IH]; simpl; [constructor|].
  by apply insert_desc_sorted.
Qed.

Lemma slice_from_nonneg {A} (k : Z) (l : list A) :
  (0 <= k)%Z -> slice_from k l = skipn (Z.to_nat k) l.
Proof. intros Hk. unfold slice_from. by rewrite (Zle_imp_le_bool _ _ Hk). Qed.

(** The entries picked for deletion, for a count [keep_versions] of versions
    to keep that is smaller than the number of active entries. *)
Lemma models_to_delete_spec (models : dict entry) (keep_versions : Z) :
  (0 <= keep_versions < Z.of_nat (length (active_models models)))%Z ->
  let kept :=
    firstn (Z.to_nat keep_versions) (sorted_models (active_models models)) in
  let old := models_to_delete models keep_versions in
  length old = length (active_models models) - Z.to_nat keep_versions /\
  (kept ++ old)%list ≡ₚ active_models models /\
  (forall x y, In x kept -> In y old -> not_older x y).
Proof.
  intros Hk kept old. unfold old, kept, models_to_delete.
  rewrite slice_from_nonneg by lia.
  set (s := sorted_models (active_models models)).
  split; [|split].
  - rewrite length_skipn. unfold s.
    by rewrite (Permutation_length (sorted_models_Permutation _)).
  - rewrite firstn_skipn. apply sorted_models_Permutation.
  - intros x y Hx Hy.
    apply (StronglySorted_app_1_elem_of not_older
             (firstn (Z.to_nat keep_versions) s)
             (skipn (Z.to_nat keep_versions) s)).
    + rewrite firstn_skipn. apply sorted_models_sorted.
    + by apply list_elem_of_In.
    + by apply list_elem_of_In.
Qed.



(** ** Framing: what a computation leaves unchanged *)

Section Preserves.
Context {B : Type} (proj : world -> B).

Lemma preserves_ret {A} (a : A) : preserves proj (ret a).
Proof. done. Qed.

Lemma preserves_raise {A} e : preserves proj (@raise A e).
Proof. done. Qed.

Lemma preserves_get : preserves proj get.
Proof. done. Qed.

Lemma preserves_lift {A} (r : result A) : preserves proj (lift r).
Proof. done. Qed.

Lemma preserves_modify f :
  (forall w, proj (f w) = proj w) -> preserves proj (modify f).
Proof. intros Hf w. apply Hf. Qed.

Lemma preserves_bind {A C} (m : M A) (k : A -> M C) :
  preserves proj m -> (forall a, preserves proj (k a)) ->
  preserves proj (bind m k).
Proof.
  intros Hm Hk w. unfold bind. specialize (Hm w).
  destruct (m w) as [[a|e] w1]; simpl in *; [|done].
  by rewrite Hk.
Qed.

Lemma preserves_try_except {A} (m : M A) h :
  preserves proj m -> (forall e, preserves proj (h e)) ->
  preserves proj (try_except m h).
Proof.
  intros Hm Hh w. unfold try_except. specialize (Hm w).
  destruct (m w) as [[a|e] w1]; simpl in *; [done|].
  by rewrite Hh.
Qed.

(** A successful run of [m ;; k] goes through a state that [m] reached
    without touching the projection. *)
Lemma bind_ok_preserves {A C} (m : M A) (k : A -> M C) w c w' :
  preserves proj m -> bind m k w = (Ok c, w') ->
  exists a w1, m w = (Ok a, w1) /\ proj w1 = proj w /\ k a w1 = (Ok c, w').
Proof.
  intros Hm H. unfold bind in H. specialize (Hm w).
  destruct (m w) as [[a|e] w1]; simpl in *; [eauto|done].
Qed.
End Preserves.

Ltac preserves_step :=
  match goal with
  | |- preserves _ (bind _ _) => apply preserves_bind; [|intros]
  | |- preserves _ (try_except _ _) => apply preserves_try_except; [|intros]
  | |- preserves _ (ret _) => apply preserves_ret
  | |- preserves _ (raise _) => apply preserves_raise
  | |- preserves _ (not_found _) => apply preserves_raise
  | |- preserves _ get => apply preserves_get
  | |- preserves _ (lift _) => apply preserves_lift
  | |- preserves _ (modify _) => apply preserves_modify; intros; reflexivity
  | |- preserves _ (if ?b then _ else _) => destruct b
  | |- preserves _ (match ?x with _ => _ end) => destruct x
  end.

Section Frames.
Context {B : Type} (proj : world -> B).
Hypothesis proj_files : forall f w, proj (set_files f w) = proj w.
Hypothesis proj_dirs : forall d w, proj (set_dirs d w) = proj w.
Hypothesis proj_ticks : forall n w, proj (set_ticks n w) = proj w.

Ltac frame_modify :=
  try (apply preserves_modify; intros; first
         [apply proj_files | apply proj_dirs | apply proj_ticks]).

Lemma now_preserves env : preserves proj (now env).
Proof. intros w. apply proj_ticks. Qed.

Lemma path_exists_preserves p : preserves proj (path_exists p).
Proof. unfold path_exists. repeat preserves_step. Qed.

Lemma read_file_preserves p : preserves proj (read_file p).
Proof. unfold read_file. repeat preserves_step. Qed.

Lemma write_file_preserves env p f : preserves proj (write_file env p f).
Proof.
  unfold write_file, guard_io.
  repeat (preserves_step; frame_modify).
Qed.

Lemma unlink_preserves env p : preserves proj (unlink env p).
Proof. unfold unlink, guard_io. repeat (preserves_step; frame_modify). Qed.

Lemma mkdir_preserves env p : preserves proj (mkdir env p).
Proof. unfold mkdir, guard_io. repeat (preserves_step; frame_modify). Qed.

Lemma rmdir_preserves env p : preserves proj (rmdir env p).
Proof. unfold rmdir, guard_io. repeat (preserves_step; frame_modify). Qed.

Lemma iterdir_preserves p : preserves proj (iterdir p).
Proof. unfold iterdir. repeat preserves_step. Qed.

Lemma copy2_preserves env src dst : preserves proj (copy2 env src dst).
Proof.
  unfold copy2, guard_io.
  repeat (first [apply read_file_preserves | preserves_step]; frame_modify).
Qed.

Lemma backup_model_preserves env id : preserves proj (backup_model env id).
Proof.
  unfold backup_model.
  repeat first
    [ apply now_preserves | apply mkdir_preserves | apply copy2_preserves
    | apply path_exists_preserves | preserves_step ].
Qed.
End Frames.

(** Discharges [preserves proj m] for a projection that storage calls and
    clock readings leave alone. *)
Ltac solve_frame :=
  repeat first
    [ apply now_preserves; by intros
    | apply path_exists_preserves
    | apply read_file_preserves
    | apply write_file_preserves; by intros
    | apply unlink_preserves; by intros
    | apply mkdir_preserves; by intros
    | apply rmdir_preserves; by intros
    | apply iterdir_preserves
    | apply copy2_preserves; by intros
    | apply backup_model_preserves; by intros
    | preserves_step ].

(** ** Deleting a model *)

Lemma _save_registry_ok env w u w' :
  _save_registry env w = (Ok u, w') ->
  w' = set_files (<[registry_file env := RegistryDoc (registry w)]> (files w)) w.
Proof.
  unfold _save_registry, write_file, guard_io. munfold. intros H. by mcases.
Qed.

Lemma delete_model_ok env id b w r w' :
  delete_model env id b w = (Ok r, w') ->
  exists name info,
    find_model id (registry w) = Some (name, info) /\ r = true /\
    registry w' = registry_remove name id (registry w) /\
    files w' !! registry_file env = Some (RegistryDoc (registry w')) /\
    caches w' = caches w.
Proof.
  intros H. unfold delete_model in H. rewrite bind_get in H.
  destruct (find_model id (registry w)) as [[name info]|]; [|done].
  exists name, info. split; [done|].
  assert (Hstate : exists w1,
    (registry w1, caches w1) = (registry w, caches w) /\
    bind (modify (fun w => set_registry (registry_remove name id (registry w)) w))
      (fun _ => bind (_save_registry env) (fun _ => ret true)) w1 = (Ok r, w')).
  { repeat match type of H with
    | bind (modify _) _ _ = _ => fail 1
    | bind _ _ ?w0 = _ =>
        apply (bind_ok_preserves (fun w => (registry w, caches w))) in H
          as (? & ? & _ & ? & H); [|solve_frame]
    end.
    eexists. split; [|exact H]. congruence. }
  destruct Hstate as (w1 & Hw1 & Htail). simplify_eq.
  revert Htail. unfold bind, modify, ret. simpl.
  destruct (_save_registry env _) as [[u|e] w2] eqn:Hsave; [|done].
  intros ?. simplify_eq. apply _save_registry_ok in Hsave as ->. simpl.
  rewrite lookup_insert_eq. unfold caches.
  repeat split; simpl; congruence.
Qed.

(** After a successful [delete_model], the identifier is unknown to
    [load_model]. *)
Lemma load_model_after_delete env id create_backup w r w' :
  registry_wf (registry w) ->
  delete_model env id create_backup w = (Ok r, w') ->
  load_model id w' =
  (Raise (ValueError ("Model " +:+ id +:+ " not found in registry")), w').
Proof.
  intros Hwf Hdel.
  apply delete_model_ok in Hdel as (name & info & Hfind & _ & Hreg & _).
  apply load_model_not_found. rewrite Hreg.
  by apply (find_model_registry_remove _ _ _ info).
Qed.

(** ** The loop of [cleanup_old_models] *)

Lemma cleanup_loop_spec env ids acc w :
  fst (cleanup_loop env ids acc w) =
  Ok (acc ++ map attempt_id (List.filter succeeded (deletions env ids w)))%list.
Proof.
  revert acc w. induction ids as [|id ids IH]; intros acc w; simpl.
  - by rewrite app_nil_r.
  - unfold bind at 1, try_except, bind at 1.
    destruct (delete_model env id true w) as [[b|e] w1]; simpl.
    + rewrite IH. by rewrite <- app_assoc.
    + by rewrite IH.
Qed.

Lemma deletions_ids env ids w : map attempt_id (deletions env ids w) = ids.
Proof.
  revert w. induction ids as [|id ids IH]; intros w; simpl; [done|].
  destruct (delete_model env id true w) as [r w1]. simpl. by rewrite IH.
Qed.

Lemma deletions_In env ids w id wb r wa :
  In (id, wb, r, wa) (deletions env ids w) ->
  delete_model env id true wb = (r, wa).
Proof.
  revert w. induction ids as [|id' ids IH]; intros w; simpl; [done|].
  destruct (delete_model env id' true w) as [r' w1] eqn:E.
  intros [Heq|Hin]; [by simplify_eq|eauto].
Qed.

Lemma filter_all {A} (f : A -> bool) (l : list A) :
  forallb f l = true -> List.filter f l = l.
Proof.
  induction l as [|x l IH]; simpl; [done|].
  intros [-> Hl]%andb_prop. by rewrite IH.
Qed.

Lemma registry_remove_get reg name id id' models :
  dict_get name reg = Some models -> id <> id' ->
  dict_mem id' models = true ->
  dict_get name (registry_remove name id reg) = Some (dict_del id models) /\
  dict_mem id' (dict_del id models) = true.
Proof.
  intros Hget Hne Hmem.
  assert (dict_mem id' (dict_del id models) = true) as Hmem'.
  { unfold dict_mem in *. by rewrite dict_get_del_ne. }
  split; [|done]. unfold registry_remove. rewrite Hget. simpl.
  destruct (dict_del id models) as [|kv l] eqn:E; [done|].
  apply dict_get_set_eq.
Qed.

(** When every deletion succeeds, the loop of [cleanup_old_models] removes
    from the registry the entries of the name with the given identifiers,
    and nothing else. *)
Lemma cleanup_loop_registry env name ids acc w :
  registry_wf (registry w) -> NoDup ids ->
  (forall id, In id ids ->
     exists models,
       dict_get name (registry w) = Some models /\ dict_mem id models = true) ->
  forallb succeeded (deletions env ids w) = true ->
  registry (snd (cleanup_loop env ids acc w)) =
  foldl (fun reg id => registry_remove name id reg) (registry w) ids.
Proof.
  revert acc w. induction ids as [|id ids IH]; intros acc w Hwf Hnodup Hmem Hok;
    simpl in *; [done|].
  apply NoDup_cons in Hnodup as [Hnotin Hnodup].
  unfold bind at 1, try_except, bind at 1.
  destruct (delete_model env id true w) as [[r|e] w1] eqn:Hdel;
    simpl in Hok; [|done]. simpl.
  pose proof Hdel as (n & info & Hfind & _ & Hreg & _)%delete_model_ok.
  destruct (Hmem id) as (models & Hget & Hid); [by left|].
  destruct (find_model_unique _ _ _ _ _ _ Hwf Hfind Hget Hid) as [-> _].
  rewrite <- Hreg. apply IH; try done.
  - rewrite Hreg. by apply registry_remove_wf.
  - intros id' Hin'. destruct (Hmem id') as (models' & Hget' & Hid'); [by right|].
    simplify_eq. exists (dict_del id models). rewrite Hreg.
    apply registry_remove_get; try done.
    intros ->. apply Hnotin. by apply list_elem_of_In.
Qed.

Lemma active_models_keys_incl models x :
  In x (dict_keys (active_models models)) -> In x (dict_keys models).
Proof.
  unfold dict_keys, active_models. rewrite !in_map_iff.
  intros (kv & <- & Hin%filter_In). exists kv. tauto.
Qed.

Lemma active_models_wf models : dict_wf models -> dict_wf (active_models models).
Proof.
  unfold dict_wf, dict_keys, active_models.
  induction models as [|[k v] l IH]; simpl; [done|].
  intros [Hnotin Hnodup]%NoDup_cons.
  destruct (is_active v); simpl; [|by apply IH].
  apply NoDup_cons. split; [|by apply IH].
  intros Hin%list_elem_of_In. apply Hnotin. apply list_elem_of_In.
  by apply active_models_keys_incl.
Qed.

Lemma In_skipn_incl {A} (n : nat) (l : list A) (x : A) :
  In x (skipn n l) -> In x l.
Proof.
  intros Hin. rewrite <- (firstn_skipn n l). apply in_or_app. by right.
Qed.

Lemma models_to_delete_ids models keep_versions :
  dict_wf models ->
  NoDup (map fst (models_to_delete models keep_versions)) /\
  forall id, In id (map fst (models_to_delete models keep_versions)) ->
             dict_mem id models = true.
Proof.
  intros Hwf. unfold models_to_delete, slice_from.
  set (s := sorted_models (active_models models)).
  assert (NoDup (map fst s)) as Hs.
  { unfold s. rewrite (sorted_models_Permutation (active_models models)).
    by apply active_models_wf. }
  assert (forall n, NoDup (map fst (skipn n s)) /\
                    forall id, In id (map fst (skipn n s)) ->
                               dict_mem id models = true) as Hskip.
  { intros n. split.
    - rewrite <- (firstn_skipn n s), map_app in Hs.
      by apply NoDup_app in Hs as (_ & _ & ?).
    - intros id (kv & <- & Hin)%in_map_iff. apply dict_mem_In.
      apply active_models_keys_incl. apply in_map.
      apply list_elem_of_In. rewrite <- (sorted_models_Permutation _).
      apply list_elem_of_In. by apply (In_skipn_incl n). }
  destruct (0 <=? keep_versions)%Z; apply Hskip.
Qed.

(** The registry after a cleanup in which no deletion fails. *)
Lemma cleanup_old_models_registry env name keep_versions w models :
  registry_wf (registry w) ->
  dict_get name (registry w) = Some models ->
  (Z.of_nat (length (active_models models)) > keep_versions)%Z ->
  forallb succeeded
    (deletions env (map fst (models_to_delete models keep_versions)) w) = true ->
  registry (snd (cleanup_old_models env name keep_versions w)) =
  foldl (fun reg id => registry_remove name id reg) (registry w)
    (map fst (models_to_delete models keep_versions)).
Proof.
  intros Hwf Hget Hk Hok. unfold cleanup_old_models. rewrite bind_get, Hget.
  destruct (Z.leb_spec (Z.of_nat (length (active_models models)))
              keep_versions) as [Hle|_]; [lia|].
  assert (dict_wf models) as Hmodels.
  { destruct Hwf as (_ & Hinner & _). eapply Hinner. by apply dict_get_In. }
  destruct (models_to_delete_ids models keep_versions Hmodels) as [Hnodup Hmem].
  apply cleanup_loop_registry; eauto.
Qed.

(** C6.  With [n] active entries under a name and a number [keep_versions]
    of versions to keep with [0 <= keep_versions < n], [cleanup_old_models]
    picks exactly the [n - keep_versions] active entries that are oldest by
    training date, attempts to delete every one of them whatever happened to
    the ones before, never raises, and returns the identifiers whose deletion
    succeeded: each of these was removed from the registry and the registry
    document rewritten.  When no deletion fails these are exactly the
    identifiers of the [n - keep_versions] oldest entries, and in a registry
    with distinct names and identifiers the registry afterwards is the one
    before without these entries of the name. *)
Theorem cleanup_old_models_spec env (name : string) (keep_versions : Z)
    (w : world) (models : dict entry) :
  dict_get name (registry w) = Some models ->
  (0 <= keep_versions < Z.of_nat (length (active_models models)))%Z ->
  let kept :=
    firstn (Z.to_nat keep_versions) (sorted_models (active_models models)) in
  let old := models_to_delete models keep_versions in
  let attempts := deletions env (map fst old) w in
  (length old = length (active_models models) - Z.to_nat keep_versions /\
   (kept ++ old)%list ≡ₚ active_models models /\
   (forall x y, In x kept -> In y old -> not_older x y)) /\
  map attempt_id attempts = map fst old /\
  fst (cleanup_old_models env name keep_versions w) =
    Ok (map attempt_id (List.filter succeeded attempts)) /\
  (forall id before r after,
     In (id, before, Ok r, after) attempts ->
     exists n info,
       find_model id (registry before) = Some (n, info) /\
       registry after = registry_remove n id (registry before) /\
       files after !! registry_file env = Some (RegistryDoc (registry after))) /\
  (forallb succeeded attempts = true ->
   fst (cleanup_old_models env name keep_versions w) = Ok (map fst old) /\
   length (map fst old) = length (active_models models) - Z.to_nat keep_versions /\
   (registry_wf (registry w) ->
    registry (snd (cleanup_old_models env name keep_versions w)) =
    foldl (fun reg id => registry_remove name id reg) (registry w)
      (map fst old))).
Proof.
  intros Hget Hk kept old attempts.
  assert (fst (cleanup_old_models env name keep_versions w) =
          Ok (map attempt_id (List.filter succeeded attempts))) as Hres.
  { unfold cleanup_old_models. rewrite bind_get, Hget.
    destruct (Z.leb_spec (Z.of_nat (length (active_models models)))
                keep_versions) as [Hle|_]; [lia|].
    apply (cleanup_loop_spec env (map fst old) [] w). }
  pose proof (models_to_delete_spec models keep_versions Hk) as Hsel.
  split; [exact Hsel|]. split; [apply deletions_ids|]. split; [exact Hres|].
  split.
  - intros id before r after Hin. apply deletions_In in Hin.
    apply delete_model_ok in Hin as (n & info & Hfind & _ & Hreg & Hdoc & _).
    eauto.
  - intros Hall. rewrite Hres, (filter_all _ _ Hall).
    unfold attempts. rewrite deletions_ids. split; [done|]. split.
    + rewrite length_map. apply Hsel.
    + intros Hwf. apply cleanup_old_models_registry; [done|done|lia|done].
Qed.

Lemma cleanup_old_models_spec_witness :
  dict_get "m" (registry Example.seven_versions) = Some Example.seven_models /\
  (0 <= 5 < Z.of_nat (length (active_models Example.seven_models)))%Z /\
  registry_wf (registry Example.seven_versions) /\
  fst (cleanup_old_models Example.ticking_env "m" 5 Example.seven_versions)
    = Ok ["m_v2_20240301_120002"; "m_v1_20240301_120000"] /\
  dict_keys
    (default []
       (dict_get "m"
          (registry
             (snd (cleanup_old_models Example.ticking_env "m" 5
                     Example.seven_versions)))))
    = ["m_v3_20240301_120004"; "m_v4_20240301_120006"; "m_v5_20240301_120008";
       "m_v6_20240301_120010"; "m_v7_20240301_120012"].
Proof.
  assert (dict_get "m" (registry Example.seven_versions)
            = Some Example.seven_models) as Hget by (vm_compute; reflexivity).
  assert (0 <= 5 < Z.of_nat (length (active_models Example.seven_models)))%Z
    as Hkeep by (vm_compute; split; [discriminate|reflexivity]).
  assert (registry_wf (registry Example.seven_versions)) as Hwf
    by (apply registry_wfb_sound; vm_compute; reflexivity).
  split; [exact Hget|]. split; [exact Hkeep|]. split; [exact Hwf|].
  destruct (cleanup_old_models_spec Example.ticking_env "m" 5
              Example.seven_versions Example.seven_models Hget Hkeep)
    as (_ & _ & _ & _ & Hall).
  destruct Hall as (Hres & _ & Hreg); [vm_compute; reflexivity|].
  rewrite Hres, (Hreg Hwf). split; vm_compute; reflexivity.
Defined.

(** With the artifact of version 2 impossible to remove, the cleanup of the
    seven versions still deletes version 1, reports it alone, and version 2
    stays registered. *)
Lemma cleanup_skips_failed_deletion :
  let run :=
    cleanup_old_models Example.flaky_env "m" 5 Example.seven_versions in
  fst run = Ok ["m_v1_20240301_120000"] /\
  dict_keys (default [] (dict_get "m" (registry (snd run))))
    = ["m_v2_20240301_120002"; "m_v3_20240301_120004"; "m_v4_20240301_120006";
       "m_v5_20240301_120008"; "m_v6_20240301_120010"; "m_v7_20240301_120012"].
Proof. split; vm_compute; reflexivity. Qed.

(** ** Saving, then loading *)

(** An identifier registered under no other name than [name] is found under
    [name] once it has been put there. *)
Lemma find_model_dict_set (name id : string) (info : entry)
    (models : dict entry) (reg : registry_t) :
  dict_get id models = Some info ->
  (forall n ms, In (n, ms) reg -> dict_mem id ms = true -> n = name) ->
  find_model id (dict_set name models reg) = Some (name, info).
Proof.
  intros Hinfo. induction reg as [|[n ms] reg IH]; intros Hfresh; simpl.
  - by rewrite Hinfo.
  - destruct (decide (n = name)) as [->|Hne]; simpl; [by rewrite Hinfo|].
    destruct (dict_get id ms) as [i|] eqn:Hid.
    + exfalso. apply Hne. apply (Hfresh n ms); [by left|].
      unfold dict_mem. by rewrite Hid.
    + apply IH. intros n' ms' Hin. apply Hfresh. by right.
Qed.

Lemma find_model_registry_add (name id : string) (info : entry)
    (reg : registry_t) :
  (forall n ms, In (n, ms) reg -> dict_mem id ms = true -> n = name) ->
  find_model id (registry_add name id info reg) = Some (name, info).
Proof.
  intros Hfresh. unfold registry_add.
  apply find_model_dict_set; [apply dict_get_set_eq|done].
Qed.

Lemma path_join_inj_name (p : path) (a b : string) :
  path_join p a = path_join p b -> a = b.
Proof. unfold path_join. intros H. apply app_inv_head in H. by simplify_eq. Qed.

Lemma path_join2_ne (p : path) (a b c : string) :
  path_join (path_join p a) b <> path_join p c.
Proof.
  unfold path_join. intros H. apply (f_equal length) in H.
  rewrite !length_app in H. simpl in H. lia.
Qed.

Lemma append_inj_r (s a b : string) : s +:+ a = s +:+ b -> a = b.
Proof. induction s; simpl; intros H; [done|]. apply IHs. by simplify_eq. Qed.

Lemma format_eqb_refl f : format_eqb f f = true.
Proof. by destruct f. Qed.



(** ** A registry write that fails *)

Lemma never_raises_bind {A C} e (m : M A) (k : A -> M C) :
  never_raises e m -> (forall a, never_raises e (k a)) ->
  never_raises e (bind m k).
Proof.
  intros Hm Hk w. unfold bind. specialize (Hm w).
  destruct (m w) as [[a|e'] w1]; simpl in *; [apply Hk|].
  intros [= ->]. by apply Hm.
Qed.

Lemma always_raises_bind_l {A C} (m : M A) (k : A -> M C) :
  always_raises m -> always_raises (bind m k).
Proof.
  intros Hm w. unfold bind. destruct (Hm w) as [e He].
  destruct (m w) as [[a|e'] w1]; simpl in *; [done|eauto].
Qed.

Lemma always_raises_bind_r {A C} (m : M A) (k : A -> M C) :
  (forall a, always_raises (k a)) -> always_raises (bind m k).
Proof.
  intros Hk w. unfold bind.
  destruct (m w) as [[a|e'] w1]; simpl; [apply Hk|eauto].
Qed.

(** A run of [m ;; k] that ends with an exception that [m] never raises went
    through a state that [m] reached without touching the projection. *)
Lemma bind_raise_preserves {A B C} (proj : world -> B) e (m : M A)
    (k : A -> M C) w w' :
  preserves proj m -> never_raises e m -> bind m k w = (Raise e, w') ->
  exists a w1, m w = (Ok a, w1) /\ proj w1 = proj w /\ k a w1 = (Raise e, w').
Proof.
  intros Hp Hn H. unfold bind in H. specialize (Hp w). specialize (Hn w).
  destruct (m w) as [[a|e'] w1]; simpl in *; [eauto|].
  by simplify_eq.
Qed.

Ltac never_raises_step :=
  match goal with
  | |- never_raises _ (bind _ _) => apply never_raises_bind; [|intros]
  | |- never_raises _ (if ?b then _ else _) => destruct b
  | |- never_raises _ (match ?x with _ => _ end) => destruct x
  | |- never_raises _ _ => by intros ?
  end.

Section WriteFailure.
Variable env : environment.
Let write_error : exn := OSError (OpWrite (registry_file env)).

Lemma now_never_raises : never_raises write_error (now env).
Proof. by intros ?. Qed.

Lemma path_exists_never_raises p : never_raises write_error (path_exists p).
Proof. by intros ?. Qed.

Lemma read_file_never_raises p : never_raises write_error (read_file p).
Proof. intros w. unfold read_file. munfold. by mcases. Qed.

Lemma write_file_never_raises p f :
  p <> registry_file env -> never_raises write_error (write_file env p f).
Proof.
  intros Hp w. unfold write_file, guard_io. munfold. mcases; try done.
  unfold write_error. congruence.
Qed.

Lemma unlink_never_raises p : never_raises write_error (unlink env p).
Proof. intros w. unfold unlink, guard_io. munfold. by mcases. Qed.

Lemma mkdir_never_raises p : never_raises write_error (mkdir env p).
Proof. intros w. unfold mkdir, guard_io. munfold. by mcases. Qed.

Lemma rmdir_never_raises p : never_raises write_error (rmdir env p).
Proof. intros w. unfold rmdir, guard_io. munfold. by mcases. Qed.

Lemma iterdir_never_raises p : never_raises write_error (iterdir p).
Proof. intros w. unfold iterdir. munfold. by mcases. Qed.

Lemma copy2_never_raises src dst :
  never_raises write_error (copy2 env src dst).
Proof. intros w. unfold copy2, guard_io, read_file. munfold. by mcases. Qed.

Lemma read_metadata_never_raises p :
  never_raises write_error (read_metadata p).
Proof. intros w. unfold read_metadata, read_file. munfold. by mcases. Qed.

Lemma training_data_hash_never_raises data :
  never_raises write_error (lift (training_data_hash env data)).
Proof. intros w. by destruct data. Qed.

Lemma backup_model_never_raises id :
  never_raises write_error (backup_model env id).
Proof.
  unfold backup_model, not_found.
  repeat first
    [ apply now_never_raises | apply mkdir_never_raises
    | apply copy2_never_raises | apply path_exists_never_raises
    | never_raises_step ].
Qed.

Lemma copy_renamed_never_raises original new dir listing :
  never_raises write_error (copy_renamed env original new dir listing).
Proof.
  induction listing as [|p rest IH]; simpl.
  - by intros ?.
  - repeat first [ apply copy2_never_raises | exact IH | never_raises_step ].
Qed.

Lemma copy_renamed_preserves {B} (proj : world -> B) original new dir listing :
  (forall f w, proj (set_files f w) = proj w) ->
  preserves proj (copy_renamed env original new dir listing).
Proof.
  intros Hfiles. induction listing as [|p rest IH]; simpl.
  - apply preserves_ret.
  - repeat first
      [ apply copy2_preserves; by intros | exact IH | preserves_step ].
Qed.
End WriteFailure.

Ltac solve_never_raises :=
  unfold _generate_model_id, stat_size, glob_metadata, not_found;
  repeat first
    [ apply now_never_raises | apply path_exists_never_raises
    | apply read_file_never_raises | apply read_metadata_never_raises
    | apply write_file_never_raises; apply path_join2_ne
    | apply unlink_never_raises | apply mkdir_never_raises
    | apply rmdir_never_raises | apply iterdir_never_raises
    | apply copy2_never_raises | apply backup_model_never_raises
    | apply copy_renamed_never_raises
    | apply training_data_hash_never_raises
    | never_raises_step ].

Ltac solve_frame' :=
  unfold _generate_model_id, stat_size, glob_metadata, read_metadata, not_found;
  repeat first
    [ apply copy_renamed_preserves; by intros
    | solve_frame ].

(** Walks down a run that ended with the exception [e], through the steps
    that neither raise [e] nor touch the registry, to the final registry
    update. *)
Ltac to_registry_update H :=
  repeat match type of H with
  | bind (modify _) _ _ = _ => fail 1
  | bind get _ _ = _ => rewrite bind_get in H
  | bind _ _ _ = (Raise _, _) =>
      apply (bind_raise_preserves registry) in H as (? & ? & _ & ? & H);
        [|solve_frame'|solve_never_raises]
  | (if ?b then _ else _) _ = _ => destruct b
  | (match ?x with _ => _ end) _ = _ => destruct x
  | raise _ _ = (Raise _, _) => by inversion H
  | not_found _ _ = (Raise _, _) => by inversion H
  end.

Ltac always_raises_step :=
  match goal with
  | |- always_raises (bind (_save_registry _) _) => apply always_raises_bind_l
  | |- always_raises (bind _ _) => apply always_raises_bind_r; intros
  | |- always_raises (if ?b then _ else _) => destruct b
  | |- always_raises (match ?x with _ => _ end) => destruct x
  | |- always_raises (raise _) => intros ?; by eexists
  | |- always_raises (not_found _) => intros ?; by eexists
  end.

Section FailedWrite.
Variable env : environment.
Hypothesis write_fails : io_fails env (OpWrite (registry_file env)) = true.

Lemma _save_registry_fails w :
  _save_registry env w = (Raise (OSError (OpWrite (registry_file env))), w).
Proof.
  unfold _save_registry, write_file, guard_io. munfold.
  by rewrite write_fails.
Qed.

Lemma _save_registry_always_raises : always_raises (_save_registry env).
Proof. intros w. rewrite _save_registry_fails. by eexists. Qed.

(** The end of every mutating operation: the registry is updated in
    memory, then written. *)
Lemma registry_update_kept {A} (f : world -> world) (x : A) w r w' :
  bind (modify f) (fun _ => bind (_save_registry env) (fun _ => ret x)) w
    = (r, w') ->
  w' = f w.
Proof.
  unfold bind, modify. rewrite _save_registry_fails. by intros [= _ ->].
Qed.

Lemma save_model_always_raises m name ver metrics td params hint :
  always_raises (save_model env m name ver metrics td params hint).
Proof.
  unfold save_model.
  repeat first [apply _save_registry_always_raises | always_raises_step].
Qed.

Lemma delete_model_always_raises id b : always_raises (delete_model env id b).
Proof.
  unfold delete_model.
  repeat first [apply _save_registry_always_raises | always_raises_step].
Qed.

Lemma restore_model_always_raises backup :
  always_raises (restore_model env backup).
Proof.
  unfold restore_model.
  repeat first [apply _save_registry_always_raises | always_raises_step].
Qed.

Lemma deletions_all_fail ids w :
  List.filter succeeded (deletions env ids w) = [].
Proof.
  revert w. induction ids as [|id ids IH]; intros w; simpl; [done|].
  destruct (delete_model_always_raises id true w) as [e He].
  destruct (delete_model env id true w) as [r w1]. simpl in *. subst r.
  simpl. apply IH.
Qed.

Lemma cleanup_reports_nothing name keep w :
  fst (cleanup_old_models env name keep w) = Ok [].
Proof.
  unfold cleanup_old_models. rewrite bind_get.
  destruct (dict_get name (registry w)) as [models|]; [|done].
  destruct (_ <=? _)%Z; [done|].
  by rewrite cleanup_loop_spec, deletions_all_fail.
Qed.

Lemma save_model_keeps_update m name ver metrics td params hint w w' :
  save_model env m name ver metrics td params hint w
    = (Raise (OSError (OpWrite (registry_file env))), w') ->
  exists id info, registry w' = registry_add name id info (registry w).
Proof.
  intros H. unfold save_model in H. to_registry_update H.
  apply registry_update_kept in H as ->. simpl.
  eexists _, _. f_equal. congruence.
Qed.

Lemma delete_model_keeps_update id b w w' :
  delete_model env id b w
    = (Raise (OSError (OpWrite (registry_file env))), w') ->
  exists name info,
    find_model id (registry w) = Some (name, info) /\
    registry w' = registry_remove name id (registry w).
Proof.
  intros H. unfold delete_model in H. rewrite bind_get in H.
  destruct (find_model id (registry w)) as [[name info]|]; [|by inversion H].
  to_registry_update H.
  apply registry_update_kept in H as ->. simpl. eexists _, _.
  split; [done|]. f_equal. congruence.
Qed.

Lemma restore_model_keeps_update backup w w' :
  restore_model env backup w
    = (Raise (OSError (OpWrite (registry_file env))), w') ->
  exists name id info, registry w' = registry_add name id info (registry w).
Proof.
  intros H. unfold restore_model in H. to_registry_update H.
  apply registry_update_kept in H as ->. simpl.
  eexists _, _, _. f_equal. congruence.
Qed.
End FailedWrite.

(** C1, as the code has it.  When the registry document cannot be written,
    [save_model], [delete_model] and [restore_model] end with an exception,
    which reaches the caller; when that exception is the failed write of the
    registry, the registry in memory holds the update made just before the
    write: it is neither rolled back nor is the write tried again.
    [cleanup_old_models] catches the failure of each deletion and returns
    normally, with no identifier reported as deleted. *)
Theorem registry_write_failure env :
  io_fails env (OpWrite (registry_file env)) = true ->
  (forall m name ver metrics training_data params type_hint w r w',
     save_model env m name ver metrics training_data params type_hint w
       = (r, w') ->
     (exists e, r = Raise e) /\
     (r = Raise (OSError (OpWrite (registry_file env))) ->
      exists id info, registry w' = registry_add name id info (registry w))) /\
  (forall id create_backup w r w',
     delete_model env id create_backup w = (r, w') ->
     (exists e, r = Raise e) /\
     (r = Raise (OSError (OpWrite (registry_file env))) ->
      exists name info,
        find_model id (registry w) = Some (name, info) /\
        registry w' = registry_remove name id (registry w))) /\
  (forall backup w r w',
     restore_model env backup w = (r, w') ->
     (exists e, r = Raise e) /\
     (r = Raise (OSError (OpWrite (registry_file env))) ->
      exists name id info,
        registry w' = registry_add name id info (registry w))) /\
  (forall name keep_versions w,
     fst (cleanup_old_models env name keep_versions w) = Ok []).
Proof.
  intros Hfails. repeat split.
  - destruct (save_model_always_raises env Hfails m name ver metrics
                training_data params type_hint w) as [e He].
    rewrite H in He. eauto.
  - intros ->. by eapply save_model_keeps_update.
  - destruct (delete_model_always_raises env Hfails id create_backup w)
      as [e He].
    rewrite H in He. eauto.
  - intros ->. by eapply delete_model_keeps_update.
  - destruct (restore_model_always_raises env Hfails backup w) as [e He].
    rewrite H in He. eauto.
  - intros ->. by eapply restore_model_keeps_update.
  - by apply cleanup_reports_nothing.
Qed.

Lemma registry_write_failure_witness :
  io_fails Example.failing_env (OpWrite (registry_file Example.failing_env))
    = true /\
  fst (cleanup_old_models Example.failing_env "m" 0
         (Example.fresh Example.failing_env)) = Ok [].
Proof.
  split; [reflexivity|].
  apply (registry_write_failure Example.failing_env). reflexivity.
Defined.

(** C1 does not hold as stated: with a registry document that cannot be
    written, [save_model] raises the write error and leaves in memory a
    registry that was not rolled back and differs from the durable one. *)
Lemma save_model_write_failure_diverges :
  let before := Example.fresh Example.failing_env in
  let run :=
    save_model Example.failing_env Example.classifier "m" "1" [] PyNone None None
      before in
  fst run = Raise (OSError (OpWrite ["models"; "model_registry.json"])) /\
  ~ write_failure_handled Example.failing_env before (snd run).
Proof.
  split; [by vm_compute|].
  intros [Hrolled_back|Hdurable].
  - vm_compute in Hrolled_back. discriminate.
  - vm_compute in Hdurable. discriminate.
Qed.

(** ** Restoring a backup *)

(** The identifier [restore_model] builds carries the mark [_restored] after
    the version, where an identifier built by [save_model] carries the
    timestamp, which starts with a digit. *)
Lemma decimal_head (n : nat) :
  exists c s, decimal n = String c s /\ c <> "r"%char.
Proof.
  unfold decimal.
  assert (Nat.to_uint n <> Decimal.Nil) as Hnonnil.
  { rewrite <- (Unsigned.of_to n) at 1. rewrite Unsigned.to_of.
    apply unorm_nonnil. }
  destruct (Nat.to_uint n); [done|..]; simpl; eexists _, _; split; done.
Qed.

Lemma pad_head (width n : nat) :
  exists c s, pad width n = String c s /\ c <> "r"%char.
Proof.
  unfold pad. destruct (width - String.length (decimal n)) as [|k]; simpl.
  - apply decimal_head.
  - eexists _, _. split; done.
Qed.

Lemma strftime_compact_head (t : datetime) :
  exists c s, strftime_compact t = String c s /\ c <> "r"%char.
Proof.
  unfold strftime_compact. destruct (pad_head 4 (year t)) as (c & s & -> & Hc).
  simpl. eauto.
Qed.

Lemma append_assoc (a b c : string) : (a +:+ b) +:+ c = a +:+ (b +:+ c).
Proof.
  induction a as [|x a IH]; [done|].
  change (String x ((a +:+ b) +:+ c) = String x (a +:+ (b +:+ c))).
  by rewrite IH.
Qed.

(** The identifier made by [restore_model] for a model that [save_model]
    named differs from the one [save_model] gave it. *)
Lemma restored_id_differs (name ver : string) (t0 t1 : datetime) :
  name +:+ "_v" +:+ (ver +:+ "_restored") +:+ "_" +:+ strftime_compact t1 <>
  name +:+ "_v" +:+ ver +:+ "_" +:+ strftime_compact t0.
Proof.
  intros H. apply append_inj_r, append_inj_r in H.
  rewrite append_assoc in H. apply append_inj_r in H.
  destruct (strftime_compact_head t0) as (c & s & Ht0 & Hc).
  rewrite Ht0 in H. simpl in H. by simplify_eq.
Qed.

Lemma bind_inv_ok {A B} (m : M A) (k : A -> M B) w b w' :
  bind m k w = (Ok b, w') ->
  exists a w1, m w = (Ok a, w1) /\ k a w1 = (Ok b, w').
Proof.
  unfold bind. destruct (m w) as [[a|e] w1]; [eauto|done].
Qed.

Lemma read_metadata_ok p w md w' :
  read_metadata p w = (Ok md, w') ->
  w' = w /\ files w !! p = Some (MetadataDoc md).
Proof.
  unfold read_metadata, read_file. munfold. intros H. by mcases.
Qed.

(** What [restore_model] returns: an identifier made of the name and version
    found in a metadata document of the backup, the mark of a restoration
    and a clock reading. *)
Lemma restore_model_ok env backup w id w' :
  restore_model env backup w = (Ok id, w') ->
  exists p md t,
    files w !! p = Some (MetadataDoc md) /\
    id = model_name md +:+ "_v" +:+ (version md +:+ "_restored") +:+ "_" +:+
         strftime_compact t.
Proof.
  intros H. unfold restore_model in H.
  apply bind_inv_ok in H as (ex & w1 & Hex & H).
  assert (w1 = w) as -> by (unfold path_exists in Hex; munfold; by simplify_eq).
  destruct (negb ex); [done|].
  apply bind_inv_ok in H as (listing & w2 & Hglob & H).
  assert (w2 = w) as -> by (unfold glob_metadata in Hglob; munfold; by mcases).
  destruct listing as [|p rest]; [done|].
  apply bind_inv_ok in H as (md & w3 & Hmd & H).
  apply read_metadata_ok in Hmd as [-> Hmd].
  apply bind_inv_ok in H as (new_id & w4 & Hid & H).
  exists p, md, (clock env (ticks w)). split; [done|].
  assert (new_id = model_name md +:+ "_v" +:+ (version md +:+ "_restored") +:+
                   "_" +:+ strftime_compact (clock env (ticks w))) as Hnew
    by (unfold _generate_model_id, now in Hid; munfold; by simplify_eq).
  rewrite <- Hnew. clear Hnew Hid Hmd Hglob.
  repeat (apply bind_inv_ok in H as (? & ? & _ & H)).
  unfold ret in H. by simplify_eq.
Qed.

(** A model named by [save_model] is restored under another identifier. *)
Lemma restore_model_new_id env backup w id w' :
  restore_model env backup w = (Ok id, w') ->
  exists p md,
    files w !! p = Some (MetadataDoc md) /\
    forall t0,
      model_id md = model_name md +:+ "_v" +:+ version md +:+ "_" +:+
                    strftime_compact t0 ->
      id <> model_id md.
Proof.
  intros (p & md & t & Hmd & ->)%restore_model_ok.
  exists p, md. split; [done|]. intros t0 ->. apply restored_id_differs.
Qed.

(** C5 fails on the code.  The classifier saved as version 1 of [m], deleted
    and restored has the identifier [m_v1_restored_20240301_120005].
    Deleting that model and restoring the backup made by the deletion, all
    within the second in which it was restored, gives the restored model the
    identifier of the model that was deleted. *)
Lemma restore_reuses_identifier :
  let id := "m_v1_restored_20240301_120005" in
  let backup :=
    ["models"; "backups"; "m_v1_restored_20240301_120005_20240301_120005"] in
  let deleted := Example.after (delete_model Example.env id true) Example.restored in
  let again := Example.after (restore_model Example.env backup) deleted in
  dict_mem id (default [] (dict_get "m" (registry Example.restored))) = true /\
  fst (delete_model Example.env id true Example.restored) = Ok true /\
  fst (load_model id deleted) =
    Raise (ValueError ("Model " +:+ id +:+ " not found in registry")) /\
  fst (restore_model Example.env backup deleted) = Ok id /\
  (exists md, fst (load_model id again) = Ok (Example.classifier, md)).
Proof.
  repeat split; try (vm_compute; reflexivity).
  eexists. vm_compute. reflexivity.
Qed.

(** ** The cache between loads *)

Lemma load_model_set_caches id lm mm w :
  load_model id (set_caches lm mm w) =
  (fst (load_model id w), set_caches lm mm w).
Proof.
  unfold load_model, path_exists, read_metadata, read_artifact, read_file,
    not_found, is_file, is_dir.
  munfold. simpl. mcases; done.
Qed.

Lemma load_latest_model_set_caches name lm mm w :
  load_latest_model name (set_caches lm mm w) =
  (fst (load_latest_model name w), set_caches lm mm w).
Proof.
  unfold load_latest_model, not_found. munfold. simpl.
  mcases; try done; apply load_model_set_caches.
Qed.

(** [load_model_for_inference] never answers from the cache: what it returns
    is what the persistence manager returns for the storage as it is now,
    whatever the cache holds; a failed load leaves the state as it was, a
    successful one puts the loaded model and its metadata in the cache under
    the identifier returned, which [get_loaded_models] then lists. *)
Theorem load_model_for_inference_reads_storage (name : string)
    (oid : option string) (w : world) :
  (forall lm mm,
     fst (load_model_for_inference name oid (set_caches lm mm w)) =
     fst (load_model_for_inference name oid w)) /\
  (forall e, fst (load_model_for_inference name oid w) = Raise e ->
     snd (load_model_for_inference name oid w) = w) /\
  (forall id, fst (load_model_for_inference name oid w) = Ok id ->
     exists m md,
       fst (match oid with
            | Some id => load_model id w
            | None => load_latest_model name w
            end) = Ok (m, md) /\
       id = match oid with Some id => id | None => model_id md end /\
       snd (load_model_for_inference name oid w) =
         set_caches (<[id := m]> (loaded_models w))
           (<[id := md]> (model_metadata w)) w /\
       In id (get_loaded_models (snd (load_model_for_inference name oid w)))).
Proof.
  split; [|split].
  - intros lm mm. unfold load_model_for_inference. munfold.
    destruct oid as [id|].
    + rewrite load_model_set_caches.
      by destruct (load_model id w) as [[[m md]|e] w1].
    + rewrite load_latest_model_set_caches.
      by destruct (load_latest_model name w) as [[[m md]|e] w1].
  - intros e He.
    destruct (load_model_for_inference name oid w) as [r w'] eqn:E.
    apply load_model_for_inference_caches in E
      as [[-> _]|(id & m & md & -> & _)]; [done|]. by simpl in He.
  - intros id Hid. unfold load_model_for_inference in *. munfold.
    destruct oid as [id'|].
    + destruct (load_model id' w) as [[[m md]|e] w1] eqn:E;
        apply load_model_world in E as ->; simplify_eq/=.
      exists m, md. repeat split.
      unfold get_loaded_models. simpl. apply list_elem_of_In.
      apply list_elem_of_fmap. exists (id, m). split; [done|].
      apply elem_of_map_to_list. apply lookup_insert_eq.
    + destruct (load_latest_model name w) as [[[m md]|e] w1] eqn:E;
        apply load_latest_model_world in E as ->; simplify_eq/=.
      exists m, md. repeat split.
      unfold get_loaded_models. simpl. apply list_elem_of_In.
      apply list_elem_of_fmap. exists (model_id md, m). split; [done|].
      apply elem_of_map_to_list. apply lookup_insert_eq.
Qed.

Lemma load_model_for_inference_reads_storage_witness :
  fst (load_model_for_inference "m" None Example.saved)
    = Ok "m_v1_20240301_120005" /\
  In "m_v1_20240301_120005" (get_loaded_models Example.prepared) /\
  snd (load_model_for_inference "m" None Example.files_lost)
    = Example.files_lost.
Proof.
  assert (fst (load_model_for_inference "m" None Example.saved)
          = Ok "m_v1_20240301_120005") as Hrun by (vm_compute; reflexivity).
  destruct (load_model_for_inference_reads_storage "m" None Example.saved)
    as (_ & _ & Hok).
  destruct (load_model_for_inference_reads_storage "m" None Example.files_lost)
    as (_ & Hfail & _).
  destruct (Hok _ Hrun) as (m & md & _ & _ & _ & Hlisted).
  split; [exact Hrun|]. split; [exact Hlisted|].
  apply (Hfail (FileNotFoundError "Metadata file not found"
                  ["models"; "m_v1_20240301_120005";
                   "m_v1_20240301_120005_metadata.json"])).
  vm_compute. reflexivity.
Defined.

Lemma predict_not_loaded env id x w :
  loaded_models w !! id = None ->
  predict env id x w =
  (Raise (ValueError ("Model " +:+ id +:+
                      " not loaded. Call load_model_for_inference first.")), w).
Proof. intros H. unfold predict. munfold. by rewrite H. Qed.

(** With co-indexed caches [unload_model] never raises: it removes the
    identifier from both caches and leaves every other cached model, the
    registry and durable storage as they are; unloading an identifier that
    is not cached does nothing.  A later [predict] on the identifier fails
    with the "not loaded" error. *)
Theorem unload_model_spec env (id : string) (w : world) :
  co_indexed w ->
  unload_model id w =
    (Ok tt,
     set_caches (delete id (loaded_models w)) (delete id (model_metadata w)) w) /\
  (loaded_models w !! id = None -> snd (unload_model id w) = w) /\
  forall input,
    predict env id input (snd (unload_model id w)) =
    (Raise (ValueError ("Model " +:+ id +:+
                        " not loaded. Call load_model_for_inference first.")),
     snd (unload_model id w)).
Proof.
  intros Hco.
  assert (unload_model id w =
    (Ok tt,
     set_caches (delete id (loaded_models w)) (delete id (model_metadata w)) w))
    as Hrun.
  { unfold unload_model. munfold.
    destruct (loaded_models w !! id) as [m|] eqn:Hm; simpl.
    - destruct (model_metadata w !! id) as [md|] eqn:Hmd; [done|].
      exfalso. apply (not_elem_of_dom (model_metadata w) id) in Hmd.
      apply Hmd. rewrite <- Hco. apply elem_of_dom. eauto.
    - assert (model_metadata w !! id = None) as Hmd.
      { apply (not_elem_of_dom (model_metadata w) id). rewrite <- Hco.
        by apply not_elem_of_dom. }
      rewrite (delete_id _ _ Hm), (delete_id _ _ Hmd). by destruct w. }
  split; [exact Hrun|]. split.
  - intros Hm. unfold unload_model. munfold. by rewrite Hm.
  - intros input. rewrite Hrun. simpl.
    apply predict_not_loaded. simpl. apply lookup_delete_eq.
Qed.

Lemma unload_model_spec_witness :
  co_indexed Example.prepared /\
  fst (predict Example.env "m_v1_20240301_120005" PyNone
         (snd (unload_model "m_v1_20240301_120005" Example.prepared))) =
  Raise (ValueError
    "Model m_v1_20240301_120005 not loaded. Call load_model_for_inference first.").
Proof.
  assert (co_indexed Example.prepared) as Hco by (vm_compute; reflexivity).
  split; [exact Hco|].
  destruct (unload_model_spec Example.env "m_v1_20240301_120005"
              Example.prepared Hco) as (_ & _ & Hpredict).
  by rewrite Hpredict.
Defined.

(** [clear_cache] never raises and empties both caches: [get_loaded_models]
    is then empty and [predict] fails with the "not loaded" error for every
    identifier, while the registry and durable storage are untouched. *)
Theorem clear_cache_spec env (w : world) :
  clear_cache w = (Ok tt, set_caches ∅ ∅ w) /\
  get_loaded_models (snd (clear_cache w)) = [] /\
  forall id input,
    predict env id input (snd (clear_cache w)) =
    (Raise (ValueError ("Model " +:+ id +:+
                        " not loaded. Call load_model_for_inference first.")),
     snd (clear_cache w)).
Proof.
  split; [done|]. split.
  - unfold get_loaded_models. simpl. by rewrite map_to_list_empty.
  - intros id input. by apply predict_not_loaded.
Qed.

(** [get_loaded_models] lists each cached identifier once, and nothing
    else. *)
Theorem get_loaded_models_spec (w : world) :
  NoDup (get_loaded_models w) /\
  forall id, In id (get_loaded_models w) <-> is_Some (loaded_models w !! id).
Proof.
  unfold get_loaded_models. split.
  - apply NoDup_fst_map_to_list.
  - intros id. rewrite <- list_elem_of_In, list_elem_of_fmap. split.
    + intros [[k m] [-> Hin]]. apply elem_of_map_to_list in Hin. by eexists.
    + intros [m Hm]. exists (id, m). split; [done|].
      by apply elem_of_map_to_list.
Qed.

Lemma predict_ok env id x w r w' :
  predict env id x w = (Ok r, w') ->
  exists m md,
    loaded_models w !! id = Some m /\ model_metadata w !! id = Some md /\
    w' = set_ticks (S (ticks w)) w /\
    result_model_id r = id /\
    result_model_name r = model_name md /\
    result_model_version r = version md /\
    timestamp r = isoformat (clock env (ticks w)) /\
    (model_type md <> "sklearn" -> probabilities r = None).
Proof.
  unfold predict, now. munfold. intros H.
  destruct (loaded_models w !! id) as [m|]; [|done].
  destruct (model_metadata w !! id) as [md|]; [|done].
  destruct (run_model env m md x w) as [[[out probs]|e] w1] eqn:E;
    apply run_model_world in E as ->; [|done].
  exists m, md. mcases; done.
Qed.

(** A successful [predict] reads the clock once and changes nothing else;
    its result carries the identifier asked for, the name and version of the
    cached metadata and the clock reading, and it has probabilities only
    when the cached model type is [sklearn]. *)
Theorem predict_result_fields env id input w r w' :
  predict env id input w = (Ok r, w') ->
  exists md,
    model_metadata w !! id = Some md /\
    w' = set_ticks (S (ticks w)) w /\
    result_model_id r = id /\
    result_model_name r = model_name md /\
    result_model_version r = version md /\
    timestamp r = isoformat (clock env (ticks w)) /\
    (model_type md <> "sklearn" -> probabilities r = None).
Proof.
  intros (m & md & _ & H)%predict_ok. by exists md.
Qed.

Lemma predict_result_fields_witness :
  exists md,
    model_metadata Example.scorer_loaded !! "score_v1_20240301_120005" = Some md /\
    result_model_name Example.score = model_name md /\
    (model_type md <> "sklearn" -> probabilities Example.score = None).
Proof.
  destruct (predict_result_fields Example.env "score_v1_20240301_120005" PyNone
              Example.scorer_loaded Example.score
              (snd (predict Example.env "score_v1_20240301_120005" PyNone
                      Example.scorer_loaded)))
    as (md & Hmd & _ & _ & Hname & _ & _ & Hprobs).
  - refine (run_eq (predict Example.env "score_v1_20240301_120005" PyNone)
              Example.scorer_loaded _ _).
    vm_compute. reflexivity.
  - exists md. repeat split; assumption.
Defined.

Lemma batch_predict_cons env id x inputs w :
  batch_predict env id (x :: inputs) w =
  match predict env id x w with
  | (Ok r, w1) =>
      match batch_predict env id inputs w1 with
      | (Ok rs, w2) => (Ok (r :: rs), w2)
      | (Raise e, w2) => (Raise e, w2)
      end
  | (Raise e, w1) => (Raise e, w1)
  end.
Proof. done. Qed.

Lemma batch_predict_run env id inputs w res w' :
  batch_predict env id inputs w = (res, w') ->
  registry w' = registry w /\ files w' = files w /\
  dirs w' = dirs w /\ caches w' = caches w /\
  match res with
  | Ok rs =>
      fst (predict_each env id inputs w) = map Ok rs /\
      length rs = length inputs /\
      Forall (fun r => result_model_id r = id) rs /\
      w' = set_ticks (ticks w + length inputs) w
  | Raise e =>
      exists before rest,
        fst (predict_each env id inputs w) =
          (map Ok before ++ Raise e :: rest)%list
  end.
Proof.
  revert w res w'. induction inputs as [|x inputs IH]; intros w res w' Hrun.
  - simpl in Hrun. unfold ret in Hrun. injection Hrun as <- <-.
    repeat split; try done. rewrite Nat.add_0_r. by destruct w.
  - rewrite batch_predict_cons in Hrun. simpl.
    destruct (predict env id x w) as [[r|e] w1] eqn:E.
    + pose proof (predict_ok _ _ _ _ _ _ E)
        as (m & md & _ & _ & -> & Hid & _).
      destruct (batch_predict env id inputs (set_ticks (S (ticks w)) w))
        as [res1 w2] eqn:Hrest.
      apply IH in Hrest as (Hr & Hf & Hd & Hc & Hres).
      destruct (predict_each env id inputs (set_ticks (S (ticks w)) w))
        as [outs w3].
      change (caches (set_ticks (S (ticks w)) w)) with (caches w) in Hc.
      simpl in Hr, Hf, Hd, Hres |- *.
      destruct res1 as [rs|e]; simplify_eq.
      * destruct Hres as (-> & Hlen & Hids & ->).
        repeat split; try done; try (unfold caches; congruence).
        -- simpl. by rewrite Hlen.
        -- by constructor.
        -- unfold set_ticks. simpl. f_equal. lia.
      * destruct Hres as (before & rest & Hpe).
        repeat split; try done; try (unfold caches; congruence).
        exists (r :: before), rest.
        simpl. by rewrite Hpe.
    + simplify_eq. pose proof (predict_world _ _ _ _ _ _ E) as Hw.
      destruct (predict_each env id inputs w') as [outs w2]. simpl.
      split; [by destruct Hw as [->| ->]|].
      split; [by destruct Hw as [->| ->]|].
      split; [by destruct Hw as [->| ->]|].
      split; [by destruct Hw as [->| ->]|].
      by exists [], outs.
Qed.

(** [batch_predict] is all or nothing.  An empty batch gives the empty list,
    also for a model that is not loaded.  A successful batch has one result
    per input, in order, each the result of [predict] on that input, and
    has read the clock once per input.  A failed batch ends with the
    exception of the first input that [predict] fails on.  In every case the
    registry, durable storage and the caches are left as they are. *)
Theorem batch_predict_spec env (id : string) (inputs : list pyval) (w : world) :
  let run := batch_predict env id inputs w in
  batch_predict env id [] w = (Ok [], w) /\
  (forall rs,
     fst run = Ok rs ->
     fst (predict_each env id inputs w) = map Ok rs /\
     length rs = length inputs /\
     Forall (fun r => result_model_id r = id) rs /\
     snd run = set_ticks (ticks w + length inputs) w) /\
  (forall e,
     fst run = Raise e ->
     exists before rest,
       fst (predict_each env id inputs w) =
         (map Ok before ++ Raise e :: rest)%list) /\
  (loaded_models w !! id = None -> inputs <> [] ->
   run =
   (Raise (ValueError ("Model " +:+ id +:+
                       " not loaded. Call load_model_for_inference first.")),
    w)) /\
  registry (snd run) = registry w /\ files (snd run) = files w /\
  dirs (snd run) = dirs w /\ caches (snd run) = caches w.
Proof.
  intros run.
  destruct (batch_predict_run env id inputs w (fst run) (snd run))
    as (Hr & Hf & Hd & Hc & Hres);
    [subst run; by destruct (batch_predict env id inputs w)|].
  split; [done|]. split; [|split; [|split]].
  - intros rs Hrs. by rewrite Hrs in Hres.
  - intros e He. by rewrite He in Hres.
  - intros Hnone Hne. unfold run. destruct inputs as [|x inputs]; [done|].
    simpl. unfold bind at 1. by rewrite (predict_not_loaded _ _ _ _ Hnone).
  - done.
Qed.

Lemma batch_predict_spec_witness :
  exists rs,
    fst (batch_predict Example.env "m_v1_20240301_120005" Example.inputs
           Example.prepared) = Ok rs /\
    length rs = 2 /\
    fst (batch_predict Example.env "m_v1_20240301_120005" Example.inputs
           Example.saved) =
    Raise (ValueError
      "Model m_v1_20240301_120005 not loaded. Call load_model_for_inference first.").
Proof.
  destruct (fst (batch_predict Example.env "m_v1_20240301_120005"
                   Example.inputs Example.prepared)) as [rs|e] eqn:Hrun;
    [|exfalso; vm_compute in Hrun; discriminate].
  exists rs. split; [reflexivity|].
  destruct (batch_predict_spec Example.env "m_v1_20240301_120005"
              Example.inputs Example.prepared) as (_ & Hok & _).
  destruct (batch_predict_spec Example.env "m_v1_20240301_120005"
              Example.inputs Example.saved) as (_ & _ & _ & Hnot_loaded & _).
  split.
  - apply (Hok rs Hrun).
  - rewrite Hnot_loaded; [reflexivity|vm_compute; reflexivity|discriminate].
Defined.

(** ** What a restarted manager sees *)









(** ** Looking a model up *)

Lemma load_model_ok id w m md w' :
  load_model id w = (Ok (m, md), w') ->
  exists name info,
    find_model id (registry w) = Some (name, info) /\
    files w !! entry_metadata_path info = Some (MetadataDoc md) /\
    (exists fmt, files w !! entry_file_path info = Some (Artifact fmt m)).
Proof.
  unfold load_model, path_exists, read_metadata, read_artifact, read_file,
    not_found.
  munfold. intros H.
  destruct (find_model id (registry w)) as [[name info]|]; [|done].
  exists name, info. split; [done|]. mcases; eauto.
Qed.

(** [get_model_info] reads and never writes.  It fails on an identifier that
    is not registered with the error [load_model] gives; for a registered
    identifier whose metadata document is missing it answers with an empty
    metadata where [load_model] raises; and whenever [load_model] succeeds
    it succeeds too, with the name the identifier is registered under, its
    registry entry and the metadata document that [load_model] decoded. *)
Theorem get_model_info_spec (id : string) (w : world) :
  snd (get_model_info id w) = w /\
  (find_model id (registry w) = None ->
   fst (get_model_info id w) =
     Raise (ValueError ("Model " +:+ id +:+ " not found in registry")) /\
   fst (load_model id w) =
     Raise (ValueError ("Model " +:+ id +:+ " not found in registry"))) /\
  (forall name info,
     find_model id (registry w) = Some (name, info) ->
     is_file w (entry_metadata_path info) = false ->
     is_dir w (entry_metadata_path info) = false ->
     fst (get_model_info id w) =
       Ok {| info_model_id := id; info_model_name := name;
             info_registry_info := info; info_metadata := None |} /\
     fst (load_model id w) =
       Raise (FileNotFoundError "Metadata file not found"
                (entry_metadata_path info))) /\
  (forall m md,
     fst (load_model id w) = Ok (m, md) ->
     exists name info,
       find_model id (registry w) = Some (name, info) /\
       fst (get_model_info id w) =
         Ok {| info_model_id := id; info_model_name := name;
               info_registry_info := info;
               info_metadata := Some (MetadataDoc md) |}).
Proof.
  split; [|split; [|split]].
  - unfold get_model_info, path_exists, read_json, read_file, not_found.
    munfold. mcases; done.
  - intros Hnone. unfold get_model_info, load_model, not_found. munfold.
    by rewrite Hnone.
  - intros name info Hfind Hfile Hdir.
    unfold get_model_info, load_model, path_exists. munfold.
    by rewrite Hfind, Hfile, Hdir.
  - intros m md Hload.
    destruct (load_model id w) as [r w'] eqn:E. simpl in Hload. subst r.
    apply load_model_ok in E as (name & info & Hfind & Hmd & _).
    exists name, info. split; [done|].
    unfold get_model_info, path_exists, read_json, read_file, is_file.
    munfold. rewrite Hfind. simpl. mcases; congruence.
Qed.

Lemma get_model_info_spec_witness :
  fst (get_model_info "m_v1_20240301_120005" Example.saved) =
    Ok {| info_model_id := "m_v1_20240301_120005"; info_model_name := "m";
          info_registry_info := Example.saved_entry;
          info_metadata := Some (MetadataDoc Example.saved_metadata) |} /\
  fst (get_model_info "m_v1_20240301_120005" Example.files_lost) =
    Ok {| info_model_id := "m_v1_20240301_120005"; info_model_name := "m";
          info_registry_info := Example.saved_entry;
          info_metadata := None |}.
Proof.
  destruct (get_model_info_spec "m_v1_20240301_120005" Example.saved)
    as (_ & _ & _ & Hloaded).
  destruct (get_model_info_spec "m_v1_20240301_120005" Example.files_lost)
    as (_ & _ & Hmissing & _).
  split.
  - destruct (Hloaded Example.classifier Example.saved_metadata)
      as (name & info & Hfind & Hinfo); [vm_compute; reflexivity|].
    assert (find_model "m_v1_20240301_120005" (registry Example.saved) =
            Some ("m", Example.saved_entry)) as Hsaved
      by (vm_compute; reflexivity).
    rewrite Hsaved in Hfind. injection Hfind as <- <-. exact Hinfo.
  - apply (Hmissing "m" Example.saved_entry); vm_compute; reflexivity.
Defined.

(** ** Listing *)

Lemma dict_get_listing (n : string) (reg : registry_t) :
  dict_get n (map (fun nm => (fst nm, map snd (snd nm))) reg) =
  map snd <$> dict_get n reg.
Proof.
  induction reg as [|[k ms] reg IH]; [done|]. simpl.
  destruct (decide (k = n)); [done|apply IH].
Qed.

(** [list_models] without a name, or with the empty string, gives for every
    registered name, in the order of the registry, the entries registered
    under it, inactive ones included, one per identifier.  With a name it
    gives that name alone with the same list, and the empty list for a name
    that is not registered. *)
Theorem list_models_spec (w : world) :
  list_models None w = list_models (Some "") w /\
  dict_keys (list_models None w) = dict_keys (registry w) /\
  (forall n models,
     dict_get n (registry w) = Some models ->
     exists l,
       dict_get n (list_models None w) = Some l /\
       length l = length (dict_keys models) /\
       (forall id info, In (id, info) models -> In info l) /\
       (n <> "" -> list_models (Some n) w = [(n, l)])) /\
  (forall n,
     n <> "" -> dict_get n (registry w) = None ->
     list_models (Some n) w = [(n, [])] /\
     dict_get n (list_models None w) = None).
Proof.
  split; [done|]. split; [|split].
  - unfold list_models, dict_keys. rewrite map_map. done.
  - intros n models Hget. exists (map snd models).
    split; [|split; [|split]].
    + unfold list_models. by rewrite dict_get_listing, Hget.
    + unfold dict_keys. by rewrite !length_map.
    + intros id info Hin. apply in_map_iff. by exists (id, info).
    + intros Hn. destruct n as [|c n]; [done|]. simpl. by rewrite Hget.
  - intros n Hn Hget. split.
    + destruct n as [|c n]; [done|]. simpl. by rewrite Hget.
    + unfold list_models. by rewrite dict_get_listing, Hget.
Qed.

(** ** [cleanup_old_models] outside the usual range *)

(** [cleanup_old_models] does nothing and returns the empty list for a name
    that is not registered and when there are no more active entries than
    versions to keep.  A negative [keep_versions] does not delete
    everything: with [keep_versions = -j] the slice [sorted_models[-j:]]
    holds the [j] oldest active entries, all of them when there are fewer,
    and exactly these are attempted, so that the newest [n - j] are kept. *)
Theorem cleanup_old_models_edges env (name : string) (keep_versions : Z)
    (w : world) :
  (dict_get name (registry w) = None ->
   cleanup_old_models env name keep_versions w = (Ok [], w)) /\
  (forall models,
     dict_get name (registry w) = Some models ->
     (Z.of_nat (length (active_models models)) <= keep_versions)%Z ->
     cleanup_old_models env name keep_versions w = (Ok [], w)) /\
  (forall models,
     dict_get name (registry w) = Some models ->
     (keep_versions < 0)%Z ->
     let n := length (active_models models) in
     let j := Nat.min n (Z.to_nat (- keep_versions)) in
     let newest_first := sorted_models (active_models models) in
     let old := models_to_delete models keep_versions in
     old = skipn (n - j) newest_first /\
     length old = j /\
     (forall x y, In x (firstn (n - j) newest_first) -> In y old ->
                  not_older x y) /\
     fst (cleanup_old_models env name keep_versions w) =
       Ok (map attempt_id
             (List.filter succeeded (deletions env (map fst old) w)))).
Proof.
  split; [|split].
  - intros Hget. unfold cleanup_old_models. by rewrite bind_get, Hget.
  - intros models Hget Hle. unfold cleanup_old_models.
    rewrite bind_get, Hget.
    by destruct (Z.leb_spec (Z.of_nat (length (active_models models)))
                   keep_versions); [|lia].
  - intros models Hget Hneg n j newest_first old.
    assert (length newest_first = n) as Hlen.
    { unfold newest_first, n.
      by rewrite (Permutation_length (sorted_models_Permutation _)). }
    assert (old = skipn (n - j) newest_first) as Hold.
    { unfold old, models_to_delete, slice_from. fold newest_first.
      destruct (Z.leb_spec 0 keep_versions) as [?|_]; [lia|].
      f_equal. rewrite Hlen. unfold j. lia. }
    split; [exact Hold|]. split; [|split].
    + rewrite Hold, length_skipn, Hlen. unfold j. lia.
    + intros x y Hx Hy. rewrite Hold in Hy.
      apply (StronglySorted_app_1_elem_of not_older
               (firstn (n - j) newest_first) (skipn (n - j) newest_first)).
      * rewrite firstn_skipn. apply sorted_models_sorted.
      * by apply list_elem_of_In.
      * by apply list_elem_of_In.
    + unfold cleanup_old_models. rewrite bind_get, Hget.
      destruct (Z.leb_spec (Z.of_nat (length (active_models models)))
                  keep_versions) as [?|_]; [lia|].
      apply (cleanup_loop_spec env (map fst old) [] w).
Qed.

Lemma cleanup_old_models_edges_witness :
  length (models_to_delete Example.seven_models (-2)) = 2 /\
  fst (cleanup_old_models Example.ticking_env "m" (-2) Example.seven_versions)
    = Ok ["m_v2_20240301_120002"; "m_v1_20240301_120000"].
Proof.
  destruct (cleanup_old_models_edges Example.ticking_env "m" (-2)
              Example.seven_versions) as (_ & _ & Hneg).
  destruct (Hneg Example.seven_models) as (_ & Hlen & _ & Hrun).
  - vm_compute. reflexivity.
  - reflexivity.
  - split; [exact Hlen|]. rewrite Hrun. vm_compute. reflexivity.
Defined.

(** ** Training data that cannot be hashed *)

(** A dictionary has a [values] attribute, a method, which has no
    [tobytes]: [save_model] given a dictionary as training data never
    returns an identifier, and what it raises leaves the registry in memory
    and the registry document as they were.  Where no storage call fails
    and the model directory can be made, it raises [AttributeError] after
    the artifact has been written. *)
Theorem save_model_dict_training_data env (m : model) (name ver : string)
    (metrics : dict scalar) (items : list (string * pyval))
    (params : option (dict json)) (type_hint : option string) (w : world) :
  let run :=
    save_model env m name ver metrics (PyDict items) params type_hint w in
  (exists e, fst run = Raise e) /\
  registry (snd run) = registry w /\
  files (snd run) !! registry_file env = files w !! registry_file env.
Proof.
  intros run. subst run.
  unfold save_model, _generate_model_id, stat_size, mkdir, write_file,
    read_file, guard_io, now.
  munfold. simpl.
  set (id0 := name +:+ "_v" +:+ ver +:+ "_" +:+
              strftime_compact (clock env (ticks w))).
  assert (Hreg : forall x,
    registry_file env <> path_join (path_join (base_path env) id0) x)
    by (intros x H; symmetry in H; by apply path_join2_ne in H).
  mcases; simpl; (split; [by eexists|]); (split; [done|]);
    by rewrite ?lookup_insert_ne by done.
Qed.

Lemma save_model_dict_training_data_witness :
  fst (save_model Example.env Example.classifier "m" "1" []
         (PyDict [("x", PyList [])]) None None (Example.fresh Example.env))
    = Raise (AttributeError "tobytes") /\
  registry
    (snd (save_model Example.env Example.classifier "m" "1" []
            (PyDict [("x", PyList [])]) None None (Example.fresh Example.env)))
    = [].
Proof.
  split; [vm_compute; reflexivity|].
  destruct (save_model_dict_training_data Example.env Example.classifier
              "m" "1" [] [("x", PyList [])] None None
              (Example.fresh Example.env)) as (_ & Hreg & _).
  rewrite Hreg. vm_compute. reflexivity.
Defined.

(** ** Where [save_model] puts things *)

Lemma save_model_ok env m name ver metrics td params hint w id w' :
  save_model env m name ver metrics td params hint w = (Ok id, w') ->
  let mtype := default (_detect_model_type m) hint in
  let dir := path_join (base_path env) id in
  let fpath := path_join dir (id +:+ saved_suffix mtype) in
  let mpath := path_join dir (id +:+ "_metadata.json") in
  exists hash gpu,
    let md :=
      {| model_id := id; model_name := name; model_type := mtype;
         version := ver;
         training_date := isoformat (clock env (S (ticks w)));
         performance_metrics := metrics;
         parameters := default [] params;
         data_hash := hash; file_path := fpath;
         file_size := st_size env (Artifact (format_of mtype) m);
         gpu_compatible := gpu;
         framework_version := get_version env mtype;
         python_version := get_version env "python";
         dependencies := framework_versions env |} in
    let info :=
      {| entry_version := ver;
         entry_training_date := isoformat (clock env (S (ticks w)));
         entry_performance_metrics := metrics;
         entry_file_path := fpath;
         entry_metadata_path := mpath;
         entry_active := Some true |} in
    id = name +:+ "_v" +:+ ver +:+ "_" +:+
         strftime_compact (clock env (ticks w)) /\
    Ok hash = training_data_hash env td /\
    (gpu = true ->
     mtype = "pytorch" /\ parameters_is_cuda m = Some (Some true)) /\
    registry w' = registry_add name id info (registry w) /\
    files w' =
      <[registry_file env := RegistryDoc (registry w')]>
        (<[mpath := MetadataDoc md]>
           (<[fpath := Artifact (format_of mtype) m]> (files w))) /\
    dirs w' = {[ dir ]} ∪ dirs w /\
    ticks w' = S (S (ticks w)) /\
    caches w' = caches w.
Proof.
  intros Hsave mtype dir fpath mpath.
  unfold save_model, _generate_model_id, _save_registry, stat_size, mkdir,
    write_file, read_file, guard_io, now in Hsave.
  munfold. simpl in Hsave.
  unfold fpath, mpath, dir, saved_suffix, format_of, mtype.
  mcases;
    repeat match goal with
    | H : <[_:=_]> _ !! _ = Some _ |- _ =>
        rewrite lookup_insert_eq in H; simplify_eq
    end;
    eexists _, _; simpl;
    (split; [reflexivity|]); (split; [try (symmetry; eassumption)|]);
    repeat split; try done; try congruence.
Qed.

Lemma registry_add_get name id info reg :
  dict_get id (default [] (dict_get name (registry_add name id info reg))) =
  Some info.
Proof.
  unfold registry_add. rewrite dict_get_set_eq. simpl. apply dict_get_set_eq.
Qed.

(** A successful [save_model] returns the identifier made of the name, the
    version and the first of its two clock readings.  The directory of that
    name under the base path then holds the artifact, in the format and with
    the suffix of the model type, and the metadata document, whose training
    date is the second clock reading; the registry has, under the name and
    the identifier, an active entry with these two paths and that training
    date.  Apart from the registry document nothing else on storage is
    written, and the inference cache is left alone. *)
Theorem save_model_layout env (m : model) (name ver : string)
    (metrics : dict scalar) (training_data : pyval)
    (params : option (dict json)) (type_hint : option string)
    (w w' : world) (id : string) :
  save_model env m name ver metrics training_data params type_hint w
    = (Ok id, w') ->
  let mtype := default (_detect_model_type m) type_hint in
  let dir := path_join (base_path env) id in
  let fpath := path_join dir (id +:+ saved_suffix mtype) in
  let mpath := path_join dir (id +:+ "_metadata.json") in
  id = name +:+ "_v" +:+ ver +:+ "_" +:+
       strftime_compact (clock env (ticks w)) /\
  dir ∈ dirs w' /\
  files w' !! fpath = Some (Artifact (format_of mtype) m) /\
  (exists md info,
     files w' !! mpath = Some (MetadataDoc md) /\
     model_id md = id /\ file_path md = fpath /\
     training_date md = isoformat (clock env (S (ticks w))) /\
     dict_get id (default [] (dict_get name (registry w'))) = Some info /\
     entry_file_path info = fpath /\ entry_metadata_path info = mpath /\
     entry_training_date info = training_date md /\
     entry_version info = ver /\ entry_active info = Some true) /\
  (forall p,
     p <> fpath -> p <> mpath -> p <> registry_file env ->
     files w' !! p = files w !! p) /\
  caches w' = caches w.
Proof.
  intros Hsave mtype dir fpath mpath.
  destruct (save_model_ok _ _ _ _ _ _ _ _ _ _ _ Hsave)
    as (hash & gpu & Hid & _ & _ & Hreg & Hfiles & Hdirs & _ & Hcaches).
  fold mtype dir fpath mpath in Hreg, Hfiles, Hdirs.
  assert (registry_file env <> mpath) as Hreg_meta
    by (intros H; symmetry in H; by apply path_join2_ne in H).
  assert (registry_file env <> fpath) as Hreg_art
    by (intros H; symmetry in H; by apply path_join2_ne in H).
  assert (mpath <> fpath) as Hmeta_art.
  { intros H%path_join_inj_name%append_inj_r. unfold saved_suffix in H.
    by case_decide. }
  split; [done|]. split; [rewrite Hdirs; apply elem_of_union_l; by apply elem_of_singleton|]. split.
  { rewrite Hfiles.
    by rewrite lookup_insert_ne, lookup_insert_ne, lookup_insert_eq. }
  split.
  { eexists _, _. split.
    { rewrite Hfiles. by rewrite lookup_insert_ne, lookup_insert_eq. }
    rewrite Hreg, registry_add_get. by repeat split. }
  split; [|done].
  intros p Hp1 Hp2 Hp3. rewrite Hfiles.
  by rewrite !lookup_insert_ne.
Qed.

Lemma save_model_layout_witness :
  files Example.saved
    !! ["models"; "m_v1_20240301_120005"; "m_v1_20240301_120005.pkl"]
  = Some (Artifact Joblib Example.classifier) /\
  files Example.saved
    !! ["models"; "m_v1_20240301_120005"; "m_v1_20240301_120005_metadata.json"]
  = Some (MetadataDoc Example.saved_metadata).
Proof.
  destruct (save_model_layout Example.env Example.classifier "m" "1"
              [("accuracy", PyFloat 1)] PyNone None None
              (Example.fresh Example.env) Example.saved
              "m_v1_20240301_120005")
    as (_ & _ & Hart & _).
  - refine (run_eq Example.save_classifier (Example.fresh Example.env) _ _).
    vm_compute. reflexivity.
  - split; [exact Hart|]. vm_compute. reflexivity.
Defined.

(** ** A manager made for one call *)

Lemma load_model_found id w name info m md :
  find_model id (registry w) = Some (name, info) ->
  files w !! entry_metadata_path info = Some (MetadataDoc md) ->
  files w !! entry_file_path info =
    Some (Artifact (format_of (model_type md)) m) ->
  load_model id w = (Ok (m, md), w).
Proof.
  intros Hfind Hmd Hart.
  unfold load_model, path_exists, read_metadata, read_artifact, read_file,
    is_file.
  munfold. rewrite Hfind. simpl.
  mcases; try done; try congruence.
  all: match goal with
       | H : format_eqb ?f ?f = false |- _ =>
           by rewrite format_eqb_refl in H
       end.
Qed.




Lemma length_append (a b : string) :
  String.length (a +:+ b) = String.length a + String.length b.
Proof.
  induction a as [|c a IH]; [done|].
  change (S (String.length (a +:+ b)) = S (String.length a + String.length b)).
  by rewrite IH.
Qed.







(** ** Names of features *)

Lemma to_lower_not_upper (c : ascii) : is_upper (to_lower c) = false.
Proof. by destruct c as [[] [] [] [] [] [] [] []]. Qed.

Lemma to_lower_id (c : ascii) : is_upper c = false -> to_lower c = c.
Proof. unfold to_lower. by intros ->. Qed.

Lemma str_lower_lowercase (s : string) : lowercase_only (str_lower s) = true.
Proof.
  induction s as [|c s IH]; [done|]. simpl.
  by rewrite to_lower_not_upper, IH.
Qed.

Lemma str_lower_id (s : string) : lowercase_only s = true -> str_lower s = s.
Proof.
  induction s as [|c s IH]; [done|]. simpl.
  intros [Hc Hs]%andb_prop. apply negb_true_iff in Hc.
  by rewrite to_lower_id, IH.
Qed.

Lemma sub_capitalised_cons (in_run : bool) (c0 : ascii) (rest : string) :
  sub_capitalised in_run (String c0 rest) =
  if in_run && is_lower c0 then String c0 (sub_capitalised true rest)
  else
    match rest with
    | String c1 (String c2 rest2) =>
        if negb (Ascii.eqb c0 "010"%char) && is_upper c1 && is_lower c2
        then String c0 (String "_" (String c1 (String c2
               (sub_capitalised true rest2))))
        else String c0 (sub_capitalised false rest)
    | _ => String c0 (sub_capitalised false rest)
    end.
Proof. done. Qed.

Lemma sub_hump_cons (c0 : ascii) (rest : string) :
  sub_hump (String c0 rest) =
  match rest with
  | String c1 rest1 =>
      if (is_lower c0 || is_digit c0) && is_upper c1
      then String c0 (String "_" (String c1 (sub_hump rest1)))
      else String c0 (sub_hump rest)
  | EmptyString => String c0 EmptyString
  end.
Proof. done. Qed.

Lemma lowercase_only_cons (c : ascii) (s : string) :
  lowercase_only (String c s) = true ->
  is_upper c = false /\ lowercase_only s = true.
Proof.
  simpl. intros [Hc Hs]%andb_prop. by apply negb_true_iff in Hc.
Qed.

Lemma sub_capitalised_id (in_run : bool) (s : string) :
  lowercase_only s = true -> sub_capitalised in_run s = s.
Proof.
  revert in_run. induction s as [|c0 s IH]; intros in_run; [done|].
  intros [_ Hs]%lowercase_only_cons. rewrite sub_capitalised_cons.
  destruct (in_run && is_lower c0); [by rewrite IH|].
  destruct s as [|c1 [|c2 s2]]; [done|by rewrite IH|].
  destruct (lowercase_only_cons _ _ Hs) as [-> _].
  rewrite andb_false_r. simpl andb. cbv iota. by rewrite IH.
Qed.

Lemma sub_hump_id (s : string) : lowercase_only s = true -> sub_hump s = s.
Proof.
  induction s as [|c0 s IH]; [done|].
  intros [_ Hs]%lowercase_only_cons. rewrite sub_hump_cons.
  destruct s as [|c1 s1]; [done|].
  destruct (lowercase_only_cons _ _ Hs) as [-> _].
  rewrite andb_false_r. by rewrite IH.
Qed.

Lemma ascii_only_cons (c : ascii) (s : string) :
  ascii_only (String c s) = true <->
  (nat_of_ascii c <? 128)%nat = true /\ ascii_only s = true.
Proof. simpl. apply andb_true_iff. Qed.

Lemma to_lower_ascii (c : ascii) :
  (nat_of_ascii c <? 128)%nat = true ->
  (nat_of_ascii (to_lower c) <? 128)%nat = true.
Proof. destruct c as [[] [] [] [] [] [] [] []]; by vm_compute. Qed.

Lemma str_lower_ascii (s : string) :
  ascii_only s = true -> ascii_only (str_lower s) = true.
Proof.
  induction s as [|c s IH]; [done|]. cbn [str_lower].
  rewrite !ascii_only_cons. intros [Hc Hs]. split; [by apply to_lower_ascii|auto].
Qed.

Lemma sub_hump_ascii (s : string) :
  ascii_only s = true -> ascii_only (sub_hump s) = true.
Proof.
  remember (String.length s) as n eqn:Hn.
  revert s Hn. induction (lt_wf n) as [n _ IH]. intros s -> Hs.
  destruct s as [|c0 rest]; [done|]. rewrite sub_hump_cons.
  apply ascii_only_cons in Hs as [Hc0 Hrest].
  destruct rest as [|c1 rest1]; [by apply ascii_only_cons|].
  assert (ascii_only (sub_hump (String c1 rest1)) = true) as Hnext
    by (apply (IH (String.length (String c1 rest1))); simpl; [lia|done..]).
  destruct ((is_lower c0 || is_digit c0) && is_upper c1);
    [|by apply ascii_only_cons].
  apply ascii_only_cons in Hrest as [Hc1 Hrest1].
  rewrite !ascii_only_cons. repeat split; try done.
  apply (IH (String.length rest1)); simpl; [lia|done..].
Qed.

Lemma sub_capitalised_ascii (in_run : bool) (s : string) :
  ascii_only s = true -> ascii_only (sub_capitalised in_run s) = true.
Proof.
  remember (String.length s) as n eqn:Hn.
  revert in_run s Hn. induction (lt_wf n) as [n _ IH]. intros in_run s -> Hs.
  destruct s as [|c0 rest]; [done|]. rewrite sub_capitalised_cons.
  apply ascii_only_cons in Hs as [Hc0 Hrest].
  assert (forall b, ascii_only (String c0 (sub_capitalised b rest)) = true)
    as Hnext.
  { intros b. apply ascii_only_cons. split; [done|].
    apply (IH (String.length rest)); simpl; [lia|done..]. }
  destruct (in_run && is_lower c0); [apply Hnext|].
  destruct rest as [|c1 [|c2 rest2]]; [apply Hnext..|].
  destruct (negb (Ascii.eqb c0 "010"%char) && is_upper c1 && is_lower c2);
    [|apply Hnext].
  apply ascii_only_cons in Hrest as [Hc1 Hrest].
  apply ascii_only_cons in Hrest as [Hc2 Hrest2].
  rewrite !ascii_only_cons. repeat split; try done.
  apply (IH (String.length rest2)); simpl; [lia|done..].
Qed.

(** On a name of ASCII characters, [camel_to_snake_case] gives a name of
    ASCII characters without a capital letter, it leaves a name without
    capital letters as it is, and so applying it twice is applying it once.
    The names configured for the models are such names: a request may give
    each feature under the configured name itself. *)
Theorem camel_to_snake_case_spec (s : string) :
  ascii_only s = true ->
  ascii_only (camel_to_snake_case s) = true /\
  lowercase_only (camel_to_snake_case s) = true /\
  (lowercase_only s = true -> camel_to_snake_case s = s) /\
  camel_to_snake_case (camel_to_snake_case s) = camel_to_snake_case s /\
  (forall model_name expected,
     In (model_name, expected) MODEL_FEATURE_CONFIGS ->
     In s expected -> camel_to_snake_case s = s).
Proof.
  intros Hascii.
  assert (forall t, lowercase_only t = true -> camel_to_snake_case t = t)
    as Hid.
  { intros t Ht. unfold camel_to_snake_case.
    by rewrite sub_capitalised_id, sub_hump_id, str_lower_id. }
  split.
  { unfold camel_to_snake_case.
    by apply str_lower_ascii, sub_hump_ascii, sub_capitalised_ascii. }
  split; [apply str_lower_lowercase|]. split; [apply Hid|]. split.
  - apply Hid. apply str_lower_lowercase.
  - intros model_name expected Hin Hs. apply Hid.
    assert (forallb (fun kv => forallb lowercase_only (snd kv))
              MODEL_FEATURE_CONFIGS = true) as Hall by (vm_compute; reflexivity).
    rewrite forallb_forall in Hall. specialize (Hall _ Hin). simpl in Hall.
    rewrite forallb_forall in Hall. by apply Hall.
Qed.

Lemma camel_to_snake_case_spec_witness :
  camel_to_snake_case "heart_rate" = "heart_rate" /\
  camel_to_snake_case "heartRate" = "heart_rate" /\
  camel_to_snake_case (camel_to_snake_case "hourOfDay") = "hour_of_day" /\
  camel_to_snake_case "userID" = "user_id".
Proof.
  split.
  { exact (proj1 (proj2 (proj2 (camel_to_snake_case_spec "heart_rate" eq_refl)))
             eq_refl). }
  split; [by vm_compute|]. split; [|by vm_compute].
  rewrite (proj1 (proj2 (proj2 (proj2
             (camel_to_snake_case_spec "hourOfDay" eq_refl))))).
  by vm_compute.
Defined.

(** ** The input vector *)

Lemma dict_get_set_ne {V} (k k' : string) (v : V) (d : dict V) :
  k <> k' -> dict_get k' (dict_set k v d) = dict_get k' d.
Proof.
  intros Hne. induction d as [|[k0 v0] d IH]; simpl.
  - by rewrite decide_False.
  - destruct (decide (k0 = k)) as [->|Hne0]; simpl.
    + by rewrite !decide_False.
    + by rewrite IH.
Qed.

(** The value a key has after a dictionary comprehension: the one of the
    last item that was given that key. *)
Lemma dict_get_comprehension {V} (key : string -> string) (raw acc : dict V)
    (f : string) :
  dict_get f (foldl (fun d kv => dict_set (key (fst kv)) (snd kv) d) acc raw) =
  match last (List.filter (fun kv => bool_decide (key (fst kv) = f)) raw) with
  | Some kv => Some (snd kv)
  | None => dict_get f acc
  end.
Proof.
  revert acc. induction raw as [|[k v] raw IH]; intros acc; [done|].
  simpl. rewrite IH. case_bool_decide as Hk; simpl.
  - destruct (List.filter _ raw) as [|kv l] eqn:Hl; simpl.
    + subst f. apply dict_get_set_eq.
    + destruct (last (kv :: l)) as [x|] eqn:E; [done|].
      by apply last_None in E.
  - destruct (last _); [done|]. by apply dict_get_set_ne.
Qed.

Lemma input_vector_values_ok rt model_name expected processed todo values :
  input_vector_values rt model_name expected processed todo = Respond values
  <->
  Forall2 (fun feature v =>
             exists val, dict_get feature processed = Some val /\
                         feature_value rt model_name feature val = Respond v)
    todo values.
Proof.
  revert values. induction todo as [|f todo IH]; intros values; simpl.
  - split; [intros [= <-]; constructor|by intros ->%Forall2_nil_inv_l].
  - split.
    + intros H. destruct (dict_get f processed) as [val|] eqn:Hval; [|done].
      destruct (feature_value rt model_name f val) as [v|] eqn:Hv; [|done].
      destruct (input_vector_values rt model_name expected processed todo)
        as [vs|] eqn:Hvs; [|done].
      simplify_eq. constructor; [eauto|]. by apply IH.
    + intros (v & vs & (val & Hval & Hv) & Hrest & ->)%Forall2_cons_inv_l.
      rewrite Hval, Hv. apply IH in Hrest. by rewrite Hrest.
Qed.

Lemma input_vector_values_status rt model_name expected processed todo s d :
  input_vector_values rt model_name expected processed todo
    = HTTPException s d -> s = 400.
Proof.
  induction todo as [|f todo IH]; simpl; [done|].
  destruct (dict_get f processed) as [val|]; [|by intros [= <- _]].
  destruct (feature_value rt model_name f val) as [v|s' d'] eqn:Hv.
  - destruct (input_vector_values rt model_name expected processed todo);
      [done|]. intros [= <- <-]. by apply IH.
  - intros [= <- <-]. unfold feature_value in Hv.
    repeat case_match; by simplify_eq.
Qed.

(** [_prepare_input_vector] answers 500 for a model name that has no
    configured features and otherwise 400 or a vector.  It gives a vector
    exactly when every configured feature, looked up under its configured
    name among the converted keys of the body, has a number, a truth value
    or a string that [float] accepts; the vector is then made of these
    values, one per configured feature and in the configured order.  Of two
    keys of the body that convert to the same name the later one counts. *)
Theorem _prepare_input_vector_spec rt (model_name : string) (raw : dict json) :
  (dict_get model_name MODEL_FEATURE_CONFIGS = None ->
   exists detail,
     _prepare_input_vector rt model_name raw = HTTPException 500 detail) /\
  (forall expected,
     dict_get model_name MODEL_FEATURE_CONFIGS = Some expected ->
     (forall a,
        _prepare_input_vector rt model_name raw = Respond a <->
        exists values,
          a = np_row rt values /\
          Forall2 (fun feature v =>
                     exists val,
                       dict_get feature (processed_features raw) = Some val /\
                       feature_value rt model_name feature val = Respond v)
            expected values) /\
     (forall s d,
        _prepare_input_vector rt model_name raw = HTTPException s d ->
        s = 400)) /\
  (forall feature,
     dict_get feature (processed_features raw) =
     snd <$> last (List.filter
                     (fun kv =>
                        bool_decide (camel_to_snake_case (fst kv) = feature))
                     raw)).
Proof.
  split; [|split].
  - intros Hnone. unfold _prepare_input_vector. rewrite Hnone. by eexists.
  - intros expected Hget.
    assert (expected <> []) as Hne.
    { assert (forallb (fun kv => negb (bool_decide (snd kv = [])))
                MODEL_FEATURE_CONFIGS = true) as Hall
        by (vm_compute; reflexivity).
      rewrite forallb_forall in Hall.
      specialize (Hall _ (dict_get_In _ _ _ Hget)). simpl in Hall.
      apply negb_true_iff, bool_decide_eq_false in Hall. exact Hall. }
    unfold _prepare_input_vector. rewrite Hget.
    destruct expected as [|f0 rest]; [done|]. split.
    + intros a. split.
      * destruct (input_vector_values _ _ _ _ _) as [values|] eqn:E; [|done].
        intros [= <-]. exists values. split; [done|].
        by apply input_vector_values_ok in E.
      * intros (values & -> & Hall).
        apply (input_vector_values_ok rt model_name (f0 :: rest)) in Hall.
        by rewrite Hall.
    + intros s d.
      destruct (input_vector_values _ _ _ _ _) as [values|s' d'] eqn:E;
        [done|].
      intros [= <- <-]. by apply input_vector_values_status in E.
  - intros feature. unfold processed_features.
    rewrite (dict_get_comprehension camel_to_snake_case raw [] feature).
    by destruct (last _).
Qed.

Lemma _prepare_input_vector_spec_witness :
  _prepare_input_vector EndpointExample.rt "stress_level_classifier" EndpointExample.body
  = Respond EndpointExample.vector /\
  (exists detail,
     _prepare_input_vector EndpointExample.rt "Stress Level Classifier" EndpointExample.body
     = HTTPException 500 detail).
Proof.
  destruct (_prepare_input_vector_spec EndpointExample.rt "Stress Level Classifier"
              EndpointExample.body) as (Hunknown & _).
  split; [vm_compute; reflexivity|].
  apply Hunknown. vm_compute. reflexivity.
Defined.

(** ** The endpoint *)

Lemma load_model_for_inference_latest name w :
  load_model_for_inference name None w =
  match load_latest_model name w with
  | (Ok (m, md), _) =>
      (Ok (model_id md),
       set_caches (<[model_id md := m]> (loaded_models w))
         (<[model_id md := md]> (model_metadata w)) w)
  | (Raise e, _) => (Raise e, w)
  end.
Proof.
  unfold load_model_for_inference. munfold.
  destruct (load_latest_model name w) as [[[m md]|e] w1] eqn:E;
    by apply load_latest_model_world in E as ->.
Qed.

Lemma perform_inference_load_error env rt body name w input e :
  _prepare_input_vector rt name body = Respond input ->
  fst (load_latest_model name w) = Raise e ->
  perform_inference env rt body name w = (http_of_exn rt name e, w).
Proof.
  intros Hinput Hload. unfold perform_inference. rewrite Hinput.
  unfold bind at 1. rewrite load_model_for_inference_latest.
  destruct (load_latest_model name w) as [[[m md]|e'] w1]; simpl in Hload;
    by simplify_eq.
Qed.

(** The status codes of [perform_inference].  A body that
    [_prepare_input_vector] refuses is answered with its 500 or 400 before
    any model is looked up, and the state is left alone.  With a valid body,
    a model name that the registry does not know, or one without an active
    entry, is answered 400, as an invalid input; a metadata document or an
    artifact that is missing is answered 404.  In these cases nothing is put
    in the cache. *)
Theorem perform_inference_status env rt (body : dict json) (name : string)
    (w : world) :
  (forall status detail,
     _prepare_input_vector rt name body = HTTPException status detail ->
     perform_inference env rt body name w = (HTTPException status detail, w)) /\
  (forall input,
     _prepare_input_vector rt name body = Respond input ->
     (dict_get name (registry w) = None ->
      perform_inference env rt body name w =
      (HTTPException 400
         ("Invalid input: Model " +:+ name +:+ " not found in registry"), w)) /\
     (forall models,
        dict_get name (registry w) = Some models ->
        active_models models = [] ->
        perform_inference env rt body name w =
        (HTTPException 400
           ("Invalid input: No active models found for " +:+ name), w)) /\
     (forall msg p,
        fst (load_latest_model name w) = Raise (FileNotFoundError msg p) ->
        perform_inference env rt body name w =
        (HTTPException 404
           ("Model file for '" +:+ name +:+
            "' not found or could not be loaded."), w))).
Proof.
  split.
  - intros status detail Hbad. unfold perform_inference. by rewrite Hbad.
  - intros input Hinput. split; [|split].
    + intros Hnone.
      rewrite (perform_inference_load_error env rt body name w input
                 (ValueError ("Model " +:+ name +:+ " not found in registry")));
        [done|done|].
      unfold load_latest_model, not_found. munfold. by rewrite Hnone.
    + intros models Hget Hnone.
      rewrite (perform_inference_load_error env rt body name w input
                 (ValueError ("No active models found for " +:+ name)));
        [done|done|].
      unfold load_latest_model. munfold. by rewrite Hget, Hnone.
    + intros msg p Hload.
      by rewrite (perform_inference_load_error env rt body name w input
                    (FileNotFoundError msg p)).
Qed.

Lemma perform_inference_status_witness :
  perform_inference Example.env EndpointExample.rt EndpointExample.incomplete_body
    "stress_level_classifier" EndpointExample.serving
  = (HTTPException 400
       "Missing required feature 'heart_rate' for model 'stress_level_classifier'. Expected features for this model: ['eeg_alpha', 'eeg_beta', 'eeg_gamma', 'eeg_theta', 'eeg_delta', 'heart_rate', 'gsr', 'skin_temp', 'activity_level', 'sleep_quality', 'hour_of_day', 'day_of_week']",
     EndpointExample.serving) /\
  perform_inference Example.env EndpointExample.rt EndpointExample.body
    "mood_score_regressor" EndpointExample.serving
  = (HTTPException 400
       "Invalid input: Model mood_score_regressor not found in registry",
     EndpointExample.serving) /\
  perform_inference Example.env EndpointExample.rt EndpointExample.body
    "stress_level_classifier" (set_files ∅ EndpointExample.serving)
  = (HTTPException 404
       "Model file for 'stress_level_classifier' not found or could not be loaded.",
     set_files ∅ EndpointExample.serving).
Proof.
  destruct (perform_inference_status Example.env EndpointExample.rt
              EndpointExample.incomplete_body "stress_level_classifier"
              EndpointExample.serving) as (Hbad & _).
  destruct (perform_inference_status Example.env EndpointExample.rt EndpointExample.body
              "mood_score_regressor" EndpointExample.serving) as (_ & Hunknown).
  destruct (perform_inference_status Example.env EndpointExample.rt EndpointExample.body
              "stress_level_classifier" (set_files ∅ EndpointExample.serving))
    as (_ & Hlost).
  split; [|split].
  - apply Hbad. vm_compute. reflexivity.
  - apply (proj1 (Hunknown EndpointExample.vector ltac:(vm_compute; reflexivity))).
    vm_compute. reflexivity.
  - apply (proj2 (proj2 (Hlost EndpointExample.vector ltac:(vm_compute; reflexivity)))
             "Metadata file not found"
             ["models"; "stress_level_classifier_v1_20240301_120005";
              "stress_level_classifier_v1_20240301_120005_metadata.json"]).
    vm_compute. reflexivity.
Defined.

Lemma http_of_exn_raises {A} rt name e (a : A) :
  http_of_exn rt name e <> Respond a.
Proof. by destruct e. Qed.

Lemma shaping_of_predict (rt : runtime) (out : PredictionResult) :
  probabilities_result rt (result_as_dict out) = Ok PyNone /\
  final_prediction_list (result_as_dict out) = Ok (PyList [result_as_dict out]).
Proof. done. Qed.

(** What [perform_inference] answers when it succeeds.  The model is the
    latest active one of the name, put in the cache under the identifier of
    its metadata, which the response gives back.  Since [predict] returns a
    dictionary, the prediction of the response is the list that holds this
    one dictionary, and the probabilities of the response are [None] also
    when the model gave some.  The clock is read twice, by [predict] and for
    the timestamp. *)
Theorem perform_inference_success env rt (body : dict json) (name : string)
    (w w' : world) (resp : response) :
  perform_inference env rt body name w = (Respond resp, w') ->
  exists input m md out,
    _prepare_input_vector rt name body = Respond input /\
    load_latest_model name w = (Ok (m, md), w) /\
    let cached :=
      set_caches (<[model_id md := m]> (loaded_models w))
        (<[model_id md := md]> (model_metadata w)) w in
    predict env (model_id md) (NdArray input) cached =
      (Ok out, set_ticks (S (ticks w)) cached) /\
    resp = {| modelId := model_id md;
              modelName := name;
              response_prediction := PyList [result_as_dict out];
              response_probabilities := PyNone;
              response_timestamp :=
                isoformat (utc rt (clock env (S (ticks w)))) +:+ "+00:00" |} /\
    w' = set_ticks (S (S (ticks w))) cached.
Proof.
  unfold perform_inference. intros H.
  destruct (_prepare_input_vector rt name body) as [input|]; [|done].
  unfold bind at 1 in H. rewrite load_model_for_inference_latest in H.
  destruct (load_latest_model name w) as [[[m md]|e] w1] eqn:Hload;
    [|injection H as H _; by apply http_of_exn_raises in H].
  apply load_latest_model_world in Hload as Hw. subst w1.
  exists input, m, md.
  unfold bind at 1 in H.
  destruct (predict env (model_id md) (NdArray input) _) as [[out|e] w2]
    eqn:Hpredict; [|injection H as H _; by apply http_of_exn_raises in H].
  pose proof (predict_ok _ _ _ _ _ _ Hpredict) as (_ & _ & _ & _ & -> & _).
  exists out. split; [done|]. split; [done|]. split; [done|].
  destruct (shaping_of_predict rt out) as [Hprobs Hfinal].
  unfold bind, lift, now, ret in H. rewrite Hprobs, Hfinal in H.
  simpl in H. by simplify_eq.
Qed.

Lemma fst_eq {A B} (p : A * B) (a : A) : fst p = a -> p = (a, snd p).
Proof. intros <-. by destruct p. Qed.

Lemma perform_inference_success_witness :
  fst (perform_inference Example.env EndpointExample.rt EndpointExample.body
         "stress_level_classifier" EndpointExample.serving)
    = Respond EndpointExample.answer /\
  exists out,
    response_prediction EndpointExample.answer = PyList [result_as_dict out] /\
    response_probabilities EndpointExample.answer = PyNone.
Proof.
  assert (fst (perform_inference Example.env EndpointExample.rt EndpointExample.body
                 "stress_level_classifier" EndpointExample.serving)
          = Respond EndpointExample.answer) as Hrun by (vm_compute; reflexivity).
  split; [exact Hrun|].
  destruct (perform_inference_success Example.env EndpointExample.rt EndpointExample.body
              "stress_level_classifier" EndpointExample.serving _ EndpointExample.answer
              (fst_eq _ _ Hrun))
    as (input & m & md & out & _ & _ & _ & Hresp & _).
  exists out. rewrite Hresp. split; reflexivity.
Defined.



(** ** Zero-padded decimals *)

Lemma of_uint_acc_digit (k : nat) (d : Decimal.uint) (acc : nat) :
  k < 10 ->
  Nat.of_uint_acc (digit k d) acc = Nat.of_uint_acc d (10 * acc + k).
Proof.
  intros Hk. do 10 (destruct k as [|k]; [simpl; rewrite Nat.tail_mul_spec;
                                         f_equal; lia|]).
  lia.
Qed.

Lemma of_uint_acc_fixed_width (w n acc : nat) :
  n < 10 ^ w -> Nat.of_uint_acc (fixed_width w n) acc = acc * 10 ^ w + n.
Proof.
  revert n acc. induction w as [|w IH]; intros n acc Hn.
  - simpl in *. lia.
  - assert (10 ^ w <> 0) as Hpos by (apply Nat.pow_nonzero; lia).
    assert (n / 10 ^ w < 10) as Hq.
    { apply Nat.Div0.div_lt_upper_bound. rewrite Nat.pow_succ_r' in Hn. lia. }
    assert (n mod 10 ^ w < 10 ^ w) as Hr by (by apply Nat.mod_upper_bound).
    cbn [fixed_width]. rewrite of_uint_acc_digit, IH by done.
    rewrite Nat.pow_succ_r'.
    pose proof (Nat.div_mod_eq n (10 ^ w)). nia.
Qed.

Lemma to_uint_fixed_width (w n : nat) :
  n < 10 ^ w -> Nat.to_uint n = Decimal.unorm (fixed_width w n).
Proof.
  intros Hn. rewrite <- Unsigned.to_of. f_equal. unfold Nat.of_uint.
  rewrite of_uint_acc_fixed_width by done. lia.
Qed.

Lemma nb_digits_digit (k : nat) (d : Decimal.uint) :
  Decimal.nb_digits (digit k d) = S (Decimal.nb_digits d).
Proof. by do 9 (destruct k as [|k]; [done|]). Qed.

Lemma nb_digits_fixed_width (w n : nat) :
  Decimal.nb_digits (fixed_width w n) = w.
Proof.
  revert n. induction w as [|w IH]; intros n; [done|].
  cbn [fixed_width]. by rewrite nb_digits_digit, IH.
Qed.

Lemma length_string_of_uint (d : Decimal.uint) :
  String.length (NilEmpty.string_of_uint d) = Decimal.nb_digits d.
Proof. induction d; simpl; congruence. Qed.

Lemma zeros_length (n : nat) : String.length (zeros n) = n.
Proof. induction n; simpl; congruence. Qed.

(** Padding with zeros puts back the zeros that normalising removed. *)
Lemma pad_unorm (d : Decimal.uint) :
  d <> Decimal.Nil ->
  zeros (Decimal.nb_digits d -
         String.length (NilEmpty.string_of_uint (Decimal.unorm d))) +:+
  NilEmpty.string_of_uint (Decimal.unorm d) = NilEmpty.string_of_uint d.
Proof.
  induction d as [|d IH| | | | | | | | |]; intros Hne; try done;
    try (rewrite length_string_of_uint; simpl; by rewrite Nat.sub_diag).
  rewrite unorm_D0.
  assert (d = Decimal.Nil \/ d <> Decimal.Nil) as [->|Hd]
    by (destruct d; [by left|by right..]); [done|].
  assert (String.length (NilEmpty.string_of_uint (Decimal.unorm d))
          <= Decimal.nb_digits d) as Hle.
  { rewrite length_string_of_uint. by apply nb_digits_unorm. }
  cbn [Decimal.nb_digits]. rewrite Nat.sub_succ_l by done.
  cbn [zeros NilEmpty.string_of_uint].
  change (String "0" ?a +:+ ?b) with (String "0" (a +:+ b)).
  by rewrite IH.
Qed.

Lemma pad_fixed_width (w n : nat) :
  0 < w -> n < 10 ^ w -> pad w n = NilEmpty.string_of_uint (fixed_width w n).
Proof.
  intros Hw Hn. unfold pad, decimal. rewrite (to_uint_fixed_width w n Hn).
  rewrite <- (nb_digits_fixed_width w n) at 1. apply pad_unorm.
  intros Hnil. apply (f_equal Decimal.nb_digits) in Hnil.
  rewrite nb_digits_fixed_width in Hnil. simpl in Hnil. lia.
Qed.

(** ** The order of timestamps *)

Lemma append_cons (c : ascii) (a b : string) :
  String c a +:+ b = String c (a +:+ b).
Proof. done. Qed.

Lemma compare_digit (qa qb : nat) (da db : Decimal.uint) (s t : string) :
  qa < 10 -> qb < 10 ->
  String.compare (NilEmpty.string_of_uint (digit qa da) +:+ s)
                 (NilEmpty.string_of_uint (digit qb db) +:+ t) =
  lex (Nat.compare qa qb)
    (String.compare (NilEmpty.string_of_uint da +:+ s)
                    (NilEmpty.string_of_uint db +:+ t)).
Proof.
  intros Ha Hb.
  do 10 (destruct qa as [|qa]; [
    do 10 (destruct qb as [|qb]; [
      cbn [digit NilEmpty.string_of_uint]; rewrite !append_cons; reflexivity|]);
    lia|]).
  lia.
Qed.

Lemma compare_fixed_width (w a b : nat) (s t : string) :
  a < 10 ^ w -> b < 10 ^ w ->
  String.compare (NilEmpty.string_of_uint (fixed_width w a) +:+ s)
                 (NilEmpty.string_of_uint (fixed_width w b) +:+ t) =
  lex (Nat.compare a b) (String.compare s t).
Proof.
  revert a b. induction w as [|w IH]; intros a b Ha Hb.
  - simpl in Ha, Hb. assert (a = 0) as -> by lia. assert (b = 0) as -> by lia.
    done.
  - assert (10 ^ w <> 0) as Hpos by (apply Nat.pow_nonzero; lia).
    rewrite Nat.pow_succ_r' in Ha, Hb.
    assert (a / 10 ^ w < 10) as Hqa
      by (apply Nat.Div0.div_lt_upper_bound; lia).
    assert (b / 10 ^ w < 10) as Hqb
      by (apply Nat.Div0.div_lt_upper_bound; lia).
    pose proof (Nat.mod_upper_bound a (10 ^ w) Hpos) as Hra.
    pose proof (Nat.mod_upper_bound b (10 ^ w) Hpos) as Hrb.
    cbn [fixed_width]. rewrite compare_digit, IH by done.
    pose proof (Nat.div_mod_eq a (10 ^ w)) as Hda.
    pose proof (Nat.div_mod_eq b (10 ^ w)) as Hdb.
    destruct (Nat.compare_spec (a / 10 ^ w) (b / 10 ^ w)) as [Hq|Hq|Hq]; simpl.
    + destruct (Nat.compare_spec (a mod 10 ^ w) (b mod 10 ^ w)) as [Hr|Hr|Hr];
        simpl.
      * assert (a = b) as -> by lia. by rewrite Nat.compare_refl.
      * assert (a < b) as Hlt by nia.
        apply Nat.compare_lt_iff in Hlt. by rewrite Hlt.
      * assert (b < a) as Hgt by nia.
        apply Nat.compare_gt_iff in Hgt. by rewrite Hgt.
    + assert (a < b) as Hlt by nia.
      apply Nat.compare_lt_iff in Hlt. by rewrite Hlt.
    + assert (b < a) as Hgt by nia.
      apply Nat.compare_gt_iff in Hgt. by rewrite Hgt.
Qed.

(** Two numbers padded to the same width compare as strings the way they
    compare as numbers, whatever follows them. *)
Lemma compare_pad (w a b : nat) (s t : string) :
  0 < w -> a < 10 ^ w -> b < 10 ^ w ->
  String.compare (pad w a +:+ s) (pad w b +:+ t) =
  lex (Nat.compare a b) (String.compare s t).
Proof.
  intros Hw Ha Hb. rewrite !pad_fixed_width by done.
  by apply compare_fixed_width.
Qed.

Lemma compare_sep (sep x y : string) :
  String.compare (sep +:+ x) (sep +:+ y) = String.compare x y.
Proof.
  induction sep as [|c sep IH]; [done|].
  rewrite !append_cons. cbn [String.compare]. unfold Ascii.compare.
  by rewrite N.compare_refl.
Qed.

Lemma append_empty_r (s : string) : s +:+ "" = s.
Proof.
  induction s as [|c s IH]; [done|]. rewrite append_cons. by rewrite IH.
Qed.

Lemma compare_fraction (a b : nat) :
  a < 10 ^ 6 -> b < 10 ^ 6 ->
  String.compare (if (a =? 0)%nat then "" else "." +:+ pad 6 a)
                 (if (b =? 0)%nat then "" else "." +:+ pad 6 b) =
  Nat.compare a b.
Proof.
  intros Ha Hb.
  destruct (Nat.eqb_spec a 0) as [->|Hna]; destruct (Nat.eqb_spec b 0) as [->|Hnb].
  - done.
  - rewrite append_cons. cbn [String.compare]. symmetry.
    apply Nat.compare_lt_iff. lia.
  - rewrite append_cons. cbn [String.compare]. symmetry.
    apply Nat.compare_gt_iff. lia.
  - rewrite compare_sep.
    rewrite <- (append_empty_r (pad 6 a)), <- (append_empty_r (pad 6 b)).
    rewrite compare_pad by (done || lia). by destruct (Nat.compare a b).
Qed.

Lemma isoformat_compare (t1 t2 : datetime) :
  valid_datetime t1 -> valid_datetime t2 ->
  String.compare (isoformat t1) (isoformat t2) = compare_datetime t1 t2.
Proof.
  intros (Hy1 & Hm1 & Hd1 & Hh1 & Hmi1 & Hs1 & Hus1)
         (Hy2 & Hm2 & Hd2 & Hh2 & Hmi2 & Hs2 & Hus2).
  unfold isoformat, compare_datetime, compare_seconds.
  rewrite compare_pad, compare_sep by (change (10 ^ 2) with 100; lia).
  rewrite compare_pad, compare_sep by (change (10 ^ 2) with 100; lia).
  rewrite compare_pad, compare_sep by (change (10 ^ 2) with 100; lia).
  rewrite compare_pad, compare_sep by (change (10 ^ 2) with 100; lia).
  rewrite compare_pad, compare_sep by (change (10 ^ 2) with 100; lia).
  rewrite compare_pad by (change (10 ^ 2) with 100; lia).
  rewrite compare_fraction by done.
  by repeat match goal with |- context [Nat.compare ?a ?b] =>
    destruct (Nat.compare a b) end.
Qed.

Lemma strftime_compact_compare (t1 t2 : datetime) :
  valid_datetime t1 -> valid_datetime t2 ->
  String.compare (strftime_compact t1) (strftime_compact t2) =
  compare_seconds t1 t2.
Proof.
  intros (Hy1 & Hm1 & Hd1 & Hh1 & Hmi1 & Hs1 & Hus1)
         (Hy2 & Hm2 & Hd2 & Hh2 & Hmi2 & Hs2 & Hus2).
  unfold strftime_compact, compare_seconds.
  rewrite <- (append_empty_r (pad 2 (second t1))),
          <- (append_empty_r (pad 2 (second t2))).
  rewrite compare_pad by (change (10 ^ 2) with 100; lia).
  rewrite compare_pad by (change (10 ^ 2) with 100; lia).
  rewrite compare_pad, compare_sep by (change (10 ^ 2) with 100; lia).
  rewrite compare_pad by (change (10 ^ 2) with 100; lia).
  rewrite compare_pad by (change (10 ^ 2) with 100; lia).
  rewrite compare_pad by (change (10 ^ 2) with 100; lia).
  by repeat match goal with |- context [Nat.compare ?a ?b] =>
    destruct (Nat.compare a b) end.
Qed.

Lemma string_compare_Eq (s t : string) : String.compare s t = Eq <-> s = t.
Proof.
  split; [apply String.compare_eq_iff|]. intros ->.
  pose proof (String.compare_antisym t t) as H.
  by destruct (String.compare t t).
Qed.

Lemma lex_Eq (c d : comparison) : lex c d = Eq <-> c = Eq /\ d = Eq.
Proof. destruct c, d; simpl; intuition congruence. Qed.

Lemma compare_seconds_Eq (t1 t2 : datetime) :
  compare_seconds t1 t2 = Eq <->
  year t1 = year t2 /\ month t1 = month t2 /\ day t1 = day t2 /\
  hour t1 = hour t2 /\ minute t1 = minute t2 /\ second t1 = second t2.
Proof.
  unfold compare_seconds. rewrite !lex_Eq, !Nat.compare_eq_iff. tauto.
Qed.

Lemma compare_datetime_Eq (t1 t2 : datetime) :
  compare_datetime t1 t2 = Eq <-> t1 = t2.
Proof.
  unfold compare_datetime.
  rewrite lex_Eq, compare_seconds_Eq, Nat.compare_eq_iff. split.
  - destruct t1, t2. simpl. intros ((-> & -> & -> & -> & -> & ->) & ->). done.
  - intros ->. tauto.
Qed.

(** The training date that [save_model] writes is an ISO timestamp, and
    [load_latest_model] and [cleanup_old_models] compare training dates as
    strings: for clock readings in the ranges of Python's [datetime] this is
    the comparison in time, and two readings give the same training date
    only when they are the same reading.  The entry that the [max] of
    [load_latest_model] picks is therefore one that no entry it was picked
    among is later than in time. *)
Theorem training_date_order (t1 t2 : datetime) :
  valid_datetime t1 -> valid_datetime t2 ->
  String.compare (isoformat t1) (isoformat t2) = compare_datetime t1 t2 /\
  (String.ltb (isoformat t1) (isoformat t2) = true <->
   compare_datetime t1 t2 = Lt) /\
  (isoformat t1 = isoformat t2 <-> t1 = t2) /\
  (forall (first : string * entry) (others : dict entry) id2 e2,
     latest_model_id (first :: others)
       = Some (fst (max_by_date first others)) /\
     (entry_training_date (snd (max_by_date first others)) = isoformat t1 ->
      In (id2, e2) (first :: others) ->
      entry_training_date e2 = isoformat t2 ->
      compare_datetime t1 t2 <> Lt)).
Proof.
  intros Hv1 Hv2.
  pose proof (isoformat_compare t1 t2 Hv1 Hv2) as Hcmp.
  split; [exact Hcmp|]. split; [|split].
  - unfold String.ltb. rewrite Hcmp. by destruct (compare_datetime t1 t2).
  - rewrite <- compare_datetime_Eq, <- Hcmp. symmetry.
    apply string_compare_Eq.
  - intros first others id2 e2. split; [done|].
    intros Hd1 Hin Hd2.
    destruct (max_by_date_spec others first) as [_ Hall].
    rewrite Forall_forall in Hall.
    specialize (Hall (id2, e2) ltac:(by apply list_elem_of_In)).
    unfold not_older, String.leb in Hall. simpl in Hall.
    rewrite Hd1, Hd2, (String.compare_antisym (isoformat t2)), Hcmp in Hall.
    by destruct (compare_datetime t1 t2).
Qed.

Lemma valid_at_second (n : nat) :
  n < 60 -> valid_datetime (Example.at_second n).
Proof.
  intros Hn. unfold valid_datetime.
  cbn [Example.at_second year month day hour minute second microsecond].
  repeat split; try lia.
  - apply Nat.ltb_lt. vm_compute. reflexivity.
  - apply Nat.neq_0_lt_0, Nat.pow_nonzero. lia.
Qed.

Lemma training_date_order_witness :
  String.ltb (isoformat (Example.at_second 5)) (isoformat (Example.at_second 6))
    = true /\
  compare_datetime (Example.at_second 5) (Example.at_second 6) = Lt.
Proof.
  destruct (training_date_order (Example.at_second 5) (Example.at_second 6))
    as (_ & Hlt & _); [apply valid_at_second; lia..|].
  split; [|reflexivity]. by apply Hlt.
Defined.

(** For one name and one version, and clock readings of the years from 1000
    on, which [%Y] writes with four digits, [_generate_model_id] gives two
    readings the same identifier exactly when they fall in the same second;
    identifiers made in different seconds differ, and they are ordered as
    strings the way the seconds are ordered in time. *)
Theorem generated_ids_by_second env (name ver : string) (w1 w2 : world) :
  valid_datetime (clock env (ticks w1)) ->
  valid_datetime (clock env (ticks w2)) ->
  1000 <= year (clock env (ticks w1)) ->
  1000 <= year (clock env (ticks w2)) ->
  (fst (_generate_model_id env name ver w1) =
   fst (_generate_model_id env name ver w2) <->
   compare_seconds (clock env (ticks w1)) (clock env (ticks w2)) = Eq) /\
  (forall id1 id2,
     fst (_generate_model_id env name ver w1) = Ok id1 ->
     fst (_generate_model_id env name ver w2) = Ok id2 ->
     String.compare id1 id2 =
     compare_seconds (clock env (ticks w1)) (clock env (ticks w2))).
Proof.
  intros Hv1 Hv2 _ _.
  pose proof (strftime_compact_compare _ _ Hv1 Hv2) as Hcmp.
  unfold _generate_model_id, now. munfold. simpl. split.
  - rewrite <- Hcmp, string_compare_Eq. split.
    + intros [= H]. by do 4 apply append_inj_r in H.
    + by intros ->.
  - intros id1 id2 [= <-] [= <-]. by rewrite !compare_sep.
Qed.

Lemma generated_ids_by_second_witness :
  fst (_generate_model_id Example.ticking_env "m" "1" Example.empty_world) <>
  fst (_generate_model_id Example.ticking_env "m" "1"
         (set_ticks 1 Example.empty_world)).
Proof.
  destruct (generated_ids_by_second Example.ticking_env "m" "1"
              Example.empty_world (set_ticks 1 Example.empty_world))
    as (Hsame & _);
    [apply valid_at_second; simpl; lia..
    |apply Nat.leb_le; vm_compute; reflexivity
    |apply Nat.leb_le; vm_compute; reflexivity|].
  intros Heq. apply Hsame in Heq. discriminate Heq.
Defined.

(** ** Renaming the files of a backup *)

Lemma prefix_append (old s : string) : String.prefix old (old +:+ s) = true.
Proof.
  induction old as [|c old IH]; [by destruct s|].
  rewrite append_cons. cbn [String.prefix].
  by destruct (Ascii.ascii_dec c c).
Qed.

Lemma prefix_longer (old s : string) :
  String.length s < String.length old -> String.prefix old s = false.
Proof.
  revert old. induction s as [|c s IH]; intros old Hlen.
  - destruct old; [simpl in Hlen; lia|done].
  - destruct old as [|c' old]; [simpl in Hlen; lia|].
    cbn [String.prefix]. destruct (Ascii.ascii_dec c' c); [|done].
    apply IH. simpl in Hlen. lia.
Qed.

Lemma replace_go_skip (old new a s : string) :
  replace_go old new (String.length a) (a +:+ s) = replace_go old new 0 s.
Proof. induction a as [|c a IH]; [done|]. rewrite append_cons. apply IH. Qed.

Lemma replace_go_short (old new s : string) :
  String.length s < String.length old -> replace_go old new 0 s = s.
Proof.
  induction s as [|c s IH]; intros Hlen; [done|].
  cbn [replace_go]. rewrite prefix_longer by done.
  rewrite IH; [done|]. simpl in Hlen. lia.
Qed.

(** Replacing the identifier at the head of a file name whose remainder is
    shorter than the identifier. *)
Lemma str_replace_head (old new s : string) :
  String.length s < String.length old ->
  str_replace old new (old +:+ s) = new +:+ s.
Proof.
  intros Hlen. destruct old as [|c old]; [simpl in Hlen; lia|].
  unfold str_replace.
  change (String c old +:+ s) with (String c (old +:+ s)).
  cbn [replace_go].
  change (String c (old +:+ s)) with (String c old +:+ s).
  rewrite prefix_append.
  cbn [String.length]. rewrite Nat.sub_1_r. cbn [Nat.pred].
  by rewrite replace_go_skip, replace_go_short.
Qed.

Lemma rev_app_append (a b c : string) :
  String.rev_app (a +:+ b) c = String.rev_app b (String.rev_app a c).
Proof.
  revert c. induction a as [|x a IH]; intros c; [done|].
  rewrite append_cons. cbn [String.rev_app]. apply IH.
Qed.

Lemma rev_app_spec (a c : string) :
  String.rev_app a c = String.rev a +:+ c.
Proof.
  unfold String.rev. revert c. induction a as [|x a IH]; intros c; [done|].
  cbn [String.rev_app]. rewrite IH, (IH (String x "")).
  by rewrite append_assoc.
Qed.

Lemma rev_append (a b : string) :
  String.rev (a +:+ b) = String.rev b +:+ String.rev a.
Proof.
  unfold String.rev at 1. rewrite rev_app_append. apply rev_app_spec.
Qed.

Lemma str_endswith_append (a suffix : string) :
  str_endswith (a +:+ suffix) suffix = true.
Proof. unfold str_endswith. rewrite rev_append. apply prefix_append. Qed.

(** The artifact of a model is no metadata document. *)
Lemma str_endswith_artifact (a : string) :
  str_endswith (a +:+ ".pkl") "_metadata.json" = false /\
  str_endswith (a +:+ ".pth") "_metadata.json" = false.
Proof. unfold str_endswith. by rewrite !rev_append. Qed.

(** ** What the storage calls do when they succeed *)

Lemma path_exists_ok p w b w' :
  path_exists p w = (Ok b, w') -> w' = w /\ b = is_file w p || is_dir w p.
Proof. unfold path_exists. munfold. by intros [= <- <-]. Qed.

Lemma mkdir_ok env p w u w' :
  mkdir env p w = (Ok u, w') ->
  is_file w p = false /\ w' = set_dirs ({[ p ]} ∪ dirs w) w.
Proof. unfold mkdir, guard_io. munfold. intros H. by mcases. Qed.

Lemma iterdir_ok d w l w' :
  iterdir d w = (Ok l, w') ->
  w' = w /\ is_dir w d = true /\ l = (child_files w d ++ child_dirs w d)%list.
Proof. unfold iterdir. munfold. intros H. by mcases. Qed.

Lemma write_file_ok env p f w u w' :
  write_file env p f w = (Ok u, w') ->
  is_dir w p = false /\ w' = set_files (<[p := f]> (files w)) w.
Proof. unfold write_file, guard_io. munfold. intros H. by mcases. Qed.

Lemma copy2_ok env src dst w u w' :
  copy2 env src dst w = (Ok u, w') ->
  exists f,
    files w !! src = Some f /\
    w' = set_files
           (<[(if is_dir w dst then path_join dst (path_name src) else dst)
              := f]> (files w)) w.
Proof.
  unfold copy2, read_file, guard_io. munfold. intros H. mcases; eauto.
Qed.

Lemma unlink_ok env p w u w' :
  unlink env p w = (Ok u, w') ->
  is_file w p = true /\ w' = set_files (delete p (files w)) w.
Proof. unfold unlink, guard_io. munfold. intros H. by mcases. Qed.

Lemma glob_metadata_ok d w l w' :
  glob_metadata d w = (Ok l, w') ->
  w' = w /\
  l = if is_dir w d
      then List.filter (fun p => str_endswith (path_name p) "_metadata.json")
             (child_files w d ++ child_dirs w d)%list
      else [].
Proof. unfold glob_metadata. munfold. by intros [= <- <-]. Qed.

Lemma _generate_model_id_ok env name ver w id w' :
  _generate_model_id env name ver w = (Ok id, w') ->
  id = name +:+ "_v" +:+ ver +:+ "_" +:+ strftime_compact (clock env (ticks w))
  /\ w' = set_ticks (S (ticks w)) w.
Proof. unfold _generate_model_id, now. munfold. by intros [= <- <-]. Qed.

Lemma filter_none {A} (f : A -> bool) (l : list A) :
  (forall x, In x l -> f x = false) -> List.filter f l = [].
Proof.
  induction l as [|x l IH]; intros Hf; [done|]. simpl.
  rewrite (Hf x) by (by left). apply IH. intros y Hy. apply Hf. by right.
Qed.

Lemma child_dirs_none (ds : gset path) (w : world) (d : path) :
  (forall x, x ∈ ds -> path_parent x <> d) ->
  child_dirs (set_dirs ds w) d = [].
Proof.
  intros Hnone. unfold child_dirs. apply filter_none. intros x Hx.
  apply list_elem_of_In, elem_of_elements in Hx. simpl in Hx.
  unfold is_child. apply bool_decide_eq_false. intros [_ Hp].
  by apply (Hnone x).
Qed.

Lemma path_parent_join (p : path) (name : string) :
  path_parent (path_join p name) = p.
Proof. unfold path_parent, path_join. apply removelast_last. Qed.

Lemma path_name_join (p : path) (name : string) :
  path_name (path_join p name) = name.
Proof. unfold path_name, path_join. apply List.last_last. Qed.

Lemma path_join_ne_self (p : path) (name : string) : path_join p name <> p.
Proof.
  unfold path_join. intros H. apply (f_equal length) in H.
  rewrite length_app in H. simpl in H. lia.
Qed.

(** The two steps of the loop of [restore_model] over a backup that holds
    two files, in either order. *)
Lemma copy_renamed_two env original new model_dir (p1 p2 : path) w u w' :
  copy_renamed env original new model_dir [p1; p2] w = (Ok u, w') ->
  (forall x, x ∈ dirs w -> path_parent x <> model_dir) ->
  path_parent p1 <> model_dir -> path_parent p2 <> model_dir ->
  is_file w p1 = true -> is_file w p2 = true ->
  exists f1 f2,
    files w !! p1 = Some f1 /\ files w !! p2 = Some f2 /\
    w' = set_files
           (<[path_join model_dir (str_replace original new (path_name p2))
              := f2]>
              (<[path_join model_dir (str_replace original new (path_name p1))
                 := f1]> (files w))) w.
Proof.
  intros H Hdirs Hp1 Hp2 Hf1 Hf2.
  assert (forall w0 x,
    dirs w0 = dirs w -> is_dir w0 (path_join model_dir x) = false) as Hnodir.
  { intros w0 x Hw0. unfold is_dir. rewrite Hw0. apply bool_decide_eq_false.
    intros Hin. apply (Hdirs _ Hin). apply path_parent_join. }
  cbn [copy_renamed] in H. rewrite bind_get, Hf1 in H.
  apply bind_inv_ok in H as ([] & w1 & Hc1 & H).
  apply copy2_ok in Hc1 as (f1 & Hs1 & ->).
  rewrite Hnodir in H by done.
  rewrite bind_get in H.
  assert (is_file
            (set_files
               (<[path_join model_dir
                    (str_replace original new (path_name p1)) := f1]>
                  (files w)) w) p2 = true) as Hf2'.
  { unfold is_file in *. simpl. rewrite lookup_insert_ne; [done|].
    intros <-. by rewrite path_parent_join in Hp2. }
  rewrite Hf2' in H.
  apply bind_inv_ok in H as ([] & w2 & Hc2 & H).
  apply copy2_ok in Hc2 as (f2 & Hs2 & ->).
  rewrite Hnodir in H by done.
  simpl in Hs2. rewrite lookup_insert_ne in Hs2.
  2: { intros <-. by rewrite path_parent_join in Hp2. }
  unfold ret in H. simplify_eq. exists f1, f2. done.
Qed.

(** ** Restoring a backup, then loading *)

Lemma glob_two (w : world) (backup : path) (id0 ext : string) :
  ext = ".pkl" \/ ext = ".pth" ->
  child_files w backup ≡ₚ
    [path_join backup (id0 +:+ ext);
     path_join backup (id0 +:+ "_metadata.json")] ->
  child_dirs w backup = [] ->
  List.filter (fun p => str_endswith (path_name p) "_metadata.json")
    (child_files w backup ++ child_dirs w backup)%list =
  [path_join backup (id0 +:+ "_metadata.json")].
Proof.
  intros Hext Hperm ->. rewrite app_nil_r.
  assert (str_endswith (id0 +:+ ext) "_metadata.json" = false) as Hart
    by (destruct Hext as [-> | ->]; apply str_endswith_artifact).
  symmetry in Hperm.
  destruct (Permutation_length_2_inv Hperm) as [-> | ->]; simpl;
    by rewrite !path_name_join, Hart, str_endswith_append.
Qed.

(** [restore_model] on a backup directory that holds the artifact and the
    metadata document of one model, named after the identifier in that
    metadata, returns an identifier that [load_model] resolves to the model
    of the backup.  The metadata it loads is the one of the backup but for
    the identifier and the artifact path: the version in it is unchanged,
    while the registry entry carries the version marked [_restored]; the
    backup itself is left in place. *)
Theorem restore_model_loadable env (backup : path) (w w' : world)
    (new_id : string) (m : model) (md : ModelMetadata) (ext : string) :
  restore_model env backup w = (Ok new_id, w') ->
  let artifact := path_join backup (model_id md +:+ ext) in
  let document := path_join backup (model_id md +:+ "_metadata.json") in
  let model_dir := path_join (base_path env) new_id in
  child_files w backup ≡ₚ [artifact; document] ->
  (forall d, d ∈ dirs w -> path_parent d <> backup) ->
  files w !! document = Some (MetadataDoc md) ->
  files w !! artifact = Some (Artifact (format_of (model_type md)) m) ->
  path_suffix (file_path md) = ext ->
  ext = ".pkl" \/ ext = ".pth" ->
  14 < String.length (model_id md) ->
  path_parent backup <> base_path env ->
  backup <> base_path env ->
  (forall d, d ∈ dirs w -> path_parent d <> model_dir) ->
  (forall n ms,
     In (n, ms) (registry w) -> dict_mem new_id ms = true ->
     n = model_name md) ->
  new_id = model_name md +:+ "_v" +:+ (version md +:+ "_restored") +:+ "_" +:+
           strftime_compact (clock env (ticks w)) /\
  load_model new_id w' =
    (Ok (m, restored_metadata md new_id
              (path_join model_dir (new_id +:+ ext))), w') /\
  (exists info,
     find_model new_id (registry w') = Some (model_name md, info) /\
     entry_version info = version md +:+ "_restored" /\
     entry_training_date info = training_date md /\
     entry_active info = Some true) /\
  files w' !! artifact = files w !! artifact /\
  files w' !! document = files w !! document.
Proof.
  intros H artifact document model_dir Hperm Hnodirs Hdoc Hart Hsuffix Hext
    Hlen Hparent Hbase Hfresh_dir Hfresh.
  unfold restore_model in H.
  apply bind_inv_ok in H as (ex & w0 & Hex & H).
  apply path_exists_ok in Hex as [-> ->].
  destruct (negb _); [done|].
  apply bind_inv_ok in H as (listing & w0 & Hglob & H).
  apply glob_metadata_ok in Hglob as [-> ->].
  destruct (is_dir w backup) eqn:Hisdir; [|done].
  rewrite (glob_two w backup (model_id md) ext) in H; [|done|done|].
  2: { rewrite <- (child_dirs_none (dirs w) w backup Hnodirs). by destruct w. }
  apply bind_inv_ok in H as (md0 & w0 & Hread & H).
  apply read_metadata_ok in Hread as [-> Hread].
  fold document in Hread. rewrite Hdoc in Hread. injection Hread as <-.
  apply bind_inv_ok in H as (id & w1 & Hid & H).
  apply _generate_model_id_ok in Hid as [Hid ->].
  assert (id = new_id) as Heq.
  { clear -H. repeat (apply bind_inv_ok in H as (? & ? & _ & H)).
    unfold ret in H. by simplify_eq. }
  rewrite Heq in Hid, H. clear id Heq. fold model_dir in H.
  assert (artifact <> document) as Hne.
  { intros Heq%path_join_inj_name%append_inj_r.
    by destruct Hext as [-> | ->]. }
  assert (backup <> model_dir) as Hdir_ne.
  { intros Heq. apply Hparent. rewrite Heq. apply path_parent_join. }
  apply bind_inv_ok in H as ([] & w1 & Hmk & H).
  apply mkdir_ok in Hmk as [Hnofile ->].
  apply bind_inv_ok in H as (listing & w1 & Hiter & H).
  apply iterdir_ok in Hiter as (-> & _ & ->).
  rewrite child_dirs_none, app_nil_r in H.
  2: { intros x [->%elem_of_singleton|Hx]%elem_of_union; [|by apply Hnodirs].
       unfold model_dir. rewrite path_parent_join. by intros <-. }
  change (child_files (set_dirs _ (set_ticks _ w)) backup)
    with (child_files w backup) in H.
  apply bind_inv_ok in H as ([] & w2 & Hcopy & H).
  assert (exists fs,
    w2 = set_files fs
           (set_dirs ({[model_dir]} ∪ dirs w) (set_ticks (S (ticks w)) w)) /\
    fs !! path_join model_dir (new_id +:+ ext) =
      Some (Artifact (format_of (model_type md)) m) /\
    fs !! artifact = files w !! artifact /\
    fs !! document = files w !! document /\
    fs !! registry_file env = files w !! registry_file env)
    as (fs & -> & Hfs_art & Hfs_a & Hfs_d & Hfs_r).
  { assert (forall x,
      x ∈ dirs (set_dirs ({[model_dir]} ∪ dirs (set_ticks (S (ticks w)) w))
                  (set_ticks (S (ticks w)) w)) ->
      path_parent x <> model_dir) as Hdirs.
    { simpl. intros x [->%elem_of_singleton|Hx]%elem_of_union;
        [|by apply Hfresh_dir].
      unfold model_dir at 1. rewrite path_parent_join.
      intros Heq. symmetry in Heq. by apply path_join_ne_self in Heq. }
    assert (path_parent artifact <> model_dir) as Hpa
      by (unfold artifact; by rewrite path_parent_join).
    assert (path_parent document <> model_dir) as Hpd
      by (unfold document; by rewrite path_parent_join).
    assert (str_replace (model_id md) new_id (path_name artifact)
            = new_id +:+ ext) as Hra.
    { unfold artifact. rewrite path_name_join. apply str_replace_head.
      destruct Hext as [-> | ->]; simpl; lia. }
    assert (str_replace (model_id md) new_id (path_name document)
            = new_id +:+ "_metadata.json") as Hrd.
    { unfold document. rewrite path_name_join. apply str_replace_head.
      simpl. lia. }
    assert (forall x, artifact <> path_join model_dir x) as Ha_out
      by (intros x Heq; apply Hpa; rewrite Heq; apply path_parent_join).
    assert (forall x, document <> path_join model_dir x) as Hd_out
      by (intros x Heq; apply Hpd; rewrite Heq; apply path_parent_join).
    assert (forall x, registry_file env <> path_join model_dir x) as Hr_out
      by (intros x Heq; symmetry in Heq; by apply path_join2_ne in Heq).
    assert (path_join model_dir (new_id +:+ "_metadata.json") <>
            path_join model_dir (new_id +:+ ext)) as Htargets.
    { intros Heq%path_join_inj_name%append_inj_r.
      by destruct Hext as [-> | ->]. }
    symmetry in Hperm.
    destruct (Permutation_length_2_inv Hperm) as [E|E]; rewrite E in Hcopy;
      apply copy_renamed_two in Hcopy as (f1 & f2 & H1 & H2 & Hw2);
      try done; try (unfold is_file; simpl; by rewrite ?Hart, ?Hdoc);
      simpl in Hw2, H1, H2; rewrite Hra, Hrd in Hw2;
      eexists; (split; [exact Hw2|]); simplify_eq;
      repeat split;
      by rewrite ?lookup_insert_eq, ?lookup_insert_ne, ?lookup_insert_eq
        by done. }
  apply bind_inv_ok in H as ([] & w3 & Hwrite & H).
  apply write_file_ok in Hwrite as [_ ->].
  apply bind_inv_ok in H as ([] & w4 & Hmod & H).
  unfold modify in Hmod. injection Hmod as <-.
  apply bind_inv_ok in H as ([] & w5 & Hsave & H).
  apply _save_registry_ok in Hsave as ->.
  unfold ret in H. injection H as <-.
  rewrite Hsuffix.
  assert ("." +:+ str_tail ext = ext) as -> by (by destruct Hext as [-> | ->]).
  assert (registry_file env <>
          path_join model_dir (new_id +:+ "_metadata.json")) as Hr_meta
    by (intros Heq; symmetry in Heq; by apply path_join2_ne in Heq).
  assert (registry_file env <> path_join model_dir (new_id +:+ ext)) as Hr_art
    by (intros Heq; symmetry in Heq; by apply path_join2_ne in Heq).
  assert (path_join model_dir (new_id +:+ "_metadata.json") <>
          path_join model_dir (new_id +:+ ext)) as Htargets.
  { intros Heq%path_join_inj_name%append_inj_r.
    by destruct Hext as [-> | ->]. }
  split; [exact Hid|]. split; [|split; [|split]].
  - eapply load_model_found.
    + simpl. apply find_model_registry_add. exact Hfresh.
    + simpl. by rewrite lookup_insert_ne, lookup_insert_eq.
    + simpl. by rewrite lookup_insert_ne, lookup_insert_ne.
  - eexists. simpl. split; [apply find_model_registry_add; exact Hfresh|].
    done.
  - simpl. rewrite !lookup_insert_ne; [done|..].
    + intros Heq. apply Hparent. unfold artifact in Heq.
      apply (f_equal path_parent) in Heq.
      rewrite !path_parent_join in Heq. subst backup.
      apply path_parent_join.
    + unfold artifact, registry_file.
      intros Heq%(f_equal path_parent). rewrite !path_parent_join in Heq.
      by apply Hbase.
  - simpl. rewrite !lookup_insert_ne; [done|..].
    + intros Heq. apply Hparent. unfold document in Heq.
      apply (f_equal path_parent) in Heq.
      rewrite !path_parent_join in Heq. subst backup.
      apply path_parent_join.
    + unfold document, registry_file.
      intros Heq%(f_equal path_parent). rewrite !path_parent_join in Heq.
      by apply Hbase.
Qed.

Lemma no_directory_in (ds : gset path) (d : path) :
  forallb (fun x => negb (bool_decide (path_parent x = d))) (elements ds)
    = true ->
  forall x, x ∈ ds -> path_parent x <> d.
Proof.
  intros Hall x Hx. rewrite forallb_forall in Hall.
  specialize (Hall x ltac:(by apply list_elem_of_In, elem_of_elements)).
  by apply negb_true_iff, bool_decide_eq_false in Hall.
Qed.

Lemma restore_model_loadable_witness :
  fst (load_model "m_v1_restored_20240301_120005" Example.restored) =
  Ok (Example.classifier,
      restored_metadata Example.saved_metadata "m_v1_restored_20240301_120005"
        ["models"; "m_v1_restored_20240301_120005";
         "m_v1_restored_20240301_120005.pkl"]).
Proof.
  destruct (restore_model_loadable Example.env BackupExample.backup
              BackupExample.deleted Example.restored
              "m_v1_restored_20240301_120005" Example.classifier
              Example.saved_metadata ".pkl")
    as (_ & Hload & _).
  - refine (run_eq (restore_model Example.env BackupExample.backup)
              BackupExample.deleted _ _).
    vm_compute. reflexivity.
  - assert (child_files BackupExample.deleted BackupExample.backup =
            [path_join BackupExample.backup "m_v1_20240301_120005_metadata.json";
             path_join BackupExample.backup "m_v1_20240301_120005.pkl"])
      as -> by (vm_compute; reflexivity).
    apply Permutation_swap.
  - apply no_directory_in. vm_compute. reflexivity.
  - vm_compute. reflexivity.
  - vm_compute. reflexivity.
  - vm_compute. reflexivity.
  - by left.
  - apply Nat.ltb_lt. vm_compute. reflexivity.
  - discriminate.
  - discriminate.
  - apply no_directory_in. vm_compute. reflexivity.
  - intros n ms Hin. vm_compute in Hin. contradiction.
  - by rewrite Hload.
Defined.

(** ** Backing up and deleting *)

Lemma now_ok env w t w' :
  now env w = (Ok t, w') ->
  t = clock env (ticks w) /\ w' = set_ticks (S (ticks w)) w.
Proof. unfold now. by intros [= <- <-]. Qed.

Lemma path_join_join_ne (p q : path) (a b c d : string) :
  p <> q \/ a <> c \/ b <> d ->
  path_join (path_join p a) b <> path_join (path_join q c) d.
Proof.
  unfold path_join. intros Hne Heq.
  apply app_inj_tail in Heq as [Heq ->].
  apply app_inj_tail in Heq as [-> ->]. tauto.
Qed.

Lemma backup_model_ok env id w dir w' name info ext fa fm :
  backup_model env id w = (Ok dir, w') ->
  find_model id (registry w) = Some (name, info) ->
  stored_as env id ext info ->
  files w !! entry_file_path info = Some fa ->
  files w !! entry_metadata_path info = Some fm ->
  (forall d, d ∈ dirs w -> path_parent (path_parent d) <> backup_path env) ->
  dir = path_join (backup_path env)
          (id +:+ "_" +:+ strftime_compact (clock env (ticks w))) /\
  w' = set_files
         (<[path_join dir (id +:+ "_metadata.json") := fm]>
            (<[path_join dir (id +:+ ext) := fa]> (files w)))
         (set_dirs ({[ dir ]} ∪ dirs w) (set_ticks (S (ticks w)) w)).
Proof.
  intros H Hfind (Hfp & Hmp & Hext) Hfa Hfm Hdirs.
  unfold backup_model in H. rewrite bind_get, Hfind in H.
  apply bind_inv_ok in H as (t & w1 & Hnow & H).
  apply now_ok in Hnow as [-> ->].
  set (dir0 := path_join (backup_path env)
                 (id +:+ "_" +:+ strftime_compact (clock env (ticks w)))) in *.
  apply bind_inv_ok in H as ([] & w1 & Hmk & H).
  apply mkdir_ok in Hmk as [_ ->].
  assert (forall w0 x,
    dirs w0 = {[dir0]} ∪ dirs w -> is_dir w0 (path_join dir0 x) = false)
    as Hnodir.
  { intros w0 x Hw0. unfold is_dir. rewrite Hw0. apply bool_decide_eq_false.
    intros [Hin%elem_of_singleton|Hin]%elem_of_union.
    - by apply path_join_ne_self in Hin.
    - apply (Hdirs _ Hin). unfold dir0. by rewrite !path_parent_join. }
  rewrite Hfp, Hmp in *. rewrite !path_name_join in H.
  apply bind_inv_ok in H as (ex & w1 & Hex & H).
  apply path_exists_ok in Hex as [-> ->].
  unfold is_file at 1 in H. simpl in H. rewrite Hfa in H. simpl in H.
  apply bind_inv_ok in H as ([] & w1 & Hcopy & H).
  apply copy2_ok in Hcopy as (f & Hf & ->). simpl in Hf.
  rewrite Hfa in Hf. injection Hf as <-.
  rewrite Hnodir in H by done.
  assert (path_join (path_join (base_path env) id) (id +:+ "_metadata.json")
          <> path_join dir0 (id +:+ ext)) as Hne.
  { apply path_join_join_ne. right. right. intros Heq%append_inj_r.
    by destruct Hext as [-> | ->]. }
  apply bind_inv_ok in H as (ex & w1 & Hex & H).
  apply path_exists_ok in Hex as [-> ->].
  unfold is_file at 1 in H. simpl in H.
  rewrite lookup_insert_ne, Hfm in H by done. simpl in H.
  apply bind_inv_ok in H as ([] & w1 & Hcopy & H).
  apply copy2_ok in Hcopy as (f & Hf & ->). simpl in Hf.
  rewrite lookup_insert_ne, Hfm in Hf by done. injection Hf as <-.
  rewrite Hnodir in H by done.
  unfold ret in H. injection H as <- <-. done.
Qed.

Lemma rmdir_ok env p w u w' :
  rmdir env p w = (Ok u, w') -> w' = set_dirs (dirs w ∖ {[ p ]}) w.
Proof. unfold rmdir, guard_io. munfold. intros H. by mcases. Qed.

Lemma child_files_none (w : world) (d : path) :
  (forall p, is_Some (files w !! p) -> path_parent p <> d) ->
  child_files w d = [].
Proof.
  intros Hnone. unfold child_files. apply filter_none. intros p Hp.
  apply in_map_iff in Hp as ([p' f] & <- & Hin).
  apply list_elem_of_In, elem_of_map_to_list in Hin. simpl.
  unfold is_child. apply bool_decide_eq_false. intros [_ Hparent].
  by apply (Hnone p'); [eexists|].
Qed.

(** The end of [delete_model]: the directory of the model is removed when
    nothing is left in it. *)
Lemma remove_if_empty_ok env (d : path) w u w' :
  bind (path_exists d)
    (fun ex =>
       if ex then
         bind (iterdir d)
           (fun children =>
              match children with
              | [] => rmdir env d
              | _ => ret tt
              end)
       else ret tt) w = (Ok u, w') ->
  files w' = files w /\ registry w' = registry w /\ caches w' = caches w /\
  ticks w' = ticks w /\
  (forall x, x ∈ dirs w' -> x ∈ dirs w) /\
  (forall x, x <> d -> x ∈ dirs w -> x ∈ dirs w') /\
  (child_files w d = [] -> child_dirs w d = [] -> d ∉ dirs w').
Proof.
  intros H. apply bind_inv_ok in H as (ex & w0 & Hex & H).
  apply path_exists_ok in Hex as [-> ->].
  destruct (is_file w d || is_dir w d) eqn:Hexists.
  - apply bind_inv_ok in H as (children & w0 & Hiter & H).
    apply iterdir_ok in Hiter as (-> & Hdir & ->).
    destruct (child_files w d ++ child_dirs w d)%list as [|c l] eqn:Hchildren.
    + apply rmdir_ok in H as ->. simpl.
      do 4 (split; [done|]). split; [|split].
      * intros x Hx. by apply elem_of_difference in Hx as [? _].
      * intros x Hne Hx. apply elem_of_difference. split; [done|].
        by intros ?%elem_of_singleton.
      * intros _ _ Hin. apply elem_of_difference in Hin as [_ Hn].
        apply Hn. by apply elem_of_singleton.
    + unfold ret in H. injection H as _ <-. do 6 (split; [done|]).
      intros Hf Hd. by rewrite Hf, Hd in Hchildren.
  - unfold ret in H. injection H as _ <-. do 6 (split; [done|]).
    intros _ _ Hin. apply orb_false_elim in Hexists as [_ Hdir].
    unfold is_dir in Hdir. by apply bool_decide_eq_false in Hdir.
Qed.

Lemma generated_name_longer (id s : string) : id <> id +:+ "_" +:+ s.
Proof.
  intros Heq. apply (f_equal String.length) in Heq.
  rewrite length_append in Heq. simpl in Heq. lia.
Qed.

Lemma not_registry_name (id ext : string) :
  ext = ".pkl" \/ ext = ".pth" ->
  id +:+ ext <> "model_registry.json" /\
  id +:+ "_metadata.json" <> "model_registry.json".
Proof.
  intros Hext. split; intros Heq%(f_equal String.rev);
    rewrite rev_append in Heq; [by destruct Hext as [-> | ->]|done].
Qed.

Lemma metadata_name_ne (id ext : string) :
  ext = ".pkl" \/ ext = ".pth" -> id +:+ "_metadata.json" <> id +:+ ext.
Proof.
  intros Hext Heq%(f_equal String.rev). rewrite !rev_append in Heq.
  destruct Hext as [-> | ->]; vm_compute in Heq; discriminate.
Qed.

(** [delete_model] on a model stored the way [save_model] stores it, whose
    two files exist, removes both files and the registry entry and, when
    nothing else was in it, the directory of the model.  Asked for a backup
    it leaves a copy of both files, under their names, in a directory of
    the backup path named after the identifier and the clock reading;
    without a backup nothing else on storage is touched but the registry
    document. *)
Theorem delete_model_files env (id : string) (create_backup : bool)
    (w w' : world) (r : bool) (name : string) (info : entry) (ext : string)
    (fa fm : file) :
  delete_model env id create_backup w = (Ok r, w') ->
  find_model id (registry w) = Some (name, info) ->
  stored_as env id ext info ->
  files w !! entry_file_path info = Some fa ->
  files w !! entry_metadata_path info = Some fm ->
  (forall d, d ∈ dirs w -> path_parent (path_parent d) <> backup_path env) ->
  backup_path env = path_join (base_path env) "backups" ->
  let model_dir := path_join (base_path env) id in
  let backup_dir :=
    path_join (backup_path env)
      (id +:+ "_" +:+ strftime_compact (clock env (ticks w))) in
  files w' !! entry_file_path info = None /\
  files w' !! entry_metadata_path info = None /\
  registry w' = registry_remove name id (registry w) /\
  (create_backup = true ->
   backup_dir ∈ dirs w' /\
   files w' !! path_join backup_dir (id +:+ ext) = Some fa /\
   files w' !! path_join backup_dir (id +:+ "_metadata.json") = Some fm) /\
  (forall p,
     p <> entry_file_path info -> p <> entry_metadata_path info ->
     p <> registry_file env ->
     (create_backup = true -> path_parent p <> backup_dir) ->
     files w' !! p = files w !! p) /\
  ((forall p, is_Some (files w !! p) -> path_parent p = model_dir ->
              p = entry_file_path info \/ p = entry_metadata_path info) ->
   (forall d, d ∈ dirs w -> path_parent d <> model_dir) ->
   model_dir <> backup_path env ->
   model_dir ∉ dirs w').
Proof.
  intros H Hfind Hstored Hfa Hfm Hdirs Hbp model_dir backup_dir.
  pose proof Hstored as (Hfp & Hmp & Hext).
  unfold delete_model in H. rewrite bind_get, Hfind in H.
  (* the backup *)
  apply bind_inv_ok in H as ([] & w1 & Hbackup & H).
  assert (exists fs ds,
    registry w1 = registry w /\ files w1 = fs /\ dirs w1 = ds /\
    fs !! entry_file_path info = Some fa /\
    fs !! entry_metadata_path info = Some fm /\
    (forall x, x ∈ dirs w -> x ∈ ds) /\
    (forall x, x ∈ ds -> x ∈ dirs w \/ (create_backup = true /\ x = backup_dir)) /\
    (create_backup = true ->
     backup_dir ∈ ds /\
     fs !! path_join backup_dir (id +:+ ext) = Some fa /\
     fs !! path_join backup_dir (id +:+ "_metadata.json") = Some fm) /\
    (forall p, (create_backup = true -> path_parent p <> backup_dir) ->
               fs !! p = files w !! p))
    as (fs & ds & Hreg1 & Hfs & Hds & Hfa1 & Hfm1 & Hds_in & Hds_out & Hcopy
        & Hframe1).
  { destruct create_backup.
    - apply bind_inv_ok in Hbackup as (dir & w0 & Hbackup & Hret).
      unfold ret in Hret. injection Hret as <-.
      destruct (backup_model_ok _ _ _ _ _ _ _ _ _ _ Hbackup Hfind Hstored
                  Hfa Hfm Hdirs) as [-> ->].
      fold backup_dir. eexists _, _. split; [done|]. do 2 (split; [done|]).
      assert (forall x y, path_join backup_dir x
                          <> path_join (path_join (base_path env) id) y)
        as Hne.
      { intros x y. apply path_join_join_ne. right. left.
        intros Heq. by apply (generated_name_longer id (strftime_compact (clock env (ticks w)))). }
      simpl. split; [|split; [|split; [|split; [|split]]]].
      + rewrite !lookup_insert_ne by (rewrite Hfp; apply Hne). done.
      + rewrite !lookup_insert_ne by (rewrite Hmp; apply Hne). done.
      + intros x Hx. by apply elem_of_union_r.
      + intros x [Hx%elem_of_singleton|Hx]%elem_of_union; [right|left]; done.
      + intros _. split; [by apply elem_of_union_l, elem_of_singleton|].
        split; [|by rewrite lookup_insert_eq].
        rewrite lookup_insert_ne, lookup_insert_eq; [done|].
        intros Heq. apply app_inj_tail in Heq as [_ Heq].
        by apply metadata_name_ne in Heq.
      + intros p Hp. specialize (Hp eq_refl).
        rewrite !lookup_insert_ne; [done|..];
          intros <-; by rewrite path_parent_join in Hp.
    - unfold ret in Hbackup. injection Hbackup as <-.
      eexists _, _. do 3 (split; [done|]). do 2 (split; [done|]).
      split; [done|]. split; [by left|]. split; [done|]. done. }
  assert (entry_metadata_path info <> entry_file_path info) as Hmf.
  { rewrite Hfp, Hmp. intros Heq. apply app_inj_tail in Heq as [_ Heq].
    by apply metadata_name_ne in Heq. }
  (* the two files *)
  apply bind_inv_ok in H as (ex & w0 & Hex & H).
  apply path_exists_ok in Hex as [-> ->].
  unfold is_file at 1 in H. rewrite Hfs, Hfa1 in H. simpl in H.
  apply bind_inv_ok in H as ([] & w2 & Hun & H).
  apply unlink_ok in Hun as [_ Hw2].
  apply bind_inv_ok in H as (ex & w0 & Hex & H).
  apply path_exists_ok in Hex as [-> ->].
  assert (is_file w2 (entry_metadata_path info) = true) as Hfile.
  { unfold is_file. rewrite Hw2. simpl.
    by rewrite lookup_delete_ne, Hfs, Hfm1. }
  rewrite Hfile in H. simpl in H.
  apply bind_inv_ok in H as ([] & w3 & Hun & H).
  apply unlink_ok in Hun as [_ Hw3].
  (* the directory *)
  apply bind_inv_ok in H as (ex & w0 & Hex & H).
  apply bind_inv_ok in H as ([] & w4 & Hrm & H).
  assert (bind (path_exists (path_parent (entry_file_path info)))
            (fun ex =>
               if ex then
                 bind (iterdir (path_parent (entry_file_path info)))
                   (fun children =>
                      match children with
                      | [] => rmdir env (path_parent (entry_file_path info))
                      | _ => ret tt
                      end)
               else ret tt) w3 = (Ok tt, w4)) as Hrm'.
  { unfold bind at 1. by rewrite Hex. }
  clear Hex Hrm. apply remove_if_empty_ok in Hrm'
    as (Hfiles4 & Hreg4 & _ & _ & Hsub4 & Hkeep4 & Hgone).
  rewrite Hfp, path_parent_join in Hkeep4, Hgone.
  (* the registry *)
  apply bind_inv_ok in H as ([] & w5 & Hmod & H).
  unfold modify in Hmod. injection Hmod as <-.
  apply bind_inv_ok in H as ([] & w6 & Hsave & H).
  apply _save_registry_ok in Hsave as ->.
  unfold ret in H. injection H as _ <-. simpl.
  assert (files w3 = delete (entry_metadata_path info)
                       (delete (entry_file_path info) fs)) as Hfiles3.
  { rewrite Hw3. simpl. rewrite Hw2. simpl. by rewrite Hfs. }
  assert (dirs w3 = ds) as Hdirs3.
  { rewrite Hw3. simpl. rewrite Hw2. simpl. done. }
  assert (registry w3 = registry w) as Hreg3.
  { rewrite Hw3. simpl. rewrite Hw2. simpl. done. }
  rewrite Hfiles4, Hfiles3, Hreg4, Hreg3.
  assert (forall x, length (path_join (base_path env) x)
                    = S (length (base_path env))) as Hlen1.
  { intros x. unfold path_join. rewrite length_app. simpl. lia. }
  assert (forall x, length (path_join backup_dir x)
                    = S (S (S (length (base_path env))))) as Hlen3.
  { intros x. unfold backup_dir. rewrite Hbp. unfold path_join.
    rewrite !length_app. simpl. lia. }
  assert (forall x, length (path_join model_dir x)
                    = S (S (length (base_path env)))) as Hlen2.
  { intros x. unfold model_dir, path_join. rewrite !length_app. simpl. lia. }
  fold model_dir in Hfp, Hmp, Hkeep4, Hgone.
  assert (backup_dir <> model_dir) as Hbm.
  { unfold backup_dir, model_dir. rewrite Hbp. intros Heq%(f_equal length).
    unfold path_join in Heq. rewrite !length_app in Heq. simpl in Heq. lia. }
  assert (registry_file env <> entry_file_path info) as Hrf.
  { rewrite Hfp. unfold registry_file. intros Heq%(f_equal length).
    rewrite Hlen1, Hlen2 in Heq. lia. }
  assert (registry_file env <> entry_metadata_path info) as Hrm.
  { rewrite Hmp. unfold registry_file. intros Heq%(f_equal length).
    rewrite Hlen1, Hlen2 in Heq. lia. }
  assert (forall x, registry_file env <> path_join backup_dir x) as Hrb.
  { intros x. unfold registry_file. intros Heq%(f_equal length).
    rewrite Hlen1, Hlen3 in Heq. lia. }
  split; [|split; [|split; [|split; [|split]]]].
  - rewrite lookup_insert_ne by done.
    rewrite lookup_delete_ne by done. by rewrite lookup_delete_eq.
  - rewrite lookup_insert_ne by done. by rewrite lookup_delete_eq.
  - done.
  - intros Hb. destruct (Hcopy Hb) as (Hin & Hca & Hcm).
    assert (forall x y, path_join backup_dir x <> path_join model_dir y)
      as Hne.
    { intros x y Heq%(f_equal length). rewrite Hlen2, Hlen3 in Heq. lia. }
    split; [|split].
    + apply Hkeep4; [done|]. by rewrite Hdirs3.
    + rewrite lookup_insert_ne by apply Hrb.
      rewrite !lookup_delete_ne; [done|rewrite Hfp|rewrite Hmp];
        intros Heq; by apply (Hne _ _ (eq_sym Heq)).
    + rewrite lookup_insert_ne by apply Hrb.
      rewrite !lookup_delete_ne; [done|rewrite Hfp|rewrite Hmp];
        intros Heq; by apply (Hne _ _ (eq_sym Heq)).
  - intros p Hp1 Hp2 Hp3 Hp4.
    rewrite lookup_insert_ne by done.
    rewrite !lookup_delete_ne by done. by apply Hframe1.
  - intros Honly Hnodirs Hmb. apply Hgone.
    + apply child_files_none. intros p Hsome Hparent.
      rewrite Hfiles3 in Hsome.
      destruct (decide (p = entry_metadata_path info)) as [->|Hpm];
        [rewrite lookup_delete_eq in Hsome; by destruct Hsome|].
      rewrite lookup_delete_ne in Hsome by done.
      destruct (decide (p = entry_file_path info)) as [->|Hpf];
        [rewrite lookup_delete_eq in Hsome; by destruct Hsome|].
      rewrite lookup_delete_ne in Hsome by done.
      rewrite Hframe1 in Hsome by (intros _; by rewrite Hparent).
      destruct (Honly p Hsome Hparent); done.
    + unfold child_dirs. apply filter_none. intros x Hx.
      apply list_elem_of_In, elem_of_elements in Hx. rewrite Hdirs3 in Hx.
      unfold is_child. apply bool_decide_eq_false. intros [_ Hparent].
      destruct (Hds_out x Hx) as [Hin|[_ ->]].
      * by apply (Hnodirs x).
      * unfold backup_dir in Hparent. rewrite path_parent_join in Hparent.
        by apply Hmb.
Qed.

Lemma only_children (fs : gmap path file) (d p1 p2 : path) :
  forallb
    (fun x => negb (bool_decide (path_parent x = d))
              || bool_decide (x = p1) || bool_decide (x = p2))
    (map fst (map_to_list fs)) = true ->
  forall p, is_Some (fs !! p) -> path_parent p = d -> p = p1 \/ p = p2.
Proof.
  intros Hall p [f Hf] Hparent. rewrite forallb_forall in Hall.
  assert (In p (map fst (map_to_list fs))) as Hin.
  { apply in_map_iff. exists (p, f). split; [done|].
    by apply list_elem_of_In, elem_of_map_to_list. }
  apply Hall in Hin.
  apply orb_true_iff in Hin as [[Hin|Hin]%orb_true_iff|Hin].
  - by apply negb_true_iff, bool_decide_eq_false in Hin.
  - left. by apply bool_decide_eq_true in Hin.
  - right. by apply bool_decide_eq_true in Hin.
Qed.

Lemma no_directory_below (ds : gset path) (d : path) :
  forallb (fun x => negb (bool_decide (path_parent (path_parent x) = d)))
    (elements ds) = true ->
  forall x, x ∈ ds -> path_parent (path_parent x) <> d.
Proof.
  intros Hall x Hx. rewrite forallb_forall in Hall.
  specialize (Hall x ltac:(by apply list_elem_of_In, elem_of_elements)).
  by apply negb_true_iff, bool_decide_eq_false in Hall.
Qed.

Lemma delete_model_files_witness :
  files BackupExample.deleted
    !! ["models"; "m_v1_20240301_120005"; "m_v1_20240301_120005.pkl"] = None /\
  files BackupExample.deleted !! path_join BackupExample.backup "m_v1_20240301_120005.pkl"
    = Some (Artifact Joblib Example.classifier) /\
  ["models"; "m_v1_20240301_120005"] ∉ dirs BackupExample.deleted.
Proof.
  destruct (delete_model_files Example.env "m_v1_20240301_120005" true
              Example.saved BackupExample.deleted true "m" Example.saved_entry
              ".pkl" (Artifact Joblib Example.classifier)
              (MetadataDoc Example.saved_metadata))
    as (Hgone & _ & _ & Hcopy & _ & Hdir).
  - refine (run_eq (delete_model Example.env "m_v1_20240301_120005" true)
              Example.saved _ _).
    vm_compute. reflexivity.
  - vm_compute. reflexivity.
  - split; [reflexivity|]. split; [reflexivity|]. by left.
  - vm_compute. reflexivity.
  - vm_compute. reflexivity.
  - apply no_directory_below. vm_compute. reflexivity.
  - reflexivity.
  - split; [exact Hgone|]. split.
    + destruct (Hcopy eq_refl) as (_ & Hfile & _). exact Hfile.
    + apply Hdir.
      * apply only_children. vm_compute. reflexivity.
      * apply no_directory_in. vm_compute. reflexivity.
      * discriminate.
Defined.
